(** * Klipper bed-mesh parser: a shallow embedding of
      [src/data_processing/measurement_parser.py] and the properties of its
      specification.

    The development follows the layout of the source file:
    - text (Python [str]) and the string methods the parser calls;
    - the built-ins [float()] and [int()] and IEEE-754 binary64 values;
    - the regular expressions of [KlipperMeshParser.__init__] with a
      backtracking matcher ([re.search]);
    - the part of NumPy the file uses ([np.array], [shape], [abs], [isnan],
      [isinf], [any]);
    - [MeshData], [parse_config_file] and [validate_mesh_data];
    - the theorems. *)

From Stdlib Require Import ZArith List Bool Ascii String Lia SpecFloat.
From stdpp Require Import gmap.
Import ListNotations.

Local Open Scope list_scope.
Local Open Scope bool_scope.

(** ** Text

    A Python [str] is a sequence of code points.  The model keeps the code
    points below 256 (ASCII and Latin-1), one [ascii] each; the character
    classes below are the ones CPython uses for such code points. *)

Abbreviation str := (list ascii) (only parsing).

Definition lit (s : string) : str := list_ascii_of_string s.

Definition code (c : ascii) : N := N_of_ascii c.

Definition in_range (lo hi : N) (c : ascii) : bool :=
  (lo <=? code c)%N && (code c <=? hi)%N.

(** [\s], [str.isspace]: TAB LF VT FF CR, FS GS RS US, SPACE, NEL, NBSP. *)
Definition is_space (c : ascii) : bool :=
  in_range 9 13 c || in_range 28 31 c || in_range 32 32 c
  || in_range 133 133 c || in_range 160 160 c.

(** [\d]: the decimal digits. *)
Definition is_digit (c : ascii) : bool := in_range 48 57 c.

(** [\w]: alphanumeric code points and the underscore. *)
Definition is_word (c : ascii) : bool :=
  is_digit c || in_range 65 90 c || in_range 97 122 c || in_range 95 95 c
  || in_range 170 170 c || in_range 178 179 c || in_range 181 181 c
  || in_range 185 186 c || in_range 188 190 c || in_range 192 214 c
  || in_range 216 246 c || in_range 248 255 c.

(** [.] without DOTALL: anything but a line feed. *)
Definition is_any (c : ascii) : bool := negb (Ascii.eqb c "010").

Definition is_char (a : ascii) (c : ascii) : bool := Ascii.eqb a c.

Arguments is_space : simpl never.
Arguments is_digit : simpl never.
Arguments is_word : simpl never.
Arguments is_any : simpl never.
Arguments is_char : simpl never.

Definition to_lower (c : ascii) : ascii :=
  if in_range 65 90 c then ascii_of_N (code c + 32) else c.

Definition str_eqb (a b : str) : bool := bool_decide (a = b).

Fixpoint starts_with (p s : str) : bool :=
  match p, s with
  | [], _ => true
  | a :: p', c :: s' => Ascii.eqb a c && starts_with p' s'
  | _ :: _, [] => false
  end.

Fixpoint drop_while (p : ascii -> bool) (s : str) : str :=
  match s with
  | c :: t => if p c then drop_while p t else s
  | [] => []
  end.

(** [s.split(sep)] for a one-character separator: always at least one
    piece. *)
Fixpoint split (sep : ascii) (s : str) : list str :=
  match s with
  | [] => [[]]
  | c :: t =>
      if Ascii.eqb sep c then [] :: split sep t
      else match split sep t with
           | p :: ps => (c :: p) :: ps
           | [] => [[c]]
           end
  end.

(** [sep.join(pieces)], used to write inputs down. *)
Fixpoint join (sep : str) (pieces : list str) : str :=
  match pieces with
  | [] => []
  | [p] => p
  | p :: ps => p ++ sep ++ join sep ps
  end.

(** [s.strip()]. *)
Definition lstrip (s : str) : str := drop_while is_space s.
Definition rstrip (s : str) : str := rev (drop_while is_space (rev s)).
Definition strip (s : str) : str := rstrip (lstrip s).

(** [s.replace(old, new)] for a non-empty [old]: occurrences are replaced
    from the left and do not overlap.  [skip] counts the characters of an
    occurrence that are still to be dropped. *)
Fixpoint replace_from (old new : str) (skip : nat) (s : str) : str :=
  match s with
  | [] => []
  | c :: t =>
      match skip with
      | S k => replace_from old new k t
      | O =>
          if starts_with old s
          then new ++ replace_from old new (length old - 1) t
          else c :: replace_from old new 0 t
      end
  end.

Definition replace (old new s : str) : str := replace_from old new 0 s.

(** [repr(s)]: the text between quotes, the single quote unless the text
    holds one and no double quote; the backslash and the quote escaped,
    TAB, LF and CR written [\t], [\n], [\r], and every other character
    that is not printable written [\xhh].  Below 256 the printable
    characters are 32 to 126 and 161 to 255 without the soft hyphen
    173. *)
Definition is_printable (c : ascii) : bool :=
  in_range 32 126 c || in_range 161 172 c || in_range 174 255 c.

Definition hex_digit (n : N) : ascii :=
  ascii_of_N (if (n <? 10)%N then 48 + n else 87 + n).

Definition repr_char (quote c : ascii) : str :=
  if is_char "\" c || Ascii.eqb quote c then ["\"%char; c]
  else if is_char "009" c then ["\"%char; "t"%char]
  else if is_char "010" c then ["\"%char; "n"%char]
  else if is_char "013" c then ["\"%char; "r"%char]
  else if is_printable c then [c]
  else ["\"%char; "x"%char; hex_digit (code c / 16); hex_digit (code c mod 16)].

Definition repr (s : str) : str :=
  let quote :=
    if existsb (is_char "'") s && negb (existsb (is_char "034") s)
    then "034"%char else "'"%char in
  quote :: flat_map (repr_char quote) s ++ [quote].

(** ** Floating-point values and the built-ins

    A Python [float] and a NumPy [float64] are IEEE-754 binary64 values:
    [spec_float] with precision 53 and maximal exponent 1024. *)

Abbreviation float := spec_float (only parsing).

Module Py.

Definition prec : Z := 53.
Definition emax : Z := 1024.

Definition is_nan (x : float) : bool :=
  match x with S754_nan => true | _ => false end.

Definition is_inf (x : float) : bool :=
  match x with S754_infinity _ => true | _ => false end.

Definition is_finite (x : float) : bool :=
  match x with S754_zero _ | S754_finite _ _ _ => true | _ => false end.

Definition float_of_Z (n : Z) : float := binary_normalize prec emax n 0 false.

(** The binary64 value nearest to [(-1)^neg * m * 10^e] (ties to even), as
    [float()] computes it from a decimal literal. *)
Definition float_of_decimal (neg : bool) (m : Z) (e : Z) : float :=
  match m with
  | Zpos p =>
      match e with
      | Zneg k =>
          SFdiv prec emax (S754_finite neg p 0)
                (S754_finite false (Pos.pow 10 k) 0)
      | _ => binary_round prec emax neg (p * Z.to_pos (10 ^ e)) 0
      end
  | _ => S754_zero neg
  end.

Definition digit_value (c : ascii) : Z := Z.of_N (code c) - 48.

Definition digits_value (ds : str) : Z :=
  fold_left (fun acc c => 10 * acc + digit_value c)%Z ds 0%Z.

(** [digitpart ::= digit (["_"] digit)*]: the digits read (underscores
    dropped) and what follows them; no digits when the text does not start
    with one. *)
Fixpoint digitpart (s : str) : str * str :=
  match s with
  | c :: t =>
      if is_digit c then
        match t with
        | u :: t' =>
            if is_char "_" u && match t' with d :: _ => is_digit d | [] => false end
            then let '(ds, r) := digitpart t' in (c :: ds, r)
            else let '(ds, r) := digitpart t in (c :: ds, r)
        | [] => ([c], [])
        end
      else ([], s)
  | [] => ([], [])
  end.

Definition sign_of (s : str) : bool * str :=
  match s with
  | c :: t =>
      if is_char "-" c then (true, t)
      else if is_char "+" c then (false, t)
      else (false, s)
  | [] => (false, [])
  end.

(** [exponent ::= ("e" | "E") ["+" | "-"] digitpart]; [None] when an
    exponent is started and not finished. *)
Definition exponent (s : str) : option (Z * str) :=
  match s with
  | c :: t =>
      if is_char "e" (to_lower c) then
        let '(neg, t1) := sign_of t in
        let '(ds, r) := digitpart t1 in
        match ds with
        | [] => None
        | _ => Some (if neg then (- digits_value ds)%Z else digits_value ds, r)
        end
      else Some (0%Z, s)
  | [] => Some (0%Z, [])
  end.

(** What [int] and [float] skip before and after a number: TAB LF VT FF
    CR, SPACE, NEL and NBSP.  The separators FS, GS, RS and US, which
    [str.strip] removes, are not among them: [int('2\x1f')] is a
    [ValueError]. *)
Definition is_number_space (c : ascii) : bool :=
  in_range 9 13 c || in_range 32 32 c || in_range 133 133 c || in_range 160 160 c.
Arguments is_number_space : simpl never.

Definition number_strip (s : str) : str :=
  rev (drop_while is_number_space (rev (drop_while is_number_space s))).

(** [float(s)]: [None] stands for the [ValueError] of a text that is not a
    floating-point literal. *)
Definition python_float (s : str) : option float :=
  let '(neg, s1) := sign_of (number_strip s) in
  let low := map to_lower s1 in
  if str_eqb low (lit "inf") || str_eqb low (lit "infinity")
  then Some (S754_infinity neg)
  else if str_eqb low (lit "nan") then Some S754_nan
  else
    let '(ip, s2) := digitpart s1 in
    let '(fp, s3) :=
      match s2 with
      | c :: t => if is_char "." c then digitpart t else ([], s2)
      | [] => ([], [])
      end in
    match ip ++ fp with
    | [] => None
    | ds =>
        match exponent s3 with
        | Some (ex, []) =>
            Some (float_of_decimal neg (digits_value ds)
                                   (ex - Z.of_nat (length fp)))
        | _ => None
        end
    end.

(** CPython's default limit on the digits of a decimal integer literal
    ([sys.get_int_max_str_digits()]). *)
Definition int_max_str_digits : nat := 4300.

(** [int(s)]: [None] stands for the [ValueError]. *)
Definition python_int (s : str) : option Z :=
  let '(neg, s1) := sign_of (number_strip s) in
  match digitpart s1 with
  | (c :: ds, []) =>
      if (length (c :: ds) <=? int_max_str_digits)%nat
      then Some (if neg then (- digits_value (c :: ds))%Z
                 else digits_value (c :: ds))
      else None
  | _ => None
  end.

(** The exceptions of this file: the one the parser raises itself, with its
    message, and those of the library calls. *)
Inductive exn :=
| ValueError (msg : str)
| ValueError_float (arg : str)       (* could not convert string to float *)
| ValueError_int (arg : str)         (* invalid literal for int() *)
| ValueError_inhomogeneous           (* np.array on ragged rows *)
| KeyError (key : str)
| UnicodeEncodeError.                (* a text that the output cannot encode *)

Inductive result (A : Type) :=
| Ok (a : A)
| Raise (e : exn).
Arguments Ok {A} a.
Arguments Raise {A} e.

Definition bind {A B} (x : result A) (f : A -> result B) : result B :=
  match x with
  | Ok a => f a
  | Raise e => Raise e
  end.

Notation "x <- c1 ;; c2" := (bind c1 (fun x => c2))
  (at level 100, c1 at next level, right associativity).

Definition or_raise {A} (o : option A) (e : exn) : result A :=
  match o with
  | Some a => Ok a
  | None => Raise e
  end.

(** [float(s)] and [int(s)] as calls that return or raise. *)
Definition py_float (s : str) : result float :=
  or_raise (python_float s) (ValueError_float s).

Definition py_int (s : str) : result Z :=
  or_raise (python_int s) (ValueError_int s).

End Py.
Import Py.

(** ** Regular expressions

    The constructs the two patterns of the parser use, and a backtracking
    matcher with the priorities of Python's [re]: every quantifier is
    greedy, alternatives are tried in order, and the first complete match
    wins. *)

Module Re.

Inductive regex :=
| Chr (p : ascii -> bool)        (* one character of a class *)
| Lit (l : str)                  (* literal text *)
| Seq (a b : regex)              (* a followed by b *)
| Opt (a : regex)                (* a? *)
| Star (a : regex)               (* a* *)
| Plus (a : regex)               (* a+ *)
| Group (n : nat) (a : regex).   (* the n-th parenthesised group *)

(** A matcher state: the groups captured so far (latest first) and the text
    still to be read. *)
Abbreviation mstate := (list (nat * str) * str)%type (only parsing).

(** The text between two positions of a scan. *)
Definition consumed (s rest : str) : str := firstn (length s - length rest) s.

(** Greedy repetition of [step]: one more round first, stopping second.  A
    round that reads nothing is not repeated. *)
Fixpoint star_loop (step : mstate -> list mstate) (fuel : nat) (st : mstate)
  : list mstate :=
  match fuel with
  | O => [st]
  | S n =>
      flat_map (fun st' =>
                  if (length (snd st') <? length (snd st))%nat
                  then star_loop step n st' else [])
               (step st) ++ [st]
  end.

Definition star (step : mstate -> list mstate) (st : mstate) : list mstate :=
  star_loop step (length (snd st)) st.

(** All the ways [r] matches at the start of the text, in the order in which
    a backtracking matcher finds them. *)
Fixpoint ms (r : regex) (st : mstate) : list mstate :=
  match r with
  | Chr p =>
      match snd st with
      | c :: t => if p c then [(fst st, t)] else []
      | [] => []
      end
  | Lit l =>
      if starts_with l (snd st)
      then [(fst st, skipn (length l) (snd st))] else []
  | Seq a b => flat_map (ms b) (ms a st)
  | Opt a => ms a st ++ [st]
  | Star a => star (ms a) st
  | Plus a => flat_map (star (ms a)) (ms a st)
  | Group n a =>
      map (fun st' => ((n, consumed (snd st) (snd st')) :: fst st', snd st'))
          (ms a st)
  end.

(** A match object: [group(0)] and the numbered groups. *)
Record re_match := { group0 : str; captures : list (nat * str) }.

Fixpoint group (n : nat) (caps : list (nat * str)) : option str :=
  match caps with
  | (k, v) :: caps' => if (k =? n)%nat then Some v else group n caps'
  | [] => None
  end.

(** [pattern.search(s)]: the first match at the leftmost position that has
    one. *)
Fixpoint search (r : regex) (s : str) : option re_match :=
  match ms r ([], s) with
  | (caps, rest) :: _ =>
      Some {| group0 := consumed s rest; captures := caps |}
  | [] =>
      match s with
      | _ :: t => search r t
      | [] => None
      end
  end.

End Re.
Import Re.

(** ** NumPy

    [np.array] of a list of rows of floats.  Rows of one length give a
    [float64] array of shape [(rows, columns)]; no row at all gives the
    empty array of shape [(0,)].  Rows of different lengths are refused with
    a [ValueError] since NumPy 1.24; before, they gave a one-dimensional
    array of Python lists ([dtype=object]). *)

Module Np.

Inductive numpy := NumPy_1_24 | NumPy_legacy.

Inductive ndarray :=
| FloatArray (shape : list Z) (data : list float)    (* row-major *)
| ObjectArray (rows : list (list float)).

Definition shape (a : ndarray) : list Z :=
  match a with
  | FloatArray sh _ => sh
  | ObjectArray rows => [Z.of_nat (length rows)]
  end.

Definition same_length (rows : list (list float)) : bool :=
  match rows with
  | [] => true
  | r :: rs => forallb (fun r' => (length r' =? length r)%nat) rs
  end.

Definition np_array (np : numpy) (rows : list (list float)) : result ndarray :=
  match rows with
  | [] => Ok (FloatArray [0%Z] [])
  | r :: _ =>
      if same_length rows
      then Ok (FloatArray [Z.of_nat (length rows); Z.of_nat (length r)]
                          (concat rows))
      else match np with
           | NumPy_1_24 => Raise ValueError_inhomogeneous
           | NumPy_legacy => Ok (ObjectArray rows)
           end
  end.

Definition ten : float := float_of_Z 10.

(** [np.any(np.abs(a) > 10)], [np.any(np.isnan(a))], [np.any(np.isinf(a))]
    on a [float64] array. *)
Definition any_abs_gt_10 (data : list float) : bool :=
  existsb (fun v => SFltb ten (SFabs v)) data.

Definition any_isnan (data : list float) : bool := existsb is_nan data.

Definition any_isinf (data : list float) : bool := existsb is_inf data.

End Np.
Import Np.

(** ** The parser *)

(** [-?\d+\.\d+] *)
Definition number : regex :=
  Seq (Opt (Chr (is_char "-")))
      (Seq (Plus (Chr is_digit)) (Seq (Chr (is_char ".")) (Plus (Chr is_digit)))).

Definition marker : str := lit "#*#".

(** The pattern of line 30: the marker, [\s+], any number of groups
    [-?\d+\.\d+,] with optional [\s] after the comma, and a last
    [-?\d+\.\d+]. *)
Definition point_regex : regex :=
  Seq (Lit marker)
      (Seq (Plus (Chr is_space))
           (Seq (Star (Group 1 (Seq number
                                    (Seq (Chr (is_char ","))
                                         (Star (Chr is_space))))))
                number)).

(** The pattern of line 31: the marker, [\s+], group 1 [\w+], [\s+], [=],
    [\s+], group 2 [.+]. *)
Definition param_regex : regex :=
  Seq (Lit marker)
      (Seq (Plus (Chr is_space))
           (Seq (Group 1 (Plus (Chr is_word)))
                (Seq (Plus (Chr is_space))
                     (Seq (Chr (is_char "="))
                          (Seq (Plus (Chr is_space))
                               (Group 2 (Plus (Chr is_any)))))))).

Record MeshData := {
  matrix : ndarray;
  x_count : Z;
  y_count : Z;
  min_x : float;
  max_x : float;
  min_y : float;
  max_y : float
}.

Record KlipperMeshParser := {
  point_pattern : regex;
  param_pattern : regex
}.

Definition __init__ : KlipperMeshParser :=
  {| point_pattern := point_regex; param_pattern := param_regex |}.

(** [[float(p.strip()) for p in pieces]] *)
Fixpoint floats_of (pieces : list str) : result (list float) :=
  match pieces with
  | [] => Ok []
  | p :: ps =>
      v <- py_float (strip p) ;;
      vs <- floats_of ps ;;
      Ok (v :: vs)
  end.

(** The row of a matched line (source line 49). *)
Definition points_of_match (m : re_match) : result (list float) :=
  floats_of (split "," (replace marker [] (group0 m))).

(** The first loop (lines 45-50). *)
Fixpoint scan_points (self : KlipperMeshParser) (lines : list str)
  : result (list (list float)) :=
  match lines with
  | [] => Ok []
  | line :: rest =>
      match search (point_pattern self) line with
      | Some m =>
          points <- points_of_match m ;;
          points_data <- scan_points self rest ;;
          Ok (points :: points_data)
      | None => scan_points self rest
      end
  end.

(** The second loop (lines 53-57), from the dictionary built so far.  Both
    groups of the pattern take part in every match (lemma
    [param_groups_bound]), so the last branch is never taken. *)
Fixpoint scan_params (self : KlipperMeshParser) (lines : list str)
  (params : gmap str str) : gmap str str :=
  match lines with
  | [] => params
  | line :: rest =>
      match search (param_pattern self) line with
      | Some m =>
          match group 1 (captures m), group 2 (captures m) with
          | Some key, Some value => scan_params self rest (<[key := value]> params)
          | _, _ => scan_params self rest params
          end
      | None => scan_params self rest params
      end
  end.

Definition required_params : list str :=
  [lit "x_count"; lit "y_count"; lit "min_x"; lit "max_x"; lit "min_y"; lit "max_y"].

Definition has_key (params : gmap str str) (key : str) : bool :=
  bool_decide (is_Some (params !! key)).

(** [params[key]] *)
Definition item (params : gmap str str) (key : str) : result str :=
  or_raise (params !! key) (KeyError key).

(** The body of the [try] (lines 44-76). *)
Definition parse_body (np : numpy) (self : KlipperMeshParser) (content : str)
  : result MeshData :=
  points_data <- scan_points self (split "010" content) ;;
  let params := scan_params self (split "010" content) ∅ in
  if negb (forallb (has_key params) required_params)
  then Raise (ValueError (lit "Missing required mesh parameters"))
  else
    height_matrix <- np_array np points_data ;;
    xs <- item params (lit "x_count") ;; xc <- py_int xs ;;
    ys <- item params (lit "y_count") ;; yc <- py_int ys ;;
    a <- item params (lit "min_x") ;; min_x <- py_float a ;;
    b <- item params (lit "max_x") ;; max_x <- py_float b ;;
    c <- item params (lit "min_y") ;; min_y <- py_float c ;;
    d <- item params (lit "max_y") ;; max_y <- py_float d ;;
    Ok {| matrix := height_matrix; x_count := xc; y_count := yc;
          min_x := min_x; max_x := max_x; min_y := min_y; max_y := max_y |}.

(** What [print] has written: the line [f"Error parsing mesh data: {e}"] is
    kept as the exception it shows. *)
Inductive printed := Error_parsing_mesh_data (e : exn).

Record world := { stdout : list printed }.

(** A method call: it returns or raises, and leaves a world behind. *)
Definition call (A : Type) := world -> result A * world.

(** What [str(e)] shows of the data.  [int] shows its argument as
    [%.200R], [float] as [%R]; the message of line 62 is its own text, and
    NumPy's shows none.  The rest of a printed line is ASCII text of the
    program and of the libraries. *)
Definition echoed (p : printed) : str :=
  match p with
  | Error_parsing_mesh_data e =>
      match e with
      | ValueError msg => msg
      | ValueError_float arg => repr arg
      | ValueError_int arg => firstn 200 (repr arg)
      | ValueError_inhomogeneous => []
      | KeyError key => repr key
      | UnicodeEncodeError => []
      end
  end.

Section Stdout.

Set Default Proof Using "Type".

(** [sys.stdout] of the run: [stdout_encodes c] says that it can write the
    character [c] beyond ASCII, by its encoding or by its error handler.
    ASCII is taken to be within its encoding. *)
Variable stdout_encodes : ascii -> bool.

Definition can_encode (c : ascii) : bool :=
  (code c <? 128)%N || stdout_encodes c.

(** [print(line)]: the line is encoded as a whole before anything is
    written; a character that the output cannot encode raises
    [UnicodeEncodeError] and leaves the output as it was. *)
Definition print (p : printed) : call unit :=
  fun w =>
    if forallb can_encode (echoed p)
    then (Ok tt, {| stdout := stdout w ++ [p] |})
    else (Raise UnicodeEncodeError, w).

(** [try: body  except Exception as e: handler e] for a body without
    effects on the world; what the handler raises is not caught. *)
Definition try_except {A} (body : result A) (handler : exn -> call A) : call A :=
  fun w =>
    match body with
    | Ok a => (Ok a, w)
    | Raise e => handler e w
    end.

Definition parse_config_file (np : numpy) (self : KlipperMeshParser)
  (content : str) : call (option MeshData) :=
  try_except
    (m <- parse_body np self content ;; Ok (Some m))
    (fun e w =>
       match print (Error_parsing_mesh_data e) w with
       | (Ok _, w') => (Ok None, w')
       | (Raise e', w') => (Raise e', w')
       end).

Definition validate_mesh_data (self : KlipperMeshParser) (mesh_data : MeshData)
  : bool :=
  if negb (bool_decide (shape (matrix mesh_data)
                        = [x_count mesh_data; y_count mesh_data]))
  then false
  else
    match matrix mesh_data with
    | FloatArray _ data =>
        if any_abs_gt_10 data then false
        else if any_isnan data || any_isinf data then false
        else true
    | ObjectArray _ => false   (* not reached: lemma [object_shape_mismatch] *)
    end.

(** * The vocabulary of the properties

    Rows, parameter lines and files as they are written, so that an input
    can be named by what it holds; the predicates of the claims; and the
    matcher stripped of its captures, on which the lemmas about where a
    match ends are proved. *)

(** ** Numbers and rows as they are written *)

(** A number of the point pattern: sign, integer digits, fraction digits. *)
Record decimal := { d_neg : bool; d_int : str; d_frac : str }.

Definition digits (s : str) : bool :=
  match s with [] => false | _ => forallb is_digit s end.

Definition wf_decimal (d : decimal) : bool :=
  digits (d_int d) && digits (d_frac d).

Definition render_decimal (d : decimal) : str :=
  (if d_neg d then ["-"%char] else []) ++ d_int d ++ "."%char :: d_frac d.

(** The value [float()] gives to the text of a number. *)
Definition decimal_float (d : decimal) : float :=
  float_of_decimal (d_neg d) (digits_value (d_int d ++ d_frac d))
                   (0 - Z.of_nat (length (d_frac d))).

Definition spaces (w : str) : bool := forallb is_space w.

(** The numbers after the first, each with the whitespace that follows its
    comma. *)
Fixpoint render_more (more : list (str * decimal)) : str :=
  match more with
  | [] => []
  | (w, d) :: m => ","%char :: w ++ render_decimal d ++ render_more m
  end.

Definition render_numbers (first : decimal) (more : list (str * decimal)) : str :=
  render_decimal first ++ render_more more.

Definition wf_more (more : list (str * decimal)) : bool :=
  forallb (fun wd => spaces (fst wd) && wf_decimal (snd wd)) more.

(** A row: the whitespace after the marker, the first number and the
    others. *)
Record row := { r_lead : str; r_first : decimal; r_more : list (str * decimal) }.

Definition render_row (r : row) : str :=
  marker ++ r_lead r ++ render_numbers (r_first r) (r_more r).

Definition wf_row (r : row) : bool :=
  match r_lead r with [] => false | _ => spaces (r_lead r) end
  && wf_decimal (r_first r) && wf_more (r_more r).

Definition cells (r : row) : list decimal := r_first r :: map snd (r_more r).

(** The floats of a row, in the order of its line. *)
Definition row_floats (r : row) : list float := map decimal_float (cells r).

(** A number with its whitespace, as [split] cuts it out of a row. *)
Definition piece (wd : str * decimal) : str := fst wd ++ render_decimal (snd wd).

(** The characters of a written row after the marker. *)
Definition row_char (c : ascii) : bool :=
  is_space c || is_digit c || is_char "-" c || is_char "." c || is_char "," c.

Definition number_char (c : ascii) : bool :=
  is_digit c || is_char "-" c || is_char "." c.

(** ** Parameter lines as they are written *)

Record param_line := {
  p_lead : str;     (* whitespace after the marker *)
  p_key : str;
  p_mid : str;      (* whitespace before the equals sign *)
  p_gap : str;      (* whitespace after the equals sign *)
  p_value : str     (* the rest of the line *)
}.

Definition render_param (p : param_line) : str :=
  marker ++ p_lead p ++ p_key p ++ p_mid p ++ "="%char :: p_gap p ++ p_value p.

Definition some_spaces (w : str) : bool :=
  match w with [] => false | _ => forallb is_space w end.

Definition word (k : str) : bool :=
  match k with [] => false | _ => forallb is_word k end.

(** A value starts with a character that is no whitespace and stays on its
    line. *)
Definition wf_value (v : str) : bool :=
  match v with
  | c :: _ => negb (is_space c) && forallb is_any v
  | [] => false
  end.

Definition wf_param (p : param_line) : bool :=
  some_spaces (p_lead p) && word (p_key p) && some_spaces (p_mid p)
  && some_spaces (p_gap p) && wf_value (p_value p).

Definition no_hash (s : str) : bool := forallb (fun c => negb (is_char "#" c)) s.

(** ** Files *)

Inductive written_line :=
| RowLine (r : row)
| ParamLine (p : param_line).

Definition render_line (l : written_line) : str :=
  match l with
  | RowLine r => render_row r
  | ParamLine p => render_param p
  end.

(** A line is written on one line; the value of a parameter line holds no
    marker. *)
Definition wf_line (l : written_line) : bool :=
  match l with
  | RowLine r => wf_row r
  | ParamLine p => wf_param p && no_hash (p_value p)
  end
  && forallb is_any (render_line l).

(** The rows of a file, in the order of their lines. *)
Fixpoint rows_of (ls : list written_line) : list row :=
  match ls with
  | [] => []
  | RowLine r :: rest => r :: rows_of rest
  | ParamLine _ :: rest => rows_of rest
  end.

(** The value a file gives to a key: the one of the last line that declares
    it. *)
Fixpoint declared (ls : list written_line) (key : str) : option str :=
  match ls with
  | [] => None
  | l :: rest =>
      match declared rest key with
      | Some v => Some v
      | None =>
          match l with
          | ParamLine p => if str_eqb (p_key p) key then Some (p_value p) else None
          | RowLine _ => None
          end
      end
  end.

(** The text of a file: its lines joined by line feeds. *)
Definition file_text (ls : list written_line) : str :=
  join ["010"%char] (map render_line ls).

(** The key that a line declares, when the parameter pattern matches it. *)
Definition declared_key (line : str) : option str :=
  match search param_regex line with
  | Some m => group 1 (captures m)
  | None => None
  end.

(** ** Predicates of the claims *)

(** [pattern.match(s) is not None] *)
Definition matches (r : regex) (s : str) : bool :=
  match ms r ([], s) with [] => false | _ :: _ => true end.

(** A comma, optional whitespace and one more number: what a further group
    of the point pattern followed by its last number starts with. *)
Definition continuation : regex :=
  Seq (Chr (is_char ",")) (Seq (Star (Chr is_space)) number).

(** The text after a run of numbers leaves the run as it is: it neither
    lengthens the last number nor adds a number to the run. *)
Definition ends_run (t : str) : bool :=
  negb (matches (Chr is_digit) t) && negb (matches continuation t).

(** [p in s] *)
Fixpoint contains (p s : str) : bool :=
  starts_with p s || match s with _ :: t => contains p t | [] => false end.

(** A finite value of magnitude at most 10. *)
Definition in_bounds (v : float) : bool :=
  is_finite v && SFleb (SFabs v) ten.

(** The floats an array holds. *)
Definition elements (a : ndarray) : list float :=
  match a with
  | FloatArray _ data => data
  | ObjectArray rows => concat rows
  end.

(** The exception of source line 62. *)
Definition missing_parameters : exn :=
  ValueError (lit "Missing required mesh parameters").

(** ** The matcher without its captures

    Where a match ends does not depend on the groups: [rests] is [ms] with
    the captures left out (lemma [ms_rests]). *)

Fixpoint rstar_loop (step : str -> list str) (fuel : nat) (s : str)
  : list str :=
  match fuel with
  | O => [s]
  | S n =>
      flat_map (fun s' => if (length s' <? length s)%nat
                          then rstar_loop step n s' else [])
               (step s) ++ [s]
  end.

Definition rstar (step : str -> list str) (s : str) : list str :=
  rstar_loop step (length s) s.

Fixpoint rests (r : regex) (s : str) : list str :=
  match r with
  | Chr p =>
      match s with
      | c :: t => if p c then [t] else []
      | [] => []
      end
  | Lit l => if starts_with l s then [skipn (length l) s] else []
  | Seq a b => flat_map (rests b) (rests a s)
  | Opt a => rests a s ++ [s]
  | Star a => rstar (rests a) s
  | Plus a => flat_map (rstar (rests a)) (rests a s)
  | Group _ a => rests a s
  end.

(** A class repeated: every suffix reached by dropping characters of the
    class, the longest run first. *)
Fixpoint backs (p : ascii -> bool) (s : str) : list str :=
  match s with
  | c :: t => if p c then backs p t ++ [s] else [s]
  | [] => [[]]
  end.

(** The first match of [r] from a state. *)
Definition first_match (r : regex) (st st' : mstate) : Prop :=
  exists tl, ms r st = st' :: tl.

(** The group [n] lies on every path through [r]. *)
Fixpoint binds (n : nat) (r : regex) : bool :=
  match r with
  | Group k a => (k =? n)%nat || binds n a
  | Seq a b => binds n a || binds n b
  | Plus a => binds n a
  | _ => false
  end.

Definition bound (n : nat) (st : mstate) : Prop := group n (fst st) <> None.

(** ** The two patterns, piece by piece *)

(** [\d+\.\d+] *)
Definition unsigned_number : regex :=
  Seq (Plus (Chr is_digit)) (Seq (Chr (is_char ".")) (Plus (Chr is_digit))).

(** The group of the point pattern. *)
Definition point_group : regex :=
  Group 1 (Seq number (Seq (Chr (is_char ",")) (Star (Chr is_space)))).

(** The pattern after the marker and its whitespace. *)
Definition numbers : regex := Seq (Star point_group) number.

(** Both patterns: the marker, [\s+] and the rest. *)
Definition after_marker (r : regex) : regex :=
  Seq (Lit marker) (Seq (Plus (Chr is_space)) r).

(** The parameter pattern after the equals sign, and after the marker and
    its whitespace. *)
Definition param_tail : regex :=
  Seq (Plus (Chr is_space)) (Group 2 (Plus (Chr is_any))).

Definition param_rest : regex :=
  Seq (Group 1 (Plus (Chr is_word)))
      (Seq (Plus (Chr is_space)) (Seq (Chr (is_char "=")) param_tail)).

(** ** Scanning a number without backtracking

    What the number pattern does on a text, written as a scan from the
    left (lemma [rests_number]). *)

Definition strip_minus (s : str) : str :=
  match s with
  | c :: t => if is_char "-" c then t else s
  | [] => []
  end.

(** The text after the first digit of the fraction of a number that starts
    the text. *)
Definition unsigned_tail (s : str) : option str :=
  match s with
  | c :: t =>
      if is_digit c then
        match drop_while is_digit t with
        | d :: e :: v => if is_char "." d && is_digit e then Some v else None
        | _ => None
        end
      else None
  | [] => None
  end.

Definition num_tail (s : str) : option str := unsigned_tail (strip_minus s).

(** Where the longest number that starts the text ends. *)
Definition num_end (s : str) : option str :=
  option_map (drop_while is_digit) (num_tail s).

(** Where the first match of [numbers] ends. *)
Definition first_end (s : str) : option str := hd_error (rests numbers s).

Definition not_digit_next (s : str) : Prop :=
  match s with c :: _ => is_digit c = false | [] => True end.

(** What may follow the digits that [digitpart] reads. *)
Definition ends_digitpart (rest : str) : Prop :=
  match rest with
  | c :: _ => is_digit c = false /\ is_char "_" c = false
  | [] => True
  end.

(** ** Example inputs *)

Definition dec (neg : bool) (i f : string) : decimal :=
  {| d_neg := neg; d_int := lit i; d_frac := lit f |}.

Definition param (key value : string) : param_line :=
  {| p_lead := lit " "; p_key := lit key; p_mid := lit " ";
     p_gap := lit " "; p_value := lit value |}.

Definition two_hundred : float := S754_finite false 7036874417766400 (-45).

(** The example of the specification. *)
Definition example_lines : list written_line :=
  [RowLine {| r_lead := lit " "; r_first := dec false "0" "012";
              r_more := [(lit " ", dec true "0" "034")] |};
   RowLine {| r_lead := lit " "; r_first := dec false "1" "001";
              r_more := [(lit " ", dec false "0" "998")] |};
   ParamLine (param "x_count" "2"); ParamLine (param "y_count" "2");
   ParamLine (param "min_x" "0"); ParamLine (param "max_x" "200");
   ParamLine (param "min_y" "0"); ParamLine (param "max_y" "200")].

Definition example_mesh : MeshData :=
  {| matrix :=
       FloatArray [2%Z; 2%Z]
                  [S754_finite false 6917529027641082 (-59);
                   S754_finite true 4899916394579100 (-57);
                   S754_finite false 4508103226997866 (-52);
                   S754_finite false 8989184856231510 (-53)];
     x_count := 2; y_count := 2;
     min_x := S754_zero false; max_x := two_hundred;
     min_y := S754_zero false; max_y := two_hundred |}.

(** A text whose rows have two numbers and one number. *)
Definition ragged_text : str :=
  join ["010"%char]
       [lit "#*# 0.012, -0.034"; lit "#*# 1.001";
        lit "#*# x_count = 2"; lit "#*# y_count = 2";
        lit "#*# min_x = 0"; lit "#*# max_x = 200";
        lit "#*# min_y = 0"; lit "#*# max_y = 200"].

Definition ragged_rows : list (list float) :=
  [[S754_finite false 6917529027641082 (-59);
    S754_finite true 4899916394579100 (-57)];
   [S754_finite false 4508103226997866 (-52)]].

Definition boundary_mesh : MeshData :=
  {| matrix := FloatArray [1%Z; 3%Z] [ten; SFopp ten; S754_zero false];
     x_count := 1; y_count := 3;
     min_x := S754_zero false; max_x := two_hundred;
     min_y := S754_zero false; max_y := two_hundred |}.

(** The example without its last parameter. *)
Definition missing_text : str :=
  join ["010"%char]
       [lit "#*# 0.012, -0.034"; lit "#*# 1.001, 0.998";
        lit "#*# x_count = 2"; lit "#*# y_count = 2";
        lit "#*# min_x = 0"; lit "#*# max_x = 200";
        lit "#*# min_y = 0"].

(** ** Further vocabulary *)

(** The first loop takes a row from the line. *)
Definition is_row_line (line : str) : bool :=
  match search point_regex line with Some _ => true | None => false end.

(** A line whose first number is a whole number: the marker, whitespace,
    an optional minus sign, digits, and a text that does not go on with a
    digit or a decimal point. *)
Definition integer_line (lead : str) (neg : bool) (ds t : str) : str :=
  marker ++ lead ++ (if neg then ["-"%char] else []) ++ ds ++ t.

Definition not_fraction_next (t : str) : bool :=
  match t with
  | c :: _ => negb (is_digit c) && negb (is_char "." c)
  | [] => true
  end.

Definition not_space_next (t : str) : bool :=
  match t with
  | c :: _ => negb (is_space c)
  | [] => true
  end.

(** What follows the equals sign of a text that starts with a word,
    whitespace and an equals sign. *)
Definition after_equals (s : str) : option str :=
  match s with
  | c :: t =>
      if is_word c then
        match drop_while is_word t with
        | w :: u =>
            if is_space w then
              match drop_while is_space u with
              | e :: v => if is_char "=" e then Some v else None
              | [] => None
              end
            else None
        | [] => None
        end
      else None
  | [] => None
  end.

Definition has_hash (line : str) : bool := negb (no_hash line).

(** Whitespace that stays on its line and that [int] and [float] skip
    around a number: TAB, VT, FF, CR, SPACE, NEL and NBSP.  The line feed
    ends the line; the separators FS, GS, RS and US are whitespace for [\s]
    and [str.strip], and CPython's [int] and [float] do not skip them. *)
Definition blank_char (c : ascii) : bool :=
  is_space c && is_any c && negb (in_range 28 31 c).

Definition blank (t : str) : bool := forallb blank_char t.

(** A written line and the whitespace that follows it. *)
Definition with_trail (lt : written_line * str) : str :=
  render_line (fst lt) ++ snd lt.

Definition trailed_text (lts : list (written_line * str)) : str :=
  join ["010"%char] (map with_trail lts).

(** The two dictionaries agree on a key up to whitespace after the
    value. *)
Definition same_but_trail (o o' : option str) : Prop :=
  match o, o' with
  | None, None => True
  | Some v, Some v' => exists t, blank t = true /\ v' = v ++ t
  | _, _ => False
  end.

(** The value of a parameter line, lengthened. *)
Definition value_app (p : param_line) (t : str) : param_line :=
  {| p_lead := p_lead p; p_key := p_key p; p_mid := p_mid p;
     p_gap := p_gap p; p_value := p_value p ++ t |}.

(** The dictionary has a value for the key, and [int] or [float] reads
    it. *)
Definition field_int (params : gmap str str) (key : str) (z : Z) : Prop :=
  exists v, params !! key = Some v /\ python_int v = Some z.

Definition field_float (params : gmap str str) (key : str) (f : float) : Prop :=
  exists v, params !! key = Some v /\ python_float v = Some f.

(** The six fields of a mesh as lines 70-75 read them from the
    dictionary. *)
Definition reads (params : gmap str str) (m : MeshData) : Prop :=
  field_int params (lit "x_count") (x_count m) /\
  field_int params (lit "y_count") (y_count m) /\
  field_float params (lit "min_x") (min_x m) /\
  field_float params (lit "max_x") (max_x m) /\
  field_float params (lit "min_y") (min_y m) /\
  field_float params (lit "max_y") (max_y m).

(** ** Further example inputs *)

(** The six parameters of the example and no row. *)
Definition no_rows_text : str :=
  join ["010"%char]
       [lit "#*# x_count = 2"; lit "#*# y_count = 2";
        lit "#*# min_x = 0"; lit "#*# max_x = 200";
        lit "#*# min_y = 0"; lit "#*# max_y = 200"].

(** The example inside a configuration file. *)
Definition example_config : str :=
  join ["010"%char]
       ([lit "[printer]"; lit "max_velocity = 300"; []]
          ++ map render_line example_lines ++ [[]]).

(** A file whose first row line goes on with a whole number, and the same
    file with that number written as a decimal. *)
Definition truncated_text : str :=
  join ["010"%char]
       [lit "#*# 1.5, 2, 3.5"; lit "#*# 1.0, 2.0, 3.0";
        lit "#*# x_count = 2"; lit "#*# y_count = 3";
        lit "#*# min_x = 0"; lit "#*# max_x = 200";
        lit "#*# min_y = 0"; lit "#*# max_y = 200"].

Definition untruncated_text : str :=
  join ["010"%char]
       [lit "#*# 1.5, 2.0, 3.5"; lit "#*# 1.0, 2.0, 3.0";
        lit "#*# x_count = 2"; lit "#*# y_count = 3";
        lit "#*# min_x = 0"; lit "#*# max_x = 200";
        lit "#*# min_y = 0"; lit "#*# max_y = 200"].

(** The example with the letter e-acute (code point 233) as the value of
    x_count. *)
Definition unprintable_text : str :=
  join ["010"%char]
       [lit "#*# 0.012, -0.034"; lit "#*# 1.001, 0.998";
        lit "#*# x_count = " ++ ["233"%char]; lit "#*# y_count = 2";
        lit "#*# min_x = 0"; lit "#*# max_x = 200";
        lit "#*# min_y = 0"; lit "#*# max_y = 200"].

(** A [sys.stdout] that writes every character, as with UTF-8, and one
    that writes ASCII only. *)
Definition utf8_stdout : ascii -> bool := fun _ => true.
Definition ascii_stdout : ascii -> bool := fun _ => false.

(** The example with a carriage return at the end of every line. *)
Definition example_crlf : list (written_line * str) :=
  map (fun l => (l, ["013"%char])) example_lines.

(** * Properties *)

Ltac all_chars c :=
  destruct c as [[|] [|] [|] [|] [|] [|] [|] [|]];
  vm_compute; intros; solve [reflexivity | discriminate | congruence | tauto].

(** ** Characters *)

Lemma space_not_word c : is_space c = true -> is_word c = false.
Proof. all_chars c. Qed.

Lemma word_not_space c : is_word c = true -> is_space c = false.
Proof. all_chars c. Qed.

Lemma digit_is_word c : is_digit c = true -> is_word c = true.
Proof. all_chars c. Qed.

Lemma digit_not_space c : is_digit c = true -> is_space c = false.
Proof. all_chars c. Qed.

Lemma space_not_digit c : is_space c = true -> is_digit c = false.
Proof. all_chars c. Qed.

Create HintDb chars discriminated.

#[local] Hint Resolve space_not_word word_not_space digit_is_word
  digit_not_space space_not_digit : chars.

Lemma is_char_eq a c : is_char a c = true <-> a = c.
Proof. unfold is_char. apply Ascii.eqb_eq. Qed.

Lemma is_char_neq a c : is_char a c = false <-> a <> c.
Proof. unfold is_char. apply Ascii.eqb_neq. Qed.

Lemma digit_not_char a c :
  is_digit a = false -> is_digit c = true -> is_char a c = false.
Proof.
  intros Ha Hc. apply is_char_neq. intros ->. congruence.
Qed.

Lemma space_not_char a c :
  is_space a = false -> is_space c = true -> is_char a c = false.
Proof.
  intros Ha Hc. apply is_char_neq. intros ->. congruence.
Qed.

Lemma word_not_char a c :
  is_word a = false -> is_word c = true -> is_char a c = false.
Proof.
  intros Ha Hc. apply is_char_neq. intros ->. congruence.
Qed.

(** ** Lists of matches *)

Lemma flat_map_nil {A B} (f : A -> list B) (l : list A) :
  (forall x, In x l -> f x = []) -> flat_map f l = [].
Proof.
  induction l as [|x l IH]; intros H; simpl; [reflexivity|].
  rewrite (H x) by (left; reflexivity). apply IH.
  intros y Hy. apply H. right. exact Hy.
Qed.

Lemma flat_map_ext_In {A B} (f g : A -> list B) (l : list A) :
  (forall x, In x l -> f x = g x) -> flat_map f l = flat_map g l.
Proof.
  induction l as [|x l IH]; intros H; simpl; [reflexivity|].
  rewrite (H x) by (left; reflexivity). f_equal. apply IH.
  intros y Hy. apply H. right. exact Hy.
Qed.

Lemma flat_map_flat_map {A B C} (f : A -> list B) (g : B -> list C) l :
  flat_map g (flat_map f l) = flat_map (fun x => flat_map g (f x)) l.
Proof.
  induction l as [|x l IH]; simpl; [reflexivity|].
  rewrite flat_map_app, IH. reflexivity.
Qed.

(** ** The matcher without its captures *)

Lemma map_snd_flat_map (f : mstate -> list mstate) (g : str -> list str)
  (l : list mstate) :
  (forall a b, map snd (f (a, b)) = g b) ->
  map snd (flat_map f l) = flat_map g (map snd l).
Proof.
  intros H. induction l as [|[a b] l IH]; simpl; [reflexivity|].
  rewrite map_app, IH, H. reflexivity.
Qed.

Lemma star_loop_rests step rstep :
  (forall c s, map snd (step (c, s)) = rstep s) ->
  forall fuel c s,
    map snd (star_loop step fuel (c, s)) = rstar_loop rstep fuel s.
Proof.
  intros Hstep. induction fuel as [|n IH]; intros c s;
    cbn [star_loop rstar_loop]; [reflexivity|].
  rewrite map_app. cbn [map snd]. f_equal.
  rewrite (map_snd_flat_map _
             (fun s' => if (length s' <? length s)%nat
                        then rstar_loop rstep n s' else [])).
  - rewrite Hstep. reflexivity.
  - intros a b. simpl. destruct (length b <? length s)%nat; [apply IH|reflexivity].
Qed.

Lemma ms_rests r : forall c s, map snd (ms r (c, s)) = rests r s.
Proof.
  induction r as [p|l|a IHa b IHb|a IHa|a IHa|a IHa|n a IHa]; intros c s; simpl.
  - destruct s as [|x t]; [reflexivity|]. destruct (p x); reflexivity.
  - destruct (starts_with l s); reflexivity.
  - rewrite (map_snd_flat_map _ (rests b)) by apply IHb.
    rewrite IHa. reflexivity.
  - rewrite map_app, IHa. reflexivity.
  - unfold star, rstar. simpl. apply star_loop_rests. exact IHa.
  - rewrite (map_snd_flat_map _ (rstar (rests a))).
    + rewrite IHa. reflexivity.
    + intros c' s'. unfold star, rstar. simpl. apply star_loop_rests. exact IHa.
  - rewrite map_map. simpl. apply IHa.
Qed.

Lemma ms_nil_rests r c s : ms r (c, s) = [] <-> rests r s = [].
Proof.
  rewrite <- (ms_rests r c s). split.
  - intros ->. reflexivity.
  - destruct (ms r (c, s)); [reflexivity|discriminate].
Qed.

Lemma ms_head_rests r c s st tl :
  ms r (c, s) = st :: tl -> exists tl', rests r s = snd st :: tl'.
Proof.
  intros H. rewrite <- (ms_rests r c s), H. simpl. eauto.
Qed.

(** Enough fuel: the repetition does not depend on it. *)
Lemma rstar_loop_fuel step : forall n m s,
  (length s <= n)%nat -> (length s <= m)%nat ->
  rstar_loop step n s = rstar_loop step m s.
Proof.
  induction n as [|n IH]; intros [|m] s Hn Hm; simpl; try reflexivity.
  - rewrite flat_map_nil; [reflexivity|].
    intros x _. destruct (Nat.ltb_spec (length x) (length s)); [lia|reflexivity].
  - rewrite flat_map_nil; [reflexivity|].
    intros x _. destruct (Nat.ltb_spec (length x) (length s)); [lia|reflexivity].
  - f_equal. apply flat_map_ext. intros x.
    destruct (Nat.ltb_spec (length x) (length s)); [|reflexivity].
    apply IH; lia.
Qed.

Lemma rstar_unfold step s :
  rstar step s =
  flat_map (fun s' => if (length s' <? length s)%nat then rstar step s' else [])
           (step s) ++ [s].
Proof.
  unfold rstar. destruct s as [|c t].
  - simpl. rewrite flat_map_nil; [reflexivity|]. intros x _. reflexivity.
  - change (length (c :: t)) with (S (length t)) at 1.
    cbn [rstar_loop]. f_equal. apply flat_map_ext. intros x.
    destruct (Nat.ltb_spec (length x) (length (c :: t))); [|reflexivity].
    apply rstar_loop_fuel; simpl in *; lia.
Qed.

Lemma rests_star_chr p s : rests (Star (Chr p)) s = backs p s.
Proof.
  induction s as [|c t IH]; simpl.
  - reflexivity.
  - change (rstar (rests (Chr p)) (c :: t) = if p c then backs p t ++ [c :: t] else [c :: t]).
    rewrite rstar_unfold. simpl. destruct (p c); simpl; [|reflexivity].
    rewrite (proj2 (Nat.ltb_lt (length t) (S (length t)))) by lia.
    rewrite app_nil_r. f_equal. exact IH.
Qed.

Lemma rests_plus_chr p s :
  rests (Plus (Chr p)) s =
  match s with
  | c :: t => if p c then backs p t else []
  | [] => []
  end.
Proof.
  simpl. destruct s as [|c t]; [reflexivity|].
  destruct (p c); simpl; [|reflexivity].
  rewrite app_nil_r. apply (rests_star_chr p t).
Qed.

Lemma backs_head p s : exists tl, backs p s = drop_while p s :: tl.
Proof.
  induction s as [|c t [tl IH]]; simpl; [eauto|].
  destruct (p c); [|eauto]. rewrite IH. simpl. eauto.
Qed.

(** What follows a repeated class cannot start inside the class: the
    repetition then takes the whole run. *)
Lemma flat_map_backs {B} (f : str -> list B) p s :
  (forall c t, p c = true -> f (c :: t) = []) ->
  flat_map f (backs p s) = f (drop_while p s).
Proof.
  intros Hf. induction s as [|c t IH]; simpl.
  - apply app_nil_r.
  - destruct (p c) eqn:Hc; simpl.
    + rewrite flat_map_app, IH. simpl. rewrite (Hf c t Hc), !app_nil_r. reflexivity.
    + apply app_nil_r.
Qed.

Lemma backs_length p s x : In x (backs p s) -> (length x <= length s)%nat.
Proof.
  revert x. induction s as [|c t IH]; intros x; simpl.
  - intros [<-|[]]. reflexivity.
  - destruct (p c).
    + rewrite in_app_iff. intros [H|[<-|[]]]; [apply IH in H; lia|reflexivity].
    + intros [<-|[]]. reflexivity.
Qed.

Lemma drop_while_length p s : (length (drop_while p s) <= length s)%nat.
Proof.
  induction s as [|c t IH]; simpl; [lia|]. destruct (p c); simpl; lia.
Qed.

Lemma drop_while_app p a b :
  forallb p a = true ->
  drop_while p (a ++ b) = drop_while p b.
Proof.
  induction a as [|c a IH]; simpl; [reflexivity|].
  destruct (p c); simpl; [exact IH|discriminate].
Qed.

Lemma drop_while_stop p s :
  match s with c :: _ => p c = false | [] => True end ->
  drop_while p s = s.
Proof.
  destruct s as [|c t]; simpl; [reflexivity|]. intros ->. reflexivity.
Qed.

Lemma drop_while_head p s :
  match drop_while p s with c :: _ => p c = false | [] => True end.
Proof.
  induction s as [|c t IH]; simpl; [exact I|].
  destruct (p c) eqn:Hc; [exact IH|exact Hc].
Qed.

Lemma drop_while_split p s :
  exists a, s = a ++ drop_while p s /\ forallb p a = true.
Proof.
  induction s as [|c t (a & Ha & Hp)]; simpl.
  - exists []. split; reflexivity.
  - destruct (p c) eqn:Hc.
    + exists (c :: a). simpl. rewrite Hc, Hp. split; [f_equal; exact Ha|reflexivity].
    + exists []. split; reflexivity.
Qed.

Lemma rests_seq a b s : rests (Seq a b) s = flat_map (rests b) (rests a s).
Proof. reflexivity. Qed.

Lemma rests_opt a s : rests (Opt a) s = rests a s ++ [s].
Proof. reflexivity. Qed.

Lemma rests_group n a s : rests (Group n a) s = rests a s.
Proof. reflexivity. Qed.

Lemma rests_chr p s :
  rests (Chr p) s = match s with c :: t => if p c then [t] else [] | [] => [] end.
Proof. reflexivity. Qed.

Lemma rests_lit l s :
  rests (Lit l) s = if starts_with l s then [skipn (length l) s] else [].
Proof. reflexivity. Qed.

Lemma rests_star a s :
  rests (Star a) s =
  flat_map (fun s' => if (length s' <? length s)%nat then rests (Star a) s' else [])
           (rests a s) ++ [s].
Proof. apply (rstar_unfold (rests a) s). Qed.

(** [Plus (Chr p)] followed by something that cannot start in the class. *)
Lemma rests_plus_chr_then p b s :
  (forall c t, p c = true -> rests b (c :: t) = []) ->
  rests (Seq (Plus (Chr p)) b) s =
  match s with
  | c :: t => if p c then rests b (drop_while p t) else []
  | [] => []
  end.
Proof.
  intros Hb. rewrite rests_seq, rests_plus_chr.
  destruct s as [|c t]; [reflexivity|].
  destruct (p c); [|reflexivity]. apply flat_map_backs. exact Hb.
Qed.

Lemma rests_star_chr_then p b s :
  (forall c t, p c = true -> rests b (c :: t) = []) ->
  rests (Seq (Star (Chr p)) b) s = rests b (drop_while p s).
Proof.
  intros Hb. rewrite rests_seq, rests_star_chr. apply flat_map_backs. exact Hb.
Qed.

(** ** The number pattern *)

Lemma minus_not_digit c : is_char "-" c = true -> is_digit c = false.
Proof. all_chars c. Qed.

Lemma dot_not_digit c : is_char "." c = true -> is_digit c = false.
Proof. all_chars c. Qed.

Lemma comma_not_digit c : is_char "," c = true -> is_digit c = false.
Proof. all_chars c. Qed.

Lemma minus_not_space c : is_char "-" c = true -> is_space c = false.
Proof. all_chars c. Qed.

Lemma rests_unsigned_number s :
  rests unsigned_number s =
  match unsigned_tail s with
  | Some v => backs is_digit v
  | None => []
  end.
Proof.
  unfold unsigned_number, unsigned_tail. rewrite rests_plus_chr_then.
  - destruct s as [|c t]; [reflexivity|].
    destruct (is_digit c); [|reflexivity].
    rewrite rests_seq, rests_chr.
    destruct (drop_while is_digit t) as [|d [|e v]]; [reflexivity| |].
    + destruct (is_char "." d); reflexivity.
    + destruct (is_char "." d); [|reflexivity].
      cbn [flat_map andb]. rewrite app_nil_r, rests_plus_chr.
      destruct (is_digit e); reflexivity.
  - intros c t Hc. rewrite rests_seq, rests_chr.
    destruct (is_char "." c) eqn:E; [|reflexivity].
    apply dot_not_digit in E. congruence.
Qed.

Lemma unsigned_tail_minus c t : is_char "-" c = true -> unsigned_tail (c :: t) = None.
Proof.
  intros E. unfold unsigned_tail. rewrite (minus_not_digit c E). reflexivity.
Qed.

Lemma rests_number s :
  rests number s =
  match num_tail s with
  | Some v => backs is_digit v
  | None => []
  end.
Proof.
  change number with (Seq (Opt (Chr (is_char "-"))) unsigned_number).
  rewrite rests_seq, rests_opt, rests_chr, flat_map_app.
  cbn [flat_map]. rewrite app_nil_r.
  unfold num_tail, strip_minus. destruct s as [|c t].
  - reflexivity.
  - destruct (is_char "-" c) eqn:E.
    + cbn [flat_map]. rewrite app_nil_r.
      rewrite (rests_unsigned_number (c :: t)), (unsigned_tail_minus c t E).
      rewrite app_nil_r. apply rests_unsigned_number.
    + cbn [flat_map app]. apply rests_unsigned_number.
Qed.

Lemma rests_number_head s :
  hd_error (rests number s) = num_end s.
Proof.
  rewrite rests_number. unfold num_end.
  destruct (num_tail s) as [v|]; [|reflexivity].
  destruct (backs_head is_digit v) as [tl ->]. reflexivity.
Qed.

Lemma rests_number_nil s : rests number s = [] <-> num_end s = None.
Proof.
  rewrite <- rests_number_head.
  destruct (rests number s); simpl; split; congruence.
Qed.

(** A number followed by something that cannot start with a digit: the
    longest number. *)
Lemma rests_number_then b s :
  (forall c t, is_digit c = true -> rests b (c :: t) = []) ->
  rests (Seq number b) s =
  match num_end s with
  | Some r => rests b r
  | None => []
  end.
Proof.
  intros Hb. rewrite rests_seq, rests_number. unfold num_end.
  destruct (num_tail s) as [v|]; [|reflexivity].
  apply flat_map_backs. exact Hb.
Qed.

Lemma unsigned_tail_length s v :
  unsigned_tail s = Some v -> (length v < length s)%nat.
Proof.
  unfold unsigned_tail. destruct s as [|c t]; [discriminate|].
  destruct (is_digit c); [|discriminate].
  pose proof (drop_while_length is_digit t) as Hl.
  destruct (drop_while is_digit t) as [|d [|e w]]; try discriminate.
  destruct (is_char "." d && is_digit e); [|discriminate].
  intros [= <-]. simpl in *. lia.
Qed.

Lemma strip_minus_length s : (length (strip_minus s) <= length s)%nat.
Proof.
  destruct s as [|c t]; [reflexivity|]. unfold strip_minus.
  destruct (is_char "-" c); cbn [length]; lia.
Qed.

Lemma num_tail_length s v : num_tail s = Some v -> (length v < length s)%nat.
Proof.
  unfold num_tail. intros H. apply unsigned_tail_length in H.
  pose proof (strip_minus_length s). lia.
Qed.

Lemma num_end_length s r : num_end s = Some r -> (length r < length s)%nat.
Proof.
  unfold num_end. destruct (num_tail s) as [v|] eqn:E; [|discriminate].
  intros [= <-]. apply num_tail_length in E.
  pose proof (drop_while_length is_digit v). lia.
Qed.

Lemma num_end_space c t : is_space c = true -> num_end (c :: t) = None.
Proof.
  intros Hc. unfold num_end, num_tail, strip_minus, unsigned_tail.
  destruct (is_char "-" c) eqn:E.
  - apply minus_not_space in E. congruence.
  - rewrite (space_not_digit c Hc). reflexivity.
Qed.

(** ** The point pattern *)

Lemma point_regex_eq :
  point_regex = Seq (Lit marker) (Seq (Plus (Chr is_space)) numbers).
Proof. reflexivity. Qed.

Lemma rests_point_group s :
  rests point_group s =
  match num_end s with
  | Some (c :: t) => if is_char "," c then backs is_space t else []
  | _ => []
  end.
Proof.
  unfold point_group. rewrite rests_group, rests_number_then.
  - destruct (num_end s) as [[|c t]|]; try reflexivity.
    rewrite rests_seq, rests_chr. destruct (is_char "," c); [|reflexivity].
    cbn [flat_map]. rewrite app_nil_r. apply rests_star_chr.
  - intros c t Hc. rewrite rests_seq, rests_chr.
    destruct (is_char "," c) eqn:E; [|reflexivity].
    apply comma_not_digit in E. congruence.
Qed.

Lemma rests_point_group_length s x :
  In x (rests point_group s) -> (length x < length s)%nat.
Proof.
  rewrite rests_point_group.
  destruct (num_end s) as [[|c t]|] eqn:E; try (intros []).
  destruct (is_char "," c); [|intros []].
  intros Hx. apply backs_length in Hx. apply num_end_length in E.
  simpl in E. lia.
Qed.

Lemma rests_numbers_space c t :
  is_space c = true -> rests numbers (c :: t) = [].
Proof.
  intros Hc. unfold numbers. rewrite rests_seq, rests_star.
  rewrite rests_point_group, (num_end_space c t Hc).
  cbn [flat_map app]. rewrite app_nil_r.
  apply rests_number_nil. apply num_end_space. exact Hc.
Qed.

(** One more group first, the last number second. *)
Lemma rests_numbers s :
  rests numbers s =
  match num_end s with
  | Some (c :: t) =>
      if is_char "," c then rests numbers (drop_while is_space t) else []
  | _ => []
  end ++ rests number s.
Proof.
  unfold numbers at 1. rewrite rests_seq, rests_star, flat_map_app.
  cbn [flat_map]. rewrite app_nil_r. f_equal.
  rewrite flat_map_flat_map.
  rewrite (flat_map_ext_In _ (rests numbers)).
  - rewrite rests_point_group.
    destruct (num_end s) as [[|c t]|]; try reflexivity.
    destruct (is_char "," c); [|reflexivity].
    apply flat_map_backs. apply rests_numbers_space.
  - intros x Hx. apply rests_point_group_length in Hx.
    rewrite (proj2 (Nat.ltb_lt _ _) Hx). reflexivity.
Qed.

Lemma hd_error_app {A} (a b : list A) :
  hd_error (a ++ b) =
  match hd_error a with Some x => Some x | None => hd_error b end.
Proof. destruct a; reflexivity. Qed.

Lemma first_end_eq s :
  first_end s =
  match num_end s with
  | None => None
  | Some r =>
      match r with
      | c :: t =>
          if is_char "," c
          then match first_end (drop_while is_space t) with
               | Some e => Some e
               | None => Some r
               end
          else Some r
      | [] => Some r
      end
  end.
Proof.
  unfold first_end at 1. rewrite rests_numbers, hd_error_app, rests_number_head.
  destruct (num_end s) as [[|c t]|]; try reflexivity.
  destruct (is_char "," c); reflexivity.
Qed.

Lemma rests_point_regex s :
  rests point_regex s =
  if starts_with marker s
  then match skipn (length marker) s with
       | c :: t => if is_space c then rests numbers (drop_while is_space t) else []
       | [] => []
       end
  else [].
Proof.
  rewrite point_regex_eq, rests_seq, rests_lit.
  destruct (starts_with marker s); [|reflexivity].
  cbn [flat_map]. rewrite app_nil_r.
  apply rests_plus_chr_then. apply rests_numbers_space.
Qed.

(** ** Written numbers and the scan *)

Lemma digits_inv s :
  digits s = true -> exists c t, s = c :: t /\ is_digit c = true /\ forallb is_digit t = true.
Proof.
  destruct s as [|c t]; [discriminate|]. simpl.
  intros H. apply andb_prop in H. destruct H. eauto.
Qed.

Lemma unsigned_tail_render c a e b r :
  is_digit c = true -> forallb is_digit a = true -> is_digit e = true ->
  unsigned_tail (c :: a ++ "."%char :: e :: b ++ r) = Some (b ++ r).
Proof.
  intros Hc Ha He. unfold unsigned_tail.
  rewrite Hc, (drop_while_app is_digit a) by exact Ha.
  cbn [drop_while]. change (is_digit ".") with false. cbv iota.
  change (is_char "." ".") with true. rewrite He. reflexivity.
Qed.

Lemma strip_minus_digit c t : is_digit c = true -> strip_minus (c :: t) = c :: t.
Proof.
  intros Hc. unfold strip_minus.
  destruct (is_char "-" c) eqn:E; [|reflexivity].
  apply minus_not_digit in E. congruence.
Qed.

Lemma num_end_render d r :
  wf_decimal d = true -> not_digit_next r ->
  num_end (render_decimal d ++ r) = Some r.
Proof.
  unfold wf_decimal. intros Hd Hr. apply andb_prop in Hd. destruct Hd as [Hi Hf].
  apply digits_inv in Hi. destruct Hi as (c & a & Ei & Hc & Ha).
  apply digits_inv in Hf. destruct Hf as (e & b & Ef & He & Hb).
  assert (num_tail (render_decimal d ++ r) = Some (b ++ r)) as Ht.
  { unfold render_decimal, num_tail. rewrite Ei, Ef.
    assert (((c :: a) ++ "."%char :: e :: b) ++ r
            = c :: a ++ "."%char :: e :: b ++ r) as Eq
      by (cbn [app]; rewrite <- app_assoc; reflexivity).
    destruct (d_neg d).
    - rewrite <- app_assoc, Eq.
      change (strip_minus (["-"%char] ++ c :: a ++ "."%char :: e :: b ++ r))
        with (c :: a ++ "."%char :: e :: b ++ r).
      apply unsigned_tail_render; assumption.
    - rewrite app_nil_l, Eq, strip_minus_digit by exact Hc.
      apply unsigned_tail_render; assumption. }
  unfold num_end. rewrite Ht. simpl. f_equal.
  rewrite drop_while_app by exact Hb. apply drop_while_stop.
  destruct r; [exact I|exact Hr].
Qed.

Lemma unsigned_tail_inv s v :
  unsigned_tail s = Some v ->
  exists c a e b,
    is_digit c = true /\ forallb is_digit a = true /\
    is_digit e = true /\ forallb is_digit b = true /\
    s = c :: a ++ "."%char :: e :: b ++ drop_while is_digit v.
Proof.
  unfold unsigned_tail. destruct s as [|c t]; [discriminate|].
  destruct (is_digit c) eqn:Hc; [|discriminate].
  destruct (drop_while_split is_digit t) as (a & Ha & Hpa).
  destruct (drop_while is_digit t) as [|d [|e u]]; try discriminate.
  destruct (is_char "." d) eqn:Ed; [|discriminate].
  destruct (is_digit e) eqn:He; [|discriminate].
  simpl. intros [= <-]. apply is_char_eq in Ed. subst d.
  destruct (drop_while_split is_digit u) as (b & Hb & Hpb).
  exists c, a, e, b. repeat split; try assumption.
  rewrite Ha at 1. rewrite Hb at 1. reflexivity.
Qed.

Lemma num_end_inv s r :
  num_end s = Some r ->
  exists d, wf_decimal d = true /\ s = render_decimal d ++ r /\ not_digit_next r.
Proof.
  unfold num_end. destruct (num_tail s) as [v|] eqn:E; [|discriminate].
  intros [= <-].
  pose proof (drop_while_head is_digit v) as Hnext.
  unfold num_tail in E. apply unsigned_tail_inv in E.
  destruct E as (c & a & e & b & Hc & Ha & He & Hb & Eq).
  unfold strip_minus in Eq. destruct s as [|c0 t]; [discriminate|].
  destruct (is_char "-" c0) eqn:Em.
  - exists {| d_neg := true; d_int := c :: a; d_frac := e :: b |}.
    split; [|split].
    + unfold wf_decimal. simpl. rewrite Hc, Ha, He, Hb. reflexivity.
    + apply is_char_eq in Em. subst c0. rewrite Eq. unfold render_decimal.
      cbn [d_neg d_int d_frac]. rewrite <- !app_assoc. reflexivity.
    + exact Hnext.
  - exists {| d_neg := false; d_int := c :: a; d_frac := e :: b |}.
    split; [|split].
    + unfold wf_decimal. simpl. rewrite Hc, Ha, He, Hb. reflexivity.
    + rewrite Eq. unfold render_decimal.
      cbn [d_neg d_int d_frac]. rewrite <- !app_assoc. reflexivity.
    + exact Hnext.
Qed.

(** ** Matches of the point pattern *)

Lemma matches_false r s : matches r s = false <-> rests r s = [].
Proof.
  unfold matches. rewrite <- (ms_nil_rests r [] s).
  destruct (ms r ([], s)); split; congruence.
Qed.

Lemma rests_number_space c t : is_space c = true -> rests number (c :: t) = [].
Proof. intros Hc. apply rests_number_nil, num_end_space, Hc. Qed.

Lemma rests_continuation s :
  rests continuation s =
  match s with
  | c :: t => if is_char "," c then rests number (drop_while is_space t) else []
  | [] => []
  end.
Proof.
  unfold continuation. rewrite rests_seq, rests_chr.
  destruct s as [|c t]; [reflexivity|].
  destruct (is_char "," c); [|reflexivity].
  cbn [flat_map]. rewrite app_nil_r.
  apply rests_star_chr_then. apply rests_number_space.
Qed.

Lemma ends_run_spec t :
  ends_run t = true <->
  not_digit_next t /\
  match t with
  | c :: u => is_char "," c = true -> num_end (drop_while is_space u) = None
  | [] => True
  end.
Proof. clear stdout_encodes.
  unfold ends_run. rewrite andb_true_iff, !negb_true_iff, !matches_false.
  rewrite rests_continuation, rests_chr.
  destruct t as [|c u]; [simpl; tauto|]. cbn [not_digit_next].
  destruct (is_digit c); destruct (is_char "," c);
    rewrite ?rests_number_nil; intuition congruence.
Qed.

Lemma first_end_none s : num_end s = None -> first_end s = None.
Proof. intros H. rewrite first_end_eq, H. reflexivity. Qed.

Lemma render_decimal_head d :
  wf_decimal d = true ->
  exists c t, render_decimal d = c :: t /\ is_space c = false /\ is_digit c || is_char "-" c = true.
Proof.
  unfold wf_decimal, render_decimal. intros H. apply andb_prop in H.
  destruct H as [Hi _]. apply digits_inv in Hi. destruct Hi as (c & a & -> & Hc & _).
  destruct (d_neg d); simpl.
  - eexists _, _. split; [reflexivity|]. split; [reflexivity|]. apply orb_true_r.
  - eexists _, _. split; [reflexivity|]. split; [apply digit_not_space, Hc|].
    rewrite Hc. reflexivity.
Qed.

Lemma drop_while_space_render w d rest :
  spaces w = true -> wf_decimal d = true ->
  drop_while is_space (w ++ render_decimal d ++ rest) = render_decimal d ++ rest.
Proof.
  intros Hw Hd. rewrite drop_while_app by exact Hw.
  destruct (render_decimal_head d Hd) as (c & t & -> & Hc & _).
  simpl. rewrite Hc. reflexivity.
Qed.

(** The first match of [numbers] on a written run takes the whole run when
    what follows ends it. *)
Lemma first_end_render more : forall first t,
  wf_decimal first = true -> wf_more more = true -> ends_run t = true ->
  first_end (render_numbers first more ++ t) = Some t.
Proof.
  induction more as [|[w d] more IH]; intros first t Hf Hm Ht.
  - unfold render_numbers. cbn [render_more]. rewrite app_nil_r.
    apply ends_run_spec in Ht. destruct Ht as [Hd Hc].
    rewrite first_end_eq, (num_end_render first t Hf Hd).
    destruct t as [|c u]; [reflexivity|].
    destruct (is_char "," c) eqn:E; [|reflexivity].
    rewrite (first_end_none _ (Hc eq_refl)). reflexivity.
  - cbn [wf_more forallb fst snd] in Hm.
    apply andb_prop in Hm. destruct Hm as [Hwd Hm].
    apply andb_prop in Hwd. destruct Hwd as [Hw Hd].
    unfold render_numbers. cbn [render_more].
    rewrite <- app_assoc. cbn [app].
    rewrite first_end_eq, num_end_render; [|exact Hf|reflexivity].
    change (is_char "," ",") with true. cbv iota.
    rewrite <- !app_assoc, drop_while_space_render by assumption.
    rewrite app_assoc.
    change (render_decimal d ++ render_more more) with (render_numbers d more).
    rewrite (IH d t Hd Hm Ht). reflexivity.
Qed.

(** Every first match of [numbers] is a written run, and what follows it
    ends the run. *)
Lemma first_end_inv : forall n s e,
  (length s <= n)%nat -> first_end s = Some e ->
  exists first more,
    wf_decimal first = true /\ wf_more more = true /\
    s = render_numbers first more ++ e /\ ends_run e = true.
Proof.
  induction n as [|n IH]; intros s e Hn H.
  - destruct s; [|simpl in Hn; lia]. rewrite first_end_eq in H. discriminate.
  - rewrite first_end_eq in H.
    destruct (num_end s) as [r|] eqn:Er; [|discriminate].
    pose proof (num_end_length s r Er) as Hlen.
    apply num_end_inv in Er. destruct Er as (d & Hd & -> & Hr).
    assert (forall c u, r = c :: u ->
              (is_char "," c = true -> num_end (drop_while is_space u) = None) ->
              exists first more,
                wf_decimal first = true /\ wf_more more = true /\
                render_decimal d ++ r = render_numbers first more ++ r /\
                ends_run r = true) as Hstop.
    { intros c u -> Hc. exists d, []. repeat split; try assumption.
      - unfold render_numbers. cbn [render_more]. rewrite app_nil_r. reflexivity.
      - apply ends_run_spec. split; assumption. }
    destruct r as [|c u].
    + injection H as <-. exists d, []. repeat split; try assumption.
      unfold render_numbers. cbn [render_more]. rewrite !app_nil_r. reflexivity.
    + destruct (is_char "," c) eqn:Ec.
      * destruct (first_end (drop_while is_space u)) as [e'|] eqn:Ee.
        -- injection H as <-.
           destruct (drop_while_split is_space u) as (w & Hu & Hw).
           apply IH in Ee.
           ++ destruct Ee as (first & more & Hf & Hm & Eq & He).
              exists d, ((w, first) :: more). repeat split; try assumption.
              ** cbn [wf_more forallb fst snd]. fold (wf_more more).
                 unfold spaces. rewrite Hw, Hf, Hm. reflexivity.
              ** apply is_char_eq in Ec. subst c. rewrite Hu, Eq.
                 unfold render_numbers. cbn [render_more].
                 rewrite <- !app_assoc. cbn [app].
                 rewrite <- !app_assoc. reflexivity.
           ++ pose proof (drop_while_length is_space u). simpl in Hlen. lia.
        -- injection H as <-. apply (Hstop c u eq_refl). intros _.
           rewrite first_end_eq in Ee.
           destruct (num_end (drop_while is_space u)) as [[|c' u']|]; try discriminate; [|reflexivity].
           destruct (is_char "," c'); [|discriminate].
           destruct (first_end (drop_while is_space u')); discriminate.
      * injection H as <-. apply (Hstop c u eq_refl). congruence.
Qed.

Lemma starts_with_inv p s :
  starts_with p s = true -> s = p ++ skipn (length p) s.
Proof.
  revert s. induction p as [|a p IH]; intros s; simpl; [reflexivity|].
  destruct s as [|c s]; [discriminate|]. intros H. apply andb_prop in H.
  destruct H as [Hc Hp]. apply Ascii.eqb_eq in Hc. subst c.
  simpl. f_equal. apply IH. exact Hp.
Qed.

Lemma starts_with_app p s : starts_with p (p ++ s) = true.
Proof.
  induction p as [|a p IH]; simpl; [reflexivity|].
  rewrite Ascii.eqb_refl. exact IH.
Qed.

Lemma skipn_length_app {A} (p s : list A) : skipn (length p) (p ++ s) = s.
Proof. induction p; simpl; auto. Qed.

Lemma wf_row_inv r :
  wf_row r = true ->
  exists c w, r_lead r = c :: w /\ is_space c = true /\ spaces w = true /\
              wf_decimal (r_first r) = true /\ wf_more (r_more r) = true.
Proof.
  unfold wf_row. intros H. apply andb_prop in H. destruct H as [H Hm].
  apply andb_prop in H. destruct H as [Hl Hf].
  destruct (r_lead r) as [|c w]; [discriminate|].
  simpl in Hl. apply andb_prop in Hl. destruct Hl.
  exists c, w. auto.
Qed.

(** On a written row the pattern matches the row, whatever ends the run
    after it. *)
Lemma point_end_render r t :
  wf_row r = true -> ends_run t = true ->
  hd_error (rests point_regex (render_row r ++ t)) = Some t.
Proof.
  intros Hr Ht. destruct (wf_row_inv r Hr) as (c & w & El & Hc & Hw & Hf & Hm).
  rewrite rests_point_regex. unfold render_row.
  rewrite <- app_assoc, starts_with_app, skipn_length_app.
  rewrite El. cbn [app]. rewrite Hc. unfold render_numbers.
  rewrite <- !app_assoc, drop_while_space_render by assumption.
  rewrite app_assoc. apply (first_end_render (r_more r)); assumption.
Qed.

(** Every match of the pattern is a written row, and what follows the match
    ends the run. *)
Lemma point_end_inv s e :
  hd_error (rests point_regex s) = Some e ->
  exists r, wf_row r = true /\ s = render_row r ++ e /\ ends_run e = true.
Proof.
  rewrite rests_point_regex. destruct (starts_with marker s) eqn:Em; [|discriminate].
  apply starts_with_inv in Em.
  destruct (skipn (length marker) s) as [|c t]; [discriminate|].
  destruct (is_space c) eqn:Hc; [|discriminate].
  intros H. destruct (drop_while_split is_space t) as (w & Ht & Hw).
  apply (first_end_inv _ _ _ (Nat.le_refl _)) in H.
  destruct H as (first & more & Hf & Hm & Eq & He).
  exists {| r_lead := c :: w; r_first := first; r_more := more |}.
  split; [|split].
  - unfold wf_row. cbn [r_lead r_first r_more spaces forallb].
    unfold spaces in Hw. rewrite Hc, Hw, Hf, Hm. reflexivity.
  - rewrite Em at 1. unfold render_row. cbn [r_lead r_first r_more].
    rewrite Ht, Eq, <- !app_assoc. reflexivity.
  - exact He.
Qed.

(** ** [search] *)

Lemma search_eq r s :
  search r s =
  match ms r ([], s) with
  | (caps, rest) :: _ => Some {| group0 := consumed s rest; captures := caps |}
  | [] => match s with _ :: t => search r t | [] => None end
  end.
Proof. destruct s; reflexivity. Qed.

Lemma search_here r s e :
  hd_error (rests r s) = Some e ->
  exists caps, search r s = Some {| group0 := consumed s e; captures := caps |}.
Proof.
  rewrite <- (ms_rests r [] s), search_eq.
  destruct (ms r ([], s)) as [|[caps rest] tl]; [discriminate|].
  simpl. intros [= <-]. eauto.
Qed.

Lemma search_skip r c t : rests r (c :: t) = [] -> search r (c :: t) = search r t.
Proof.
  intros H. apply (ms_nil_rests r []) in H. rewrite search_eq, H. reflexivity.
Qed.

Lemma search_nil r : rests r [] = [] -> search r [] = None.
Proof.
  intros H. apply (ms_nil_rests r []) in H. rewrite search_eq, H. reflexivity.
Qed.

Lemma consumed_app (a e : str) : consumed (a ++ e) e = a.
Proof.
  unfold consumed. rewrite length_app.
  replace (length a + length e - length e)%nat with (length a) by lia.
  rewrite firstn_app, Nat.sub_diag, firstn_all. simpl. apply app_nil_r.
Qed.

Lemma search_point_render r t :
  wf_row r = true -> ends_run t = true ->
  exists caps,
    search point_regex (render_row r ++ t)
    = Some {| group0 := render_row r; captures := caps |}.
Proof.
  intros Hr Ht. destruct (search_here _ _ _ (point_end_render r t Hr Ht)) as [caps H].
  exists caps. rewrite H, consumed_app. reflexivity.
Qed.

(** A match found by [search] is the first match at some position. *)
Lemma search_found r s m :
  search r s = Some m ->
  exists pre suf e,
    s = pre ++ suf /\ hd_error (rests r suf) = Some e /\
    group0 m = consumed suf e.
Proof.
  assert (forall u, ms r ([], u) <> [] \/ ms r ([], u) = []) as Hdec
    by (intros u; destruct (ms r ([], u)); [right; reflexivity|left; discriminate]).
  assert (forall u caps rest tl,
            ms r ([], u) = (caps, rest) :: tl ->
            hd_error (rests r u) = Some rest) as Hhead.
  { intros u caps rest tl E. destruct (ms_head_rests _ _ _ _ _ E) as [tl' ->].
    reflexivity. }
  induction s as [|c t IH]; rewrite search_eq.
  - destruct (ms r ([], [])) as [|[caps rest] tl] eqn:E; [discriminate|].
    intros [= <-]. exists [], [], rest. repeat split.
    apply (Hhead _ _ _ _ E).
  - destruct (ms r ([], c :: t)) as [|[caps rest] tl] eqn:E.
    + intros H. apply IH in H. destruct H as (pre & suf & e & -> & He & Hg).
      exists (c :: pre), suf, e. repeat split; assumption.
    + intros [= <-]. exists [], (c :: t), rest. repeat split.
      apply (Hhead _ _ _ _ E).
Qed.

Lemma search_point_inv s m :
  search point_regex s = Some m ->
  exists r, wf_row r = true /\ group0 m = render_row r.
Proof.
  intros H. apply search_found in H. destruct H as (pre & suf & e & _ & He & Hg).
  apply point_end_inv in He. destruct He as (r & Hr & -> & _).
  exists r. split; [exact Hr|]. rewrite Hg. apply consumed_app.
Qed.

(** ** From the matched text to the row of floats *)

Lemma row_char_not_hash c : row_char c = true -> c <> "#"%char.
Proof. all_chars c. Qed.

Lemma number_char_row c : number_char c = true -> row_char c = true.
Proof. all_chars c. Qed.

Lemma space_row c : is_space c = true -> row_char c = true.
Proof. all_chars c. Qed.

Lemma number_char_not_comma c : number_char c = true -> c <> ","%char.
Proof. all_chars c. Qed.

Lemma space_not_comma c : is_space c = true -> c <> ","%char.
Proof. all_chars c. Qed.

Lemma digit_number_char c : is_digit c = true -> number_char c = true.
Proof. all_chars c. Qed.

Lemma forallb_impl (p q : ascii -> bool) (s : str) :
  (forall c, p c = true -> q c = true) -> forallb p s = true -> forallb q s = true.
Proof.
  intros H. induction s as [|c t IH]; simpl; [reflexivity|].
  intros Hs. apply andb_prop in Hs. destruct Hs as [Hc Ht].
  rewrite (H c Hc), (IH Ht). reflexivity.
Qed.

Lemma digits_forallb s : digits s = true -> forallb is_digit s = true.
Proof. destruct s; [discriminate|]. intros H. exact H. Qed.

Lemma render_decimal_chars d :
  wf_decimal d = true -> forallb number_char (render_decimal d) = true.
Proof.
  unfold wf_decimal, render_decimal. intros H. apply andb_prop in H.
  destruct H as [Hi Hf]. apply digits_forallb in Hi, Hf.
  rewrite !forallb_app. cbn [forallb].
  rewrite (forallb_impl _ _ _ digit_number_char Hi).
  rewrite (forallb_impl _ _ _ digit_number_char Hf).
  destruct (d_neg d); reflexivity.
Qed.

Lemma forallb_not_In (p : ascii -> bool) (x : ascii) (s : str) :
  (forall c, p c = true -> c <> x) -> forallb p s = true -> ~ In x s.
Proof.
  intros H Hs Hin. rewrite forallb_forall in Hs. apply (H x (Hs x Hin)). reflexivity.
Qed.

Lemma render_more_chars more :
  wf_more more = true -> forallb row_char (render_more more) = true.
Proof.
  induction more as [|[w d] more IH]; [reflexivity|].
  cbn [wf_more forallb fst snd render_more]. intros H.
  apply andb_prop in H. destruct H as [Hwd Hm].
  apply andb_prop in Hwd. destruct Hwd as [Hw Hd].
  rewrite !forallb_app.
  rewrite (forallb_impl _ _ _ space_row Hw).
  rewrite (forallb_impl _ _ _ number_char_row (render_decimal_chars d Hd)).
  rewrite (IH Hm). reflexivity.
Qed.

Lemma row_chars r :
  wf_row r = true ->
  forallb row_char (r_lead r ++ render_numbers (r_first r) (r_more r)) = true.
Proof.
  intros Hr. destruct (wf_row_inv r Hr) as (c & w & El & Hc & Hw & Hf & Hm).
  unfold render_numbers. rewrite !forallb_app, El. cbn [forallb].
  rewrite (space_row c Hc), (forallb_impl _ _ _ space_row Hw).
  rewrite (forallb_impl _ _ _ number_char_row (render_decimal_chars _ Hf)).
  rewrite (render_more_chars _ Hm). reflexivity.
Qed.

(** [replace] *)

Lemma starts_with_marker_hash c t : starts_with marker (c :: t) = true -> c = "#"%char.
Proof.
  change marker with ["#"%char; "*"%char; "#"%char]. cbn [starts_with].
  intros H. apply andb_prop in H. destruct H as [H _].
  apply Ascii.eqb_eq in H. auto.
Qed.

Lemma replace_from_no_hash s :
  ~ In "#"%char s -> replace_from marker [] 0 s = s.
Proof.
  induction s as [|c t IH]; intros H; [reflexivity|].
  cbn [replace_from].
  destruct (starts_with marker (c :: t)) eqn:E.
  - apply starts_with_marker_hash in E. subst c. exfalso. apply H. left. reflexivity.
  - f_equal. apply IH. intros Hin. apply H. right. exact Hin.
Qed.

Lemma replace_marker s :
  ~ In "#"%char s -> replace marker [] (marker ++ s) = s.
Proof.
  intros H. unfold replace.
  change (marker ++ s) with ("#"%char :: "*"%char :: "#"%char :: s).
  cbn [replace_from].
  change ("#"%char :: "*"%char :: "#"%char :: s) with (marker ++ s).
  rewrite starts_with_app. cbn [app length marker lit list_ascii_of_string Nat.sub].
  apply replace_from_no_hash. exact H.
Qed.

(** [split] *)

Lemma split_no_sep sep a : ~ In sep a -> split sep a = [a].
Proof.
  induction a as [|c a IH]; intros H; [reflexivity|].
  cbn [split]. destruct (Ascii.eqb sep c) eqn:E.
  - apply Ascii.eqb_eq in E. subst c. exfalso. apply H. left. reflexivity.
  - rewrite IH; [reflexivity|]. intros Hin. apply H. right. exact Hin.
Qed.

Lemma split_app sep a b :
  ~ In sep a -> split sep (a ++ sep :: b) = a :: split sep b.
Proof.
  induction a as [|c a IH]; intros H.
  - cbn [app split]. rewrite Ascii.eqb_refl. reflexivity.
  - cbn [app split]. destruct (Ascii.eqb sep c) eqn:E.
    + apply Ascii.eqb_eq in E. subst c. exfalso. apply H. left. reflexivity.
    + rewrite IH; [reflexivity|]. intros Hin. apply H. right. exact Hin.
Qed.

Lemma split_render_more more : forall a,
  wf_more more = true -> ~ In ","%char a ->
  split "," (a ++ render_more more) = a :: map piece more.
Proof.
  induction more as [|[w d] more IH]; intros a Hm Ha.
  - cbn [render_more map]. rewrite app_nil_r. apply split_no_sep. exact Ha.
  - cbn [wf_more forallb fst snd] in Hm.
    apply andb_prop in Hm. destruct Hm as [Hwd Hm].
    apply andb_prop in Hwd. destruct Hwd as [Hw Hd].
    cbn [render_more map]. rewrite split_app by exact Ha. f_equal.
    rewrite app_assoc. apply IH; [exact Hm|].
    intros Hin. apply in_app_or in Hin. destruct Hin as [Hin|Hin].
    + revert Hin. apply (forallb_not_In is_space); [apply space_not_comma|exact Hw].
    + revert Hin. apply (forallb_not_In number_char);
        [apply number_char_not_comma|apply render_decimal_chars; exact Hd].
Qed.

(** [strip] *)

Lemma rstrip_keep a c : is_space c = false -> rstrip (a ++ [c]) = a ++ [c].
Proof.
  intros Hc. unfold rstrip. rewrite rev_app_distr. cbn [rev app drop_while].
  rewrite Hc. cbn [rev]. rewrite rev_involutive. reflexivity.
Qed.

Lemma render_decimal_last d :
  wf_decimal d = true ->
  exists a c, render_decimal d = a ++ [c] /\ is_space c = false.
Proof.
  unfold wf_decimal, render_decimal. intros H. apply andb_prop in H.
  destruct H as [_ Hf]. pose proof (digits_forallb _ Hf) as Hall.
  destruct (d_frac d) as [|e b _] using rev_ind; [discriminate|].
  exists ((if d_neg d then ["-"%char] else []) ++ d_int d ++ "."%char :: b), e.
  split.
  - rewrite <- !app_assoc. reflexivity.
  - rewrite forallb_app in Hall. apply andb_prop in Hall. destruct Hall as [_ Hb].
    cbn [forallb] in Hb. apply andb_prop in Hb. destruct Hb as [Hb _].
    auto with chars.
Qed.

Lemma strip_render w d :
  spaces w = true -> wf_decimal d = true ->
  strip (w ++ render_decimal d) = render_decimal d.
Proof.
  intros Hw Hd. unfold strip, lstrip.
  rewrite <- (app_nil_r (render_decimal d)) at 1.
  rewrite drop_while_space_render by assumption. rewrite app_nil_r.
  destruct (render_decimal_last d Hd) as (a & c & -> & Hc).
  apply rstrip_keep. exact Hc.
Qed.

Lemma number_space_is_space c : is_number_space c = true -> is_space c = true.
Proof. all_chars c. Qed.

Lemma not_number_space c : is_space c = false -> is_number_space c = false.
Proof.
  intros H. destruct (is_number_space c) eqn:E; [|reflexivity].
  apply number_space_is_space in E. congruence.
Qed.

(** The conversions leave a text alone that neither starts nor ends with
    what they skip. *)
Lemma number_strip_keep c a e :
  is_number_space c = false -> is_number_space e = false ->
  number_strip (c :: a ++ [e]) = c :: a ++ [e].
Proof.
  intros Hc He. unfold number_strip. cbn [drop_while]. rewrite Hc.
  change (c :: a ++ [e]) with ((c :: a) ++ [e]).
  rewrite rev_app_distr. cbn [rev app drop_while]. rewrite He.
  change (e :: rev a ++ [c]) with (rev [e] ++ rev (c :: a)).
  rewrite <- rev_app_distr, rev_involutive. reflexivity.
Qed.

Lemma number_strip_one c : is_number_space c = false -> number_strip [c] = [c].
Proof.
  intros Hc. unfold number_strip. cbn [drop_while rev app]. rewrite Hc.
  cbn [rev app drop_while]. rewrite Hc. reflexivity.
Qed.

Lemma number_strip_render d :
  wf_decimal d = true -> number_strip (render_decimal d) = render_decimal d.
Proof.
  intros Hd.
  destruct (render_decimal_head d Hd) as (c & t & E & Hc & _).
  destruct (render_decimal_last d Hd) as (a & e & E' & He).
  apply not_number_space in Hc, He. rewrite E.
  destruct t as [|x t _] using rev_ind; [apply number_strip_one; exact Hc|].
  assert (x = e) as ->.
  { rewrite E in E'. change (c :: t ++ [x]) with ((c :: t) ++ [x]) in E'.
    apply app_inj_tail in E'. apply E'. }
  apply number_strip_keep; assumption.
Qed.

(** [float] on the text of a number *)

Lemma underscore_not_digit c : is_digit c = true -> is_char "_" c = false.
Proof. all_chars c. Qed.

Lemma plus_not_digit c : is_digit c = true -> is_char "+" c = false.
Proof. all_chars c. Qed.

Lemma to_lower_digit c : is_digit c = true -> to_lower c = c.
Proof. all_chars c. Qed.

Lemma digitpart_digits ds : forall rest,
  forallb is_digit ds = true -> ends_digitpart rest ->
  digitpart (ds ++ rest) = (ds, rest).
Proof.
  induction ds as [|c ds IH]; intros rest Hds Hrest.
  - destruct rest as [|c t]; [reflexivity|].
    destruct Hrest as [Hc _]. cbn [app digitpart]. rewrite Hc. reflexivity.
  - cbn [forallb] in Hds. apply andb_prop in Hds. destruct Hds as [Hc Hds].
    specialize (IH rest Hds Hrest).
    cbn [app digitpart]. rewrite Hc.
    destruct (ds ++ rest) as [|u t'] eqn:E.
    + apply app_eq_nil in E. destruct E as [-> ->]. reflexivity.
    + assert (is_char "_" u = false) as Hu.
      { destruct ds as [|c' ds'].
        - cbn [app] in E. subst rest. apply Hrest.
        - cbn [app] in E. injection E as -> _. cbn [forallb] in Hds.
          apply andb_prop in Hds. apply underscore_not_digit. apply Hds. }
      rewrite Hu. cbn [andb]. rewrite IH. reflexivity.
Qed.

Lemma python_float_render d :
  wf_decimal d = true ->
  python_float (render_decimal d) = Some (decimal_float d).
Proof.
  intros Hd. unfold python_float.
  rewrite number_strip_render by exact Hd.
  pose proof Hd as Hd'. unfold wf_decimal in Hd'. apply andb_prop in Hd'.
  destruct Hd' as [Hi Hf].
  destruct (digits_inv _ Hi) as (c & a & Ei & Hc & Ha).
  apply digits_forallb in Hi, Hf.
  assert (sign_of (render_decimal d) = (d_neg d, d_int d ++ "."%char :: d_frac d)) as ->.
  { unfold render_decimal. destruct (d_neg d); [reflexivity|].
    rewrite Ei. cbn [app sign_of].
    destruct (is_char "-" c) eqn:E; [apply minus_not_digit in E; congruence|].
    rewrite (plus_not_digit c Hc). reflexivity. }
  assert (forall w : string, match lit w with x :: _ => is_digit x = false | [] => True end ->
            str_eqb (map to_lower (d_int d ++ "."%char :: d_frac d)) (lit w) = false) as Hne.
  { intros w Hw. unfold str_eqb. apply bool_decide_eq_false. rewrite Ei.
    cbn [app map]. rewrite (to_lower_digit c Hc). intros E. rewrite <- E in Hw. congruence. }
  rewrite !Hne by reflexivity. cbn [orb].
  rewrite (digitpart_digits (d_int d) ("."%char :: d_frac d) Hi) by (split; reflexivity).
  change (is_char "." ".") with true. cbv iota.
  rewrite <- (app_nil_r (d_frac d)) at 1.
  rewrite (digitpart_digits (d_frac d) [] Hf) by exact I.
  unfold decimal_float.
  destruct (d_int d ++ d_frac d) as [|x l] eqn:E; [rewrite Ei in E; discriminate|].
  reflexivity.
Qed.

Lemma floats_of_pieces more :
  wf_more more = true ->
  floats_of (map piece more) = Ok (map decimal_float (map snd more)).
Proof.
  induction more as [|[w d] more IH]; [reflexivity|].
  cbn [wf_more forallb fst snd]. intros Hm.
  apply andb_prop in Hm. destruct Hm as [Hwd Hm].
  apply andb_prop in Hwd. destruct Hwd as [Hw Hd].
  cbn [map floats_of]. unfold piece at 1. cbn [fst snd].
  unfold py_float. rewrite strip_render, python_float_render by assumption.
  cbn [or_raise bind]. rewrite (IH Hm). reflexivity.
Qed.

(** The row of a match on a written row: the values of its numbers, in
    order. *)
Lemma points_of_row r caps :
  wf_row r = true ->
  points_of_match {| group0 := render_row r; captures := caps |}
  = Ok (map decimal_float (cells r)).
Proof.
  intros Hr. unfold points_of_match. cbn [group0]. unfold render_row.
  rewrite replace_marker
    by (apply (forallb_not_In row_char); [apply row_char_not_hash|apply row_chars; exact Hr]).
  destruct (wf_row_inv r Hr) as (c & w & El & Hc & Hw & Hf & Hm).
  unfold render_numbers. rewrite app_assoc, split_render_more.
  - cbn [floats_of]. unfold py_float.
    rewrite strip_render, python_float_render; try assumption.
    + cbn [or_raise bind]. rewrite (floats_of_pieces _ Hm). reflexivity.
    + rewrite El. unfold spaces. cbn [forallb]. rewrite Hc. exact Hw.
  - exact Hm.
  - intros Hin. apply in_app_or in Hin. destruct Hin as [Hin|Hin].
    + revert Hin. apply (forallb_not_In is_space); [apply space_not_comma|].
      rewrite El. cbn [forallb]. rewrite Hc. exact Hw.
    + revert Hin. apply (forallb_not_In number_char);
        [apply number_char_not_comma|apply render_decimal_chars; exact Hf].
Qed.

(** The float conversions of the first loop cannot fail: a matched text is
    made of numbers. *)
Lemma points_of_match_ok s m :
  search point_regex s = Some m ->
  exists r, wf_row r = true /\ group0 m = render_row r /\
            points_of_match m = Ok (map decimal_float (cells r)).
Proof.
  intros H. apply search_point_inv in H. destruct H as (r & Hr & Hg).
  exists r. split; [exact Hr|]. split; [exact Hg|].
  destruct m as [g caps]. cbn [group0] in Hg. subst g. apply points_of_row. exact Hr.
Qed.

Lemma scan_points_ok lines :
  exists rows, scan_points __init__ lines = Ok rows.
Proof.
  induction lines as [|line rest [rows IH]]; [exists []; reflexivity|].
  cbn [scan_points point_pattern __init__].
  change (point_pattern __init__) with point_regex in IH.
  destruct (search point_regex line) as [m|] eqn:E.
  - destruct (points_of_match_ok _ _ E) as (r & _ & _ & ->).
    cbn [bind]. fold (scan_points __init__ rest). rewrite IH. cbn [bind]. eauto.
  - fold (scan_points __init__ rest). rewrite IH. eauto.
Qed.

(** ** Patterns that start with the marker *)

Lemma starts_with_marker_inv s :
  starts_with marker s = true -> exists t, s = "#"%char :: "*"%char :: "#"%char :: t.
Proof.
  intros H. apply starts_with_inv in H. eexists. exact H.
Qed.

Lemma rests_marker_fail r s :
  starts_with marker s = false -> rests (Seq (Lit marker) r) s = [].
Proof. intros H. rewrite rests_seq, rests_lit, H. reflexivity. Qed.

Lemma search_no_hash r s :
  ~ In "#"%char s -> search (Seq (Lit marker) r) s = None.
Proof.
  induction s as [|c t IH]; intros H.
  - apply search_nil. apply rests_marker_fail. reflexivity.
  - rewrite search_skip.
    + apply IH. intros Hin. apply H. right. exact Hin.
    + apply rests_marker_fail. destruct (starts_with marker (c :: t)) eqn:E; [|reflexivity].
      apply starts_with_marker_hash in E. subst c. exfalso. apply H. left. reflexivity.
Qed.

(** After the marker both patterns ask for whitespace. *)
Lemma rests_marker_space r s :
  match skipn (length marker) s with
  | c :: _ => is_space c = false
  | [] => True
  end ->
  rests (Seq (Lit marker) (Seq (Plus (Chr is_space)) r)) s = [].
Proof.
  intros H. rewrite rests_seq, rests_lit.
  destruct (starts_with marker s); [|reflexivity].
  cbn [flat_map]. rewrite app_nil_r, rests_seq, rests_plus_chr.
  destruct (skipn (length marker) s) as [|c t]; [reflexivity|].
  rewrite H. reflexivity.
Qed.

(** A line that has the marker at its start and no other [#]: only the
    start can match. *)
Lemma search_marker_line r body :
  ~ In "#"%char body ->
  rests (Seq (Lit marker) (Seq (Plus (Chr is_space)) r)) (marker ++ body) = [] ->
  search (Seq (Lit marker) (Seq (Plus (Chr is_space)) r)) (marker ++ body) = None.
Proof.
  intros Hb H0.
  change (marker ++ body) with ("#"%char :: "*"%char :: "#"%char :: body) in *.
  rewrite search_skip by exact H0.
  rewrite search_skip by (apply rests_marker_fail; reflexivity).
  rewrite search_skip.
  - apply search_no_hash. exact Hb.
  - apply rests_marker_fail.
    change marker with ["#"%char; "*"%char; "#"%char].
    destruct body as [|c [|c' t]]; cbn [starts_with].
    + reflexivity.
    + rewrite andb_false_r. reflexivity.
    + destruct (Ascii.eqb "#" c') eqn:E2; [|rewrite !andb_false_r; reflexivity].
      apply Ascii.eqb_eq in E2. subst c'. exfalso. apply Hb. right. left. reflexivity.
Qed.

(** ** The parameter pattern *)

Lemma param_regex_eq :
  param_regex = Seq (Lit marker) (Seq (Plus (Chr is_space)) param_rest).
Proof. reflexivity. Qed.

Lemma eq_not_space c : is_char "=" c = true -> is_space c = false.
Proof. all_chars c. Qed.

Lemma In_drop_while (p : ascii -> bool) x s : In x (drop_while p s) -> In x s.
Proof. clear stdout_encodes.
  induction s as [|c t IH]; simpl; [tauto|].
  destruct (p c); [intros H; right; apply IH, H|tauto].
Qed.

(** A match of the parameter pattern reads an equals sign. *)
Lemma rests_param_rest_eq s : ~ In "="%char s -> rests param_rest s = [].
Proof.
  intros H. unfold param_rest.
  change (rests (Seq (Group 1 (Plus (Chr is_word)))
                     (Seq (Plus (Chr is_space)) (Seq (Chr (is_char "=")) param_tail))) s)
    with (rests (Seq (Plus (Chr is_word))
                     (Seq (Plus (Chr is_space)) (Seq (Chr (is_char "=")) param_tail))) s).
  rewrite rests_plus_chr_then.
  - destruct s as [|c t]; [reflexivity|]. destruct (is_word c); [|reflexivity].
    rewrite rests_plus_chr_then.
    + destruct (drop_while is_word t) as [|c' t'] eqn:E; [reflexivity|].
      destruct (is_space c'); [|reflexivity].
      rewrite rests_seq, rests_chr.
      destruct (drop_while is_space t') as [|c'' t''] eqn:E'; [reflexivity|].
      destruct (is_char "=" c'') eqn:Ec; [|reflexivity].
      exfalso. apply H. apply is_char_eq in Ec. subst c''.
      right. apply (In_drop_while is_word). rewrite E.
      right. apply (In_drop_while is_space). rewrite E'. left. reflexivity.
    + intros c' t' Hc'. rewrite rests_seq, rests_chr.
      destruct (is_char "=" c') eqn:Ec; [|reflexivity].
      apply eq_not_space in Ec. congruence.
  - intros c t Hc. rewrite rests_seq, rests_plus_chr.
    rewrite (word_not_space c Hc). reflexivity.
Qed.

Lemma rests_param_rest_space c t : is_space c = true -> rests param_rest (c :: t) = [].
Proof.
  intros Hc. unfold param_rest. rewrite rests_seq, rests_group, rests_plus_chr.
  rewrite (space_not_word c Hc). reflexivity.
Qed.

Lemma In_skipn {A} (x : A) n s : In x (skipn n s) -> In x s.
Proof.
  revert s. induction n as [|n IH]; intros s; [tauto|].
  destruct s as [|c t]; [tauto|]. simpl. intros H. right. apply IH, H.
Qed.

Lemma rests_param_regex_eq s : ~ In "="%char s -> rests param_regex s = [].
Proof.
  intros H. rewrite param_regex_eq, rests_seq, rests_lit.
  destruct (starts_with marker s); [|reflexivity].
  cbn [flat_map]. rewrite app_nil_r.
  rewrite rests_plus_chr_then by apply rests_param_rest_space.
  destruct (skipn (length marker) s) as [|c t] eqn:E; [reflexivity|].
  destruct (is_space c); [|reflexivity].
  apply rests_param_rest_eq. intros Hin. apply H.
  apply (In_skipn _ (length marker)). rewrite E. right.
  apply (In_drop_while is_space). exact Hin.
Qed.

Lemma search_param_no_eq s : ~ In "="%char s -> search param_regex s = None.
Proof.
  induction s as [|c t IH]; intros H.
  - apply search_nil. apply rests_param_regex_eq. exact H.
  - rewrite search_skip.
    + apply IH. intros Hin. apply H. right. exact Hin.
    + apply rests_param_regex_eq. exact H.
Qed.

Lemma row_char_not_eq c : row_char c = true -> c <> "="%char.
Proof. all_chars c. Qed.

(** A written row is no parameter line. *)
Lemma search_param_row r : wf_row r = true -> search param_regex (render_row r) = None.
Proof.
  intros Hr. apply search_param_no_eq. unfold render_row.
  intros Hin. apply in_app_or in Hin. destruct Hin as [Hin|Hin].
  - revert Hin. vm_compute. intuition discriminate.
  - revert Hin. apply (forallb_not_In row_char); [apply row_char_not_eq|].
    apply row_chars. exact Hr.
Qed.

(** ** First matches with their groups *)

Lemma first_seq a b st st1 st2 :
  first_match a st st1 -> first_match b st1 st2 -> first_match (Seq a b) st st2.
Proof.
  intros [tl1 H1] [tl2 H2]. unfold first_match. cbn [ms].
  rewrite H1. cbn [flat_map]. rewrite H2. cbn [app]. eauto.
Qed.

Lemma first_lit l c s : first_match (Lit l) (c, l ++ s) (c, s).
Proof.
  unfold first_match. cbn [ms fst snd].
  rewrite starts_with_app, skipn_length_app. eauto.
Qed.

Lemma first_chr (p : ascii -> bool) c x s :
  p x = true -> first_match (Chr p) (c, x :: s) (c, s).
Proof. intros H. unfold first_match. cbn [ms fst snd]. rewrite H. eauto. Qed.

Lemma first_group n r c s c' s' :
  first_match r (c, s) (c', s') ->
  first_match (Group n r) (c, s) ((n, consumed s s') :: c', s').
Proof.
  intros [tl H]. unfold first_match. cbn [ms]. rewrite H. cbn [map fst snd]. eauto.
Qed.

Lemma star_loop_chr p c : forall fuel s,
  star_loop (ms (Chr p)) fuel (c, s) = map (pair c) (rstar_loop (rests (Chr p)) fuel s).
Proof.
  induction fuel as [|n IH]; intros s; [reflexivity|].
  cbn [star_loop rstar_loop ms rests fst snd].
  destruct s as [|x t]; [reflexivity|].
  destruct (p x); [|reflexivity].
  cbn [flat_map fst snd]. rewrite !app_nil_r, map_app. cbn [map]. f_equal.
  destruct (length t <? length (x :: t))%nat; [apply IH|reflexivity].
Qed.

(** A repeated class reads the whole run first and leaves the groups as
    they are. *)
Lemma first_plus_chr p c x w s :
  p x = true -> forallb p w = true ->
  match s with y :: _ => p y = false | [] => True end ->
  first_match (Plus (Chr p)) (c, x :: w ++ s) (c, s).
Proof.
  intros Hx Hw Hs. unfold first_match.
  change (ms (Plus (Chr p)) (c, x :: w ++ s))
    with (flat_map (star (ms (Chr p))) (if p x then [(c, w ++ s)] else [])).
  rewrite Hx. cbn [flat_map]. rewrite app_nil_r.
  unfold star. cbn [snd]. rewrite star_loop_chr.
  change (rstar_loop (rests (Chr p)) (length (w ++ s)) (w ++ s))
    with (rests (Star (Chr p)) (w ++ s)).
  rewrite rests_star_chr.
  destruct (backs_head p (w ++ s)) as [tl ->].
  rewrite drop_while_app by exact Hw.
  rewrite drop_while_stop by exact Hs. cbn [map]. eauto.
Qed.

(** ** Written parameter lines *)

Lemma some_spaces_inv w :
  some_spaces w = true -> exists c t, w = c :: t /\ is_space c = true /\ forallb is_space t = true.
Proof.
  destruct w as [|c t]; [discriminate|]. cbn [some_spaces forallb].
  intros H. apply andb_prop in H. destruct H. eauto.
Qed.

Lemma word_inv k :
  word k = true -> exists c t, k = c :: t /\ is_word c = true /\ forallb is_word t = true.
Proof.
  destruct k as [|c t]; [discriminate|]. cbn [word forallb].
  intros H. apply andb_prop in H. destruct H. eauto.
Qed.

Lemma wf_value_inv v :
  wf_value v = true ->
  exists c t, v = c :: t /\ is_space c = false /\ is_any c = true /\ forallb is_any t = true.
Proof.
  destruct v as [|c t]; [discriminate|]. cbn [wf_value forallb].
  intros H. apply andb_prop in H. destruct H as [H1 H2].
  apply andb_prop in H2. destruct H2. apply negb_true_iff in H1. eauto 8.
Qed.

Lemma wf_param_inv p :
  wf_param p = true ->
  some_spaces (p_lead p) = true /\ word (p_key p) = true /\
  some_spaces (p_mid p) = true /\ some_spaces (p_gap p) = true /\
  wf_value (p_value p) = true.
Proof.
  unfold wf_param. rewrite !andb_true_iff. tauto.
Qed.

Lemma consumed_nil (s : str) : consumed s [] = s.
Proof. rewrite <- (app_nil_r s) at 1. apply consumed_app. Qed.

Lemma eq_is_not_space : is_space "=" = false.
Proof. reflexivity. Qed.

(** On a written parameter line the pattern matches the whole line, with
    the key and the value as its groups. *)
Lemma first_param_render p :
  wf_param p = true ->
  first_match param_regex ([], render_param p)
              ([(2, p_value p); (1, p_key p)], []).
Proof.
  intros Hp. destruct (wf_param_inv p Hp) as (Hl & Hk & Hm & Hg & Hv).
  destruct (some_spaces_inv _ Hl) as (l0 & l & El & Hl0 & Hls).
  destruct (word_inv _ Hk) as (k0 & k & Ek & Hk0 & Hks).
  destruct (some_spaces_inv _ Hm) as (m0 & m & Em & Hm0 & Hms).
  destruct (some_spaces_inv _ Hg) as (g0 & g & Eg & Hg0 & Hgs).
  destruct (wf_value_inv _ Hv) as (v0 & v & Ev & Hv0 & Hva & Hvs).
  unfold render_param. rewrite param_regex_eq.
  eapply first_seq; [apply first_lit|].
  eapply first_seq.
  { rewrite El. cbn [app]. apply first_plus_chr; [exact Hl0|exact Hls|].
    rewrite Ek. cbn [app]. auto with chars. }
  unfold param_rest.
  eapply first_seq.
  { apply first_group. rewrite Ek. cbn [app].
    apply first_plus_chr; [exact Hk0|exact Hks|].
    rewrite Em. cbn [app]. auto with chars. }
  rewrite consumed_app.
  eapply first_seq.
  { rewrite Em. cbn [app]. apply first_plus_chr; [exact Hm0|exact Hms|].
    apply eq_is_not_space. }
  eapply first_seq; [apply first_chr; reflexivity|].
  unfold param_tail.
  eapply first_seq.
  { rewrite Eg. cbn [app]. apply first_plus_chr; [exact Hg0|exact Hgs|].
    rewrite Ev. exact Hv0. }
  pose proof (first_group 2 (Plus (Chr is_any)) [(1, p_key p)] (p_value p)
                          [(1, p_key p)] []) as H.
  rewrite consumed_nil in H. apply H.
  rewrite Ev. rewrite <- (app_nil_r v).
  apply first_plus_chr; [exact Hva|exact Hvs|exact I].
Qed.

Lemma search_param_render p :
  wf_param p = true ->
  search param_regex (render_param p)
  = Some {| group0 := render_param p;
            captures := [(2, p_value p); (1, p_key p)] |}.
Proof.
  intros Hp. destruct (first_param_render p Hp) as [tl H].
  rewrite search_eq, H, consumed_nil. reflexivity.
Qed.

(** A written parameter line is no row. *)

Lemma minus_not_word c : is_word c = true -> is_char "-" c = false.
Proof. all_chars c. Qed.

Lemma dot_not_word c : is_word c = true -> is_char "." c = false.
Proof. all_chars c. Qed.

Lemma dot_not_space c : is_space c = true -> is_char "." c = false.
Proof. all_chars c. Qed.

Lemma drop_while_head_of (p : ascii -> bool) a m rest :
  p m = false ->
  exists x t, drop_while p (a ++ m :: rest) = x :: t /\ (In x a \/ x = m).
Proof.
  intros Hm. induction a as [|c a (x & t & E & Hx)]; cbn [app drop_while].
  - rewrite Hm. eauto.
  - destruct (p c).
    + exists x, t. split; [exact E|]. destruct Hx; [left; right; assumption|right; assumption].
    + exists c, (a ++ m :: rest). split; [reflexivity|]. left. left. reflexivity.
Qed.

Lemma num_end_word_run key mid rest :
  word key = true -> some_spaces mid = true ->
  num_end (key ++ mid ++ rest) = None.
Proof.
  intros Hk Hm.
  destruct (word_inv _ Hk) as (k0 & k & -> & Hk0 & Hks).
  destruct (some_spaces_inv _ Hm) as (m0 & m & -> & Hm0 & Hms).
  unfold num_end, num_tail. cbn [app strip_minus].
  rewrite (minus_not_word k0 Hk0). unfold unsigned_tail.
  destruct (is_digit k0); [|reflexivity].
  destruct (drop_while_head_of is_digit k m0 (m ++ rest) (space_not_digit m0 Hm0))
    as (x & t & -> & Hx).
  assert (is_char "." x = false) as Hdot.
  { destruct Hx as [Hx| ->].
    - rewrite forallb_forall in Hks. apply dot_not_word, Hks, Hx.
    - apply dot_not_space, Hm0. }
  destruct t as [|e v]; [reflexivity|]. rewrite Hdot. reflexivity.
Qed.

Lemma space_not_hash c : is_space c = true -> c <> "#"%char.
Proof. all_chars c. Qed.

Lemma word_not_hash c : is_word c = true -> c <> "#"%char.
Proof. all_chars c. Qed.

Lemma no_hash_not_In s : no_hash s = true -> ~ In "#"%char s.
Proof.
  unfold no_hash. intros H Hin. rewrite forallb_forall in H.
  specialize (H _ Hin). discriminate.
Qed.

Lemma some_spaces_forallb w : some_spaces w = true -> forallb is_space w = true.
Proof. destruct w; [discriminate|]. intros H; exact H. Qed.

Lemma word_forallb k : word k = true -> forallb is_word k = true.
Proof. destruct k; [discriminate|]. intros H; exact H. Qed.

Lemma param_body_no_hash p :
  wf_param p = true -> no_hash (p_value p) = true ->
  ~ In "#"%char (p_lead p ++ p_key p ++ p_mid p ++ "="%char :: p_gap p ++ p_value p).
Proof.
  intros Hp Hv. destruct (wf_param_inv p Hp) as (Hl & Hk & Hm & Hg & _).
  apply some_spaces_forallb in Hl, Hm, Hg. apply word_forallb in Hk.
  intros Hin.
  repeat (apply in_app_or in Hin; destruct Hin as [Hin|Hin]);
    try (revert Hin; apply (forallb_not_In is_space); [apply space_not_hash|assumption]).
  - revert Hin. apply (forallb_not_In is_word); [apply word_not_hash|assumption].
  - destruct Hin as [Hin|Hin]; [discriminate|].
    apply in_app_or in Hin; destruct Hin as [Hin|Hin].
    + revert Hin. apply (forallb_not_In is_space); [apply space_not_hash|assumption].
    + revert Hin. apply no_hash_not_In. exact Hv.
Qed.

Lemma search_point_param p :
  wf_param p = true -> no_hash (p_value p) = true ->
  search point_regex (render_param p) = None.
Proof.
  intros Hp Hv. unfold render_param. rewrite point_regex_eq.
  apply search_marker_line; [apply param_body_no_hash; assumption|].
  rewrite <- point_regex_eq, rests_point_regex, starts_with_app, skipn_length_app.
  destruct (wf_param_inv p Hp) as (Hl & Hk & Hm & _ & _).
  destruct (some_spaces_inv _ Hl) as (l0 & l & -> & Hl0 & Hls).
  cbn [app]. rewrite Hl0, drop_while_app by exact Hls.
  destruct (word_inv _ Hk) as (k0 & k & Ek & Hk0 & Hks).
  rewrite drop_while_stop by (rewrite Ek; cbn [app]; auto with chars).
  rewrite rests_numbers.
  rewrite (num_end_word_run _ _ _ Hk Hm). cbn [app].
  apply rests_number_nil. apply (num_end_word_run _ _ _ Hk Hm).
Qed.

(** ** Both groups of the parameter pattern take part in every match *)

Lemma star_loop_bound step n :
  (forall st st', In st' (step st) -> bound n st -> bound n st') ->
  forall fuel st st', In st' (star_loop step fuel st) -> bound n st -> bound n st'.
Proof.
  intros Hstep. induction fuel as [|k IH]; intros st st'; cbn [star_loop].
  - intros [<-|[]] H. exact H.
  - rewrite in_app_iff, in_flat_map. intros [(st1 & H1 & H2)|[<-|[]]] Hb.
    + destruct (length (snd st1) <? length (snd st))%nat; [|destruct H2].
      apply (IH st1 st' H2). apply (Hstep st st1 H1 Hb).
    + exact Hb.
Qed.

Lemma ms_binds n r : forall st st',
  In st' (ms r st) -> binds n r = true \/ bound n st -> bound n st'.
Proof.
  induction r as [p|l|a IHa b IHb|a IHa|a IHa|a IHa|k a IHa];
    intros st st'; cbn [ms binds].
  - destruct (snd st) as [|c t]; [intros []|]. destruct (p c); [|intros []].
    intros [<-|[]] [H|H]; [discriminate|exact H].
  - destruct (starts_with l (snd st)); [|intros []].
    intros [<-|[]] [H|H]; [discriminate|exact H].
  - rewrite in_flat_map. intros (st1 & H1 & H2) H.
    rewrite orb_true_iff in H.
    destruct H as [[H|H]|H].
    + apply (IHb st1 st' H2). right. apply (IHa st st1 H1). left. exact H.
    + apply (IHb st1 st' H2). left. exact H.
    + apply (IHb st1 st' H2). right. apply (IHa st st1 H1). right. exact H.
  - rewrite in_app_iff. intros [H1|[<-|[]]] [H|H]; try discriminate; [|exact H].
    apply (IHa st st' H1). right. exact H.
  - intros H1 [H|H]; [discriminate|]. unfold star in H1.
    apply (star_loop_bound (ms a) n) with (fuel := length (snd st)) (st := st);
      [|exact H1|exact H].
    intros s1 s2 Hin Hb. apply (IHa s1 s2 Hin). right. exact Hb.
  - rewrite in_flat_map. intros (st1 & H1 & H2) H. unfold star in H2.
    apply (star_loop_bound (ms a) n) with (fuel := length (snd st1)) (st := st1);
      [|exact H2|apply (IHa st st1 H1 H)].
    intros s1 s2 Hin Hb. apply (IHa s1 s2 Hin). right. exact Hb.
  - rewrite in_map_iff. intros (st1 & <- & H1) H. unfold bound. cbn [fst group].
    destruct (k =? n)%nat eqn:E; [discriminate|].
    cbn [orb] in H. apply (IHa st st1 H1 H).
Qed.

Lemma search_found_caps r s m :
  search r s = Some m ->
  exists suf rest tl, ms r ([], suf) = (captures m, rest) :: tl.
Proof.
  induction s as [|c t IH]; rewrite search_eq.
  - destruct (ms r ([], [])) as [|[caps rest] tl] eqn:E; [discriminate|].
    intros [= <-]. eauto.
  - destruct (ms r ([], c :: t)) as [|[caps rest] tl] eqn:E; [exact IH|].
    intros [= <-]. eauto.
Qed.

Lemma param_groups_bound line m :
  search param_regex line = Some m ->
  exists key value,
    group 1 (captures m) = Some key /\ group 2 (captures m) = Some value.
Proof.
  intros H. apply search_found_caps in H. destruct H as (suf & rest & tl & H).
  assert (In (captures m, rest) (ms param_regex ([], suf))) as Hin
    by (rewrite H; left; reflexivity).
  pose proof (ms_binds 1 param_regex _ _ Hin (or_introl eq_refl)) as H1.
  pose proof (ms_binds 2 param_regex _ _ Hin (or_introl eq_refl)) as H2.
  unfold bound in H1, H2. cbn [fst] in H1, H2.
  destruct (group 1 (captures m)) as [key|]; [|congruence].
  destruct (group 2 (captures m)) as [value|]; [|congruence].
  eauto.
Qed.

(** * The claims *)

(** ** The handler *)

Lemma parse_config_file_ok np self content w m :
  parse_body np self content = Ok m ->
  parse_config_file np self content w = (Ok (Some m), w).
Proof.
  intros H. unfold parse_config_file, try_except. rewrite H. reflexivity.
Qed.

Lemma parse_config_file_raise np self content w e :
  parse_body np self content = Raise e ->
  forallb can_encode (echoed (Error_parsing_mesh_data e)) = true ->
  parse_config_file np self content w
  = (Ok None, {| stdout := stdout w ++ [Error_parsing_mesh_data e] |}).
Proof.
  intros H He. unfold parse_config_file, try_except, print. rewrite H.
  cbn [bind]. rewrite He. reflexivity.
Qed.

Lemma parse_config_file_print_fails np self content w e :
  parse_body np self content = Raise e ->
  forallb can_encode (echoed (Error_parsing_mesh_data e)) = false ->
  parse_config_file np self content w = (Raise UnicodeEncodeError, w).
Proof.
  intros H He. unfold parse_config_file, try_except, print. rewrite H.
  cbn [bind]. rewrite He. reflexivity.
Qed.

(** The three ways a call ends: with a mesh and nothing printed; with none
    and one line printed; with the [UnicodeEncodeError] of that line,
    raised by the [print] of the handler, and nothing printed. *)
Lemma parse_config_file_outcomes np self content w :
  match parse_body np self content with
  | Ok m => parse_config_file np self content w = (Ok (Some m), w)
  | Raise e =>
      if forallb can_encode (echoed (Error_parsing_mesh_data e))
      then parse_config_file np self content w
           = (Ok None, {| stdout := stdout w ++ [Error_parsing_mesh_data e] |})
      else parse_config_file np self content w = (Raise UnicodeEncodeError, w)
  end.
Proof.
  destruct (parse_body np self content) as [m|e] eqn:E.
  - apply parse_config_file_ok. exact E.
  - destruct (forallb can_encode (echoed (Error_parsing_mesh_data e))) eqn:He.
    + apply parse_config_file_raise; assumption.
    + apply (parse_config_file_print_fails np self content w e); assumption.
Qed.

Lemma missing_parameters_printable :
  forallb can_encode (echoed (Error_parsing_mesh_data missing_parameters)) = true.
Proof. reflexivity. Qed.

Lemma inhomogeneous_printable :
  forallb can_encode (echoed (Error_parsing_mesh_data ValueError_inhomogeneous)) = true.
Proof. reflexivity. Qed.

(** ** The validator *)

Lemma object_shape_mismatch rows x y : shape (ObjectArray rows) <> [x; y].
Proof. discriminate. Qed.

Lemma validate_shape self m :
  shape (matrix m) <> [x_count m; y_count m] ->
  validate_mesh_data self m = false.
Proof.
  intros H. unfold validate_mesh_data.
  rewrite bool_decide_eq_false_2 by exact H. reflexivity.
Qed.

Lemma validate_float self m sh data :
  matrix m = FloatArray sh data -> sh = [x_count m; y_count m] ->
  validate_mesh_data self m
  = negb (any_abs_gt_10 data) && negb (any_isnan data || any_isinf data).
Proof.
  intros Hm Hs. unfold validate_mesh_data. rewrite Hm. cbn [shape].
  rewrite bool_decide_eq_true_2 by exact Hs. cbn [negb].
  destruct (any_abs_gt_10 data); [reflexivity|].
  destruct (any_isnan data || any_isinf data); reflexivity.
Qed.

(** C7.  A mesh whose matrix has another shape than (x_count, y_count) is
    not valid, whatever its values. *)
Theorem validate_rejects_shape_mismatch self m :
  shape (matrix m) <> [x_count m; y_count m] ->
  validate_mesh_data self m = false.
Proof. apply validate_shape. Qed.

Lemma inf_abs_gt_10 v : is_inf v = true -> SFltb ten (SFabs v) = true.
Proof. destruct v; try discriminate. reflexivity. Qed.

(** C6.  A mesh whose matrix holds a not-a-number or an infinity is not
    valid, whether or not its shape is the declared one. *)
Theorem validate_rejects_nan_inf self m v :
  In v (elements (matrix m)) ->
  is_nan v = true \/ is_inf v = true ->
  validate_mesh_data self m = false.
Proof.
  intros Hin Hv.
  destruct (decide (shape (matrix m) = [x_count m; y_count m])) as [Hs|Hs];
    [|apply validate_shape; exact Hs].
  destruct (matrix m) as [sh data|rows] eqn:Em;
    [|exfalso; exact (object_shape_mismatch _ _ _ Hs)].
  rewrite (validate_float self m sh data Em Hs).
  cbn [elements] in Hin.
  destruct Hv as [Hv|Hv].
  - assert (any_isnan data = true) as ->
      by (apply existsb_exists; exists v; split; assumption).
    cbn [orb negb]. apply andb_false_r.
  - assert (any_abs_gt_10 data = true) as ->
      by (apply existsb_exists; exists v; split; [assumption|apply inf_abs_gt_10; exact Hv]).
    reflexivity.
Qed.

Lemma ten_eq : ten = S754_finite false 5629499534213120 (-49).
Proof. reflexivity. Qed.

Lemma leb_ten_not_gt v : SFleb (SFabs v) ten = true -> SFltb ten (SFabs v) = false.
Proof.
  rewrite ten_eq. destruct v as [s|s| |s m e]; try discriminate; [reflexivity|].
  unfold SFleb, SFltb, SFabs, SFcompare.
  rewrite (Z.compare_antisym e (-49)).
  pose proof (Pos.compare_cont_antisym m 5629499534213120 Eq) as Ha.
  change (CompOpp (PosDef.Pos.compare_cont Eq m 5629499534213120)
          = PosDef.Pos.compare_cont Eq 5629499534213120 m) in Ha.
  rewrite <- Ha.
  destruct (e ?= -49)%Z; cbn [CompOpp];
    try destruct (PosDef.Pos.compare_cont Eq m 5629499534213120);
    cbn [CompOpp]; congruence.
Qed.

Lemma in_bounds_checks v :
  in_bounds v = true ->
  SFltb ten (SFabs v) = false /\ is_nan v = false /\ is_inf v = false.
Proof.
  unfold in_bounds. intros H. apply andb_prop in H. destruct H as [Hf Hl].
  split; [apply leb_ten_not_gt; exact Hl|].
  destruct v; try discriminate; split; reflexivity.
Qed.

Lemma validate_in_bounds self m sh data :
  matrix m = FloatArray sh data -> sh = [x_count m; y_count m] ->
  Forall (fun v => in_bounds v = true) data ->
  validate_mesh_data self m = true.
Proof.
  intros Hm Hs Hall. rewrite (validate_float self m sh data Hm Hs).
  assert (any_abs_gt_10 data = false /\ any_isnan data = false /\ any_isinf data = false)
    as (-> & -> & ->); [|reflexivity].
  unfold any_abs_gt_10, any_isnan, any_isinf. clear Hm Hs.
  induction data as [|v data IH]; [repeat split|].
  apply Forall_cons_iff in Hall. destruct Hall as [Hv Hall].
  destruct (in_bounds_checks v Hv) as (H1 & H2 & H3).
  destruct (IH Hall) as (IH1 & IH2 & IH3).
  cbn [existsb]. rewrite H1, H2, H3, IH1, IH2, IH3. repeat split.
Qed.

(** C5.  On a mesh of the declared shape the range check includes its
    bounds: a grid whose values are 10.0, -10.0 or finite values of
    magnitude at most 10 is valid; a grid with a value of magnitude above
    10, such as 10.0001, is not. *)
Theorem validate_range_inclusive self m sh data :
  matrix m = FloatArray sh data -> sh = [x_count m; y_count m] ->
  python_float (lit "10.0") = Some ten /\
  python_float (lit "-10.0") = Some (SFopp ten) /\
  (Forall (fun v => v = ten \/ v = SFopp ten \/ in_bounds v = true) data ->
   validate_mesh_data self m = true) /\
  (forall v, In v data -> SFltb ten (SFabs v) = true ->
             validate_mesh_data self m = false) /\
  (exists v, python_float (lit "10.0001") = Some v /\ SFltb ten (SFabs v) = true).
Proof.
  intros Hm Hs. split; [reflexivity|]. split; [reflexivity|]. split; [|split].
  - intros Hall. apply (validate_in_bounds self m sh data Hm Hs).
    eapply Forall_impl; [exact Hall|].
    intros v [->|[->|H]]; [reflexivity|reflexivity|exact H].
  - intros v Hin Hv. rewrite (validate_float self m sh data Hm Hs).
    assert (any_abs_gt_10 data = true) as ->
      by (apply existsb_exists; exists v; split; assumption).
    reflexivity.
  - eexists. split; reflexivity.
Qed.

(** ** Missing parameters *)

Lemma scan_params_undeclared key lines : forall params,
  (forall line, In line lines -> declared_key line <> Some key) ->
  scan_params __init__ lines params !! key = params !! key.
Proof.
  induction lines as [|line rest IH]; intros params H; [reflexivity|].
  cbn [scan_params param_pattern __init__].
  assert (forall line, In line rest -> declared_key line <> Some key) as Hrest
    by (intros l Hl; apply H; right; exact Hl).
  specialize (H line (or_introl eq_refl)). unfold declared_key in H.
  destruct (search param_regex line) as [m|]; [|apply IH; exact Hrest].
  destruct (group 1 (captures m)) as [k|]; [|apply IH; exact Hrest].
  destruct (group 2 (captures m)) as [v|]; [|apply IH; exact Hrest].
  change (scan_params __init__ rest (<[k:=v]> params) !! key = params !! key).
  rewrite IH by exact Hrest. apply lookup_insert_ne. congruence.
Qed.

Lemma has_key_missing params key :
  In key required_params -> params !! key = None ->
  forallb (has_key params) required_params = false.
Proof.
  intros Hin Hk. apply not_true_is_false. intros Hall.
  rewrite forallb_forall in Hall. specialize (Hall key Hin).
  unfold has_key in Hall. apply bool_decide_eq_true_1 in Hall.
  rewrite Hk in Hall. destruct Hall as [x Hx]. discriminate.
Qed.

(** C3.  When one of the six required parameters is declared on no line of
    the text, [parse_config_file] returns none and prints the one
    missing-parameters diagnostic, which is the same whichever parameter is
    missing. *)
Theorem parse_config_file_missing_parameter np content w key :
  In key required_params ->
  (forall line, In line (split "010" content) -> declared_key line <> Some key) ->
  parse_config_file np __init__ content w
  = (Ok None,
     {| stdout := stdout w ++ [Error_parsing_mesh_data missing_parameters] |}).
Proof.
  intros Hkey Hlines.
  apply parse_config_file_raise; [|apply missing_parameters_printable].
  unfold parse_body.
  destruct (scan_points_ok (split "010" content)) as [rows ->]. cbn [bind].
  rewrite (has_key_missing _ key Hkey); [reflexivity|].
  rewrite scan_params_undeclared by exact Hlines. apply lookup_empty.
Qed.

(** ** Text before the marker *)

Lemma rests_lead_fail r c lead body :
  starts_with marker (c :: lead) = false ->
  rests (after_marker r) (c :: lead ++ marker ++ body) = [].
Proof.
  intros H. unfold after_marker.
  change (marker ++ body) with ("#"%char :: "*"%char :: "#"%char :: body).
  change marker with ["#"%char; "*"%char; "#"%char] in H.
  destruct lead as [|c2 [|c3 lead]].
  - apply rests_marker_fail. change marker with ["#"%char; "*"%char; "#"%char].
    cbn [app starts_with]. change (Ascii.eqb "*" "#") with false.
    apply andb_false_r.
  - apply rests_marker_space. reflexivity.
  - apply rests_marker_fail. change marker with ["#"%char; "*"%char; "#"%char].
    cbn [app starts_with] in *. exact H.
Qed.

Lemma search_after_lead r lead body :
  contains marker lead = false ->
  search (after_marker r) (lead ++ marker ++ body)
  = search (after_marker r) (marker ++ body).
Proof.
  induction lead as [|c lead IH]; intros H; [reflexivity|].
  cbn [contains] in H. apply orb_false_elim in H. destruct H as [H1 H2].
  change ((c :: lead) ++ marker ++ body) with (c :: lead ++ marker ++ body).
  rewrite search_skip by (apply rests_lead_fail; exact H1).
  apply IH. exact H2.
Qed.

Lemma ends_run_nil : ends_run [] = true.
Proof. reflexivity. Qed.

Lemma search_point_row r :
  wf_row r = true ->
  exists caps,
    search point_regex (render_row r)
    = Some {| group0 := render_row r; captures := caps |}.
Proof.
  intros Hr. destruct (search_point_render r [] Hr ends_run_nil) as [caps H].
  rewrite app_nil_r in H. eauto.
Qed.

Lemma scan_points_one line m row :
  search point_regex line = Some m -> points_of_match m = Ok row ->
  scan_points __init__ [line] = Ok [row].
Proof.
  intros Hs Hp. cbn [scan_points point_pattern __init__]. rewrite Hs, Hp. reflexivity.
Qed.

Lemma scan_params_one line key value caps g params :
  search param_regex line = Some {| group0 := g; captures := caps |} ->
  group 1 caps = Some key -> group 2 caps = Some value ->
  scan_params __init__ [line] params = <[key := value]> params.
Proof.
  intros Hs H1 H2. cbn [scan_params param_pattern __init__].
  rewrite Hs. cbn [captures]. rewrite H1, H2. reflexivity.
Qed.

(** C9.  The search is not anchored: text before the marker of a line, its
    first one, does not change what either pattern finds.  The match is
    the one found when the marker starts the line, so a written row gives
    its row and a written parameter line its key and value.  The text
    before the marker may be any text without a marker; it may end with
    the beginning of one. *)
Theorem search_not_anchored lead :
  contains marker lead = false ->
  (forall body,
     search point_regex (lead ++ marker ++ body)
     = search point_regex (marker ++ body)) /\
  (forall body,
     search param_regex (lead ++ marker ++ body)
     = search param_regex (marker ++ body)) /\
  (forall r, wf_row r = true ->
     scan_points __init__ [lead ++ render_row r]
     = Ok [map decimal_float (cells r)]) /\
  (forall p params, wf_param p = true ->
     scan_params __init__ [lead ++ render_param p] params
     = <[p_key p := p_value p]> params).
Proof.
  intros H. split; [|split; [|split]].
  - intros body. rewrite point_regex_eq. apply (search_after_lead numbers). exact H.
  - intros body. rewrite param_regex_eq. apply (search_after_lead param_rest). exact H.
  - intros r Hr. destruct (search_point_row r Hr) as [caps Hs].
    apply scan_points_one with (m := {| group0 := render_row r; captures := caps |}).
    + unfold render_row at 1. rewrite point_regex_eq.
      rewrite (search_after_lead numbers) by exact H.
      exact Hs.
    + apply points_of_row. exact Hr.
  - intros p params Hp.
    apply scan_params_one
      with (g := render_param p) (caps := [(2, p_value p); (1, p_key p)]);
      [|reflexivity|reflexivity].
    unfold render_param at 1. rewrite param_regex_eq.
    rewrite (search_after_lead param_rest) by exact H.
    exact (search_param_render p Hp).
Qed.

(** Two markers on a line: the search stops at the first match, and a
    second marker is text after it. *)
Lemma search_stops_at_first_match :
  option_map group0 (search point_regex (lit "#*# 9.9 " ++ lit "#*# 1.0, 2.0"))
  = Some (lit "#*# 9.9") /\
  option_map group0 (search point_regex (lit "#*# 1.0, 2.0"))
  = Some (lit "#*# 1.0, 2.0") /\
  scan_points __init__ [lit "#*# 9.9 " ++ lit "#*# 1.0, 2.0"]
  <> scan_points __init__ [lit "#*# 1.0, 2.0"] /\
  scan_params __init__ [lit "#*# a = b " ++ lit "#*# x_count = 5"] ∅
    !! lit "x_count" = None /\
  scan_params __init__ [lit "#*# x_count = 5"] ∅ !! lit "x_count"
  = Some (lit "5").
Proof.
  split; [vm_compute; reflexivity|]. split; [vm_compute; reflexivity|].
  split; [vm_compute; discriminate|]. split; vm_compute; reflexivity.
Qed.

(** ** Text after the numbers *)

(** Every line that the point pattern matches holds a written row, followed
    by text that ends its run, and gives the floats of that row. *)
Lemma point_match_is_row line m :
  search point_regex line = Some m ->
  exists pre r t,
    line = pre ++ render_row r ++ t /\ wf_row r = true /\ ends_run t = true /\
    group0 m = render_row r /\ points_of_match m = Ok (row_floats r).
Proof.
  intros H. apply search_found in H. destruct H as (pre & suf & e & -> & He & Hg).
  apply point_end_inv in He. destruct He as (r & Hr & -> & Ht).
  rewrite consumed_app in Hg.
  exists pre, r, e. repeat split; try assumption.
  destruct m as [g caps]. cbn [group0] in Hg. subst g.
  apply points_of_row. exact Hr.
Qed.

(** On a line that holds a written row followed by text that does not go
    on with the run of numbers, the pattern matches the row alone: the
    text after the last number of the run is dropped, and the line gives
    the row of the run. *)
Lemma point_run_row r t :
  wf_row r = true -> ends_run t = true ->
  (exists caps,
     search point_regex (render_row r ++ t)
     = Some {| group0 := render_row r; captures := caps |}) /\
  scan_points __init__ [render_row r ++ t] = Ok [map decimal_float (cells r)].
Proof.
  intros Hr Ht. destruct (search_point_render r t Hr Ht) as [caps Hs].
  split; [eauto|].
  apply scan_points_one with (m := {| group0 := render_row r; captures := caps |});
    [exact Hs|apply points_of_row; exact Hr].
Qed.

(** ** Written files *)

Lemma any_not_newline c : is_any c = true -> c <> "010"%char.
Proof. all_chars c. Qed.

Lemma split_join lines :
  lines <> [] ->
  Forall (fun l => forallb is_any l = true) lines ->
  split "010" (join ["010"%char] lines) = lines.
Proof.
  induction lines as [|p [|q ps] IH]; intros Hne Hall; [congruence| |].
  - cbn [join]. apply split_no_sep.
    apply Forall_cons_iff in Hall. destruct Hall as [Hp _].
    apply (forallb_not_In is_any); [apply any_not_newline|exact Hp].
  - apply Forall_cons_iff in Hall. destruct Hall as [Hp Hall].
    change (join ["010"%char] (p :: q :: ps))
      with (p ++ "010"%char :: join ["010"%char] (q :: ps)).
    rewrite split_app
      by (apply (forallb_not_In is_any); [apply any_not_newline|exact Hp]).
    f_equal. apply IH; [discriminate|exact Hall].
Qed.

Lemma wf_line_row r :
  wf_line (RowLine r) = true -> wf_row r = true.
Proof. unfold wf_line. intros H. apply andb_prop in H. apply H. Qed.

Lemma wf_line_param p :
  wf_line (ParamLine p) = true -> wf_param p = true /\ no_hash (p_value p) = true.
Proof.
  unfold wf_line. intros H. apply andb_prop in H. destruct H as [H _].
  apply andb_prop in H. exact H.
Qed.

Lemma scan_points_written ls :
  Forall (fun l => wf_line l = true) ls ->
  scan_points __init__ (map render_line ls) = Ok (map row_floats (rows_of ls)).
Proof.
  induction ls as [|l rest IH]; intros Hall; [reflexivity|].
  apply Forall_cons_iff in Hall. destruct Hall as [Hl Hall].
  specialize (IH Hall).
  cbn [map scan_points point_pattern __init__].
  change (point_pattern __init__) with point_regex in IH.
  destruct l as [r|p]; cbn [render_line rows_of map].
  - apply wf_line_row in Hl. destruct (search_point_row r Hl) as [caps ->].
    rewrite (points_of_row r caps Hl). cbn [bind].
    fold (scan_points __init__ (map render_line rest)). rewrite IH. reflexivity.
  - apply wf_line_param in Hl. destruct Hl as [Hp Hv].
    rewrite (search_point_param p Hp Hv). exact IH.
Qed.

Lemma scan_params_written key ls : forall params,
  Forall (fun l => wf_line l = true) ls ->
  scan_params __init__ (map render_line ls) params !! key
  = match declared ls key with
    | Some v => Some v
    | None => params !! key
    end.
Proof.
  induction ls as [|l rest IH]; intros params Hall; [reflexivity|].
  apply Forall_cons_iff in Hall. destruct Hall as [Hl Hall].
  cbn [map scan_params param_pattern __init__ declared].
  destruct l as [r|p]; cbn [render_line].
  - apply wf_line_row in Hl. rewrite (search_param_row r Hl).
    rewrite (IH params Hall). destruct (declared rest key); reflexivity.
  - apply wf_line_param in Hl. destruct Hl as [Hp _].
    rewrite (search_param_render p Hp). cbn [captures group Nat.eqb].
    rewrite (IH _ Hall). destruct (declared rest key) as [v|]; [reflexivity|].
    unfold str_eqb. destruct (decide (p_key p = key)) as [E|E].
    + rewrite bool_decide_eq_true_2 by exact E. subst key. apply lookup_insert_eq.
    + rewrite bool_decide_eq_false_2 by exact E. apply lookup_insert_ne. exact E.
Qed.

Lemma same_length_all (rows : list (list float)) n :
  Forall (fun r => length r = n) rows -> same_length rows = true.
Proof.
  destruct rows as [|r rs]; [reflexivity|].
  intros H. apply Forall_cons_iff in H. destruct H as [Hr Hrs].
  cbn [same_length]. apply forallb_forall. intros x Hx.
  rewrite Forall_forall in Hrs. apply list_elem_of_In in Hx.
  rewrite (Hrs x Hx), Hr. apply Nat.eqb_refl.
Qed.

Lemma np_array_rectangular np rows n :
  rows <> [] -> Forall (fun r => length r = n) rows ->
  np_array np rows
  = Ok (FloatArray [Z.of_nat (length rows); Z.of_nat n] (concat rows)).
Proof.
  intros Hne Hall. unfold np_array. rewrite (same_length_all rows n Hall).
  destruct rows as [|r rs]; [congruence|].
  apply Forall_cons_iff in Hall. destruct Hall as [-> _]. reflexivity.
Qed.

Lemma has_keys params xs ys a b c d :
  params !! lit "x_count" = Some xs -> params !! lit "y_count" = Some ys ->
  params !! lit "min_x" = Some a -> params !! lit "max_x" = Some b ->
  params !! lit "min_y" = Some c -> params !! lit "max_y" = Some d ->
  forallb (has_key params) required_params = true.
Proof.
  intros H1 H2 H3 H4 H5 H6. unfold required_params, has_key. cbn [forallb].
  rewrite H1, H2, H3, H4, H5, H6.
  rewrite !bool_decide_eq_true_2 by eauto. reflexivity.
Qed.

(** The body after the two loops, for a dictionary that has the six keys
    with values that convert. *)
Lemma parse_body_params np content rows xs ys a b c d xc yc fa fb fc fd :
  scan_points __init__ (split "010" content) = Ok rows ->
  let params := scan_params __init__ (split "010" content) ∅ in
  params !! lit "x_count" = Some xs -> python_int xs = Some xc ->
  params !! lit "y_count" = Some ys -> python_int ys = Some yc ->
  params !! lit "min_x" = Some a -> python_float a = Some fa ->
  params !! lit "max_x" = Some b -> python_float b = Some fb ->
  params !! lit "min_y" = Some c -> python_float c = Some fc ->
  params !! lit "max_y" = Some d -> python_float d = Some fd ->
  parse_body np __init__ content
  = (height_matrix <- np_array np rows ;;
     Ok {| matrix := height_matrix; x_count := xc; y_count := yc;
           min_x := fa; max_x := fb; min_y := fc; max_y := fd |}).
Proof.
  intros Hrows params H1 P1 H2 P2 H3 P3 H4 P4 H5 P5 H6 P6.
  unfold parse_body. rewrite Hrows. cbn [bind]. fold params.
  rewrite (has_keys params xs ys a b c d) by assumption. cbn [negb].
  destruct (np_array np rows) as [arr|e]; [|reflexivity]. cbn [bind].
  unfold item, py_int, py_float.
  rewrite H1, H2, H3, H4, H5, H6. cbn [or_raise bind].
  rewrite P1, P2, P3, P4, P5, P6. reflexivity.
Qed.

Lemma wf_lines_one_line ls :
  Forall (fun l => wf_line l = true) ls ->
  Forall (fun l => forallb is_any l = true) (map render_line ls).
Proof.
  intros H. apply Forall_map. eapply Forall_impl; [exact H|].
  intros l Hl. unfold wf_line in Hl. apply andb_prop in Hl. apply Hl.
Qed.

Lemma rows_of_nonempty ls : rows_of ls <> [] -> map render_line ls <> [].
Proof. destruct ls; [intros H; elim H; reflexivity|discriminate]. Qed.

Lemma declared_lookup ls key v :
  Forall (fun l => wf_line l = true) ls ->
  declared ls key = Some v ->
  scan_params __init__ (map render_line ls) ∅ !! key = Some v.
Proof.
  intros Hall H. rewrite scan_params_written by exact Hall. rewrite H. reflexivity.
Qed.

(** C2.  A file of well-formed lines with N >= 1 rows of M numbers each,
    whose last declarations of x_count and y_count read as N and M and
    whose last declarations of the four bounds read as floats, parses to
    the mesh of those values: the matrix has shape (N, M) and holds the
    rows in the order of their lines and the numbers in the order of each
    line.  That mesh is valid when every value is finite and of magnitude
    at most 10. *)
Theorem parse_well_formed_file np ls w (N M : nat)
  xs ys a b c d fa fb fc fd :
  Forall (fun l => wf_line l = true) ls ->
  length (rows_of ls) = N -> (0 < N)%nat ->
  Forall (fun r => length (cells r) = M) (rows_of ls) ->
  declared ls (lit "x_count") = Some xs -> python_int xs = Some (Z.of_nat N) ->
  declared ls (lit "y_count") = Some ys -> python_int ys = Some (Z.of_nat M) ->
  declared ls (lit "min_x") = Some a -> python_float a = Some fa ->
  declared ls (lit "max_x") = Some b -> python_float b = Some fb ->
  declared ls (lit "min_y") = Some c -> python_float c = Some fc ->
  declared ls (lit "max_y") = Some d -> python_float d = Some fd ->
  let grid := map row_floats (rows_of ls) in
  let mesh := {| matrix := FloatArray [Z.of_nat N; Z.of_nat M] (concat grid);
                 x_count := Z.of_nat N; y_count := Z.of_nat M;
                 min_x := fa; max_x := fb; min_y := fc; max_y := fd |} in
  parse_config_file np __init__ (file_text ls) w = (Ok (Some mesh), w) /\
  length grid = N /\
  Forall (fun row => length row = M) grid /\
  (Forall (Forall (fun v => in_bounds v = true)) grid ->
   validate_mesh_data __init__ mesh = true).
Proof.
  intros Hall HN Hpos HM H1 P1 H2 P2 H3 P3 H4 P4 H5 P5 H6 P6 grid mesh.
  assert (rows_of ls <> []) as Hne by (intros E; rewrite E in HN; simpl in HN; lia).
  assert (length grid = N) as Hlen by (unfold grid; rewrite length_map; exact HN).
  assert (Forall (fun row => length row = M) grid) as Hcols.
  { unfold grid. apply Forall_map. eapply Forall_impl; [exact HM|].
    intros r Hr. unfold row_floats. rewrite length_map. exact Hr. }
  assert (split "010" (file_text ls) = map render_line ls) as Hsplit.
  { unfold file_text. apply split_join;
      [apply rows_of_nonempty; exact Hne|apply wf_lines_one_line; exact Hall]. }
  split; [|split; [exact Hlen|split; [exact Hcols|]]].
  - apply parse_config_file_ok.
    rewrite (parse_body_params np (file_text ls) grid xs ys a b c d
               (Z.of_nat N) (Z.of_nat M) fa fb fc fd);
      try (rewrite Hsplit; apply declared_lookup; assumption); try assumption.
    + rewrite (np_array_rectangular np grid M); [|unfold grid; destruct (rows_of ls); [congruence|discriminate]|exact Hcols].
      rewrite Hlen. reflexivity.
    + rewrite Hsplit. apply scan_points_written. exact Hall.
  - intros Hb.
    apply (validate_in_bounds __init__ mesh [Z.of_nat N; Z.of_nat M] (concat grid));
      [reflexivity|reflexivity|].
    apply Forall_concat. exact Hb.
Qed.

(** ** Ragged rows *)

Lemma same_length_false_nonempty (rows : list (list float)) :
  same_length rows = false -> exists r rs, rows = r :: rs.
Proof. destruct rows; [discriminate|eauto]. Qed.

(** C1, as the code has it.  The parser checks no row length itself; on
    rows of different lengths the outcome is the one of [np.array].  With
    NumPy 1.24 or later the conversion raises, the handler prints the
    diagnostic and the call returns none; the validator is never reached.
    With an older NumPy the call returns a mesh whose matrix is a
    one-dimensional array of rows, which the validator refuses.  *)
Theorem parse_ragged_rows np content w rows xs ys a b c d xc yc fa fb fc fd :
  scan_points __init__ (split "010" content) = Ok rows ->
  same_length rows = false ->
  let params := scan_params __init__ (split "010" content) ∅ in
  params !! lit "x_count" = Some xs -> python_int xs = Some xc ->
  params !! lit "y_count" = Some ys -> python_int ys = Some yc ->
  params !! lit "min_x" = Some a -> python_float a = Some fa ->
  params !! lit "max_x" = Some b -> python_float b = Some fb ->
  params !! lit "min_y" = Some c -> python_float c = Some fc ->
  params !! lit "max_y" = Some d -> python_float d = Some fd ->
  match np with
  | NumPy_1_24 =>
      parse_config_file np __init__ content w
      = (Ok None,
         {| stdout := stdout w ++ [Error_parsing_mesh_data ValueError_inhomogeneous] |})
  | NumPy_legacy =>
      let mesh := {| matrix := ObjectArray rows; x_count := xc; y_count := yc;
                     min_x := fa; max_x := fb; min_y := fc; max_y := fd |} in
      parse_config_file np __init__ content w = (Ok (Some mesh), w) /\
      validate_mesh_data __init__ mesh = false
  end.
Proof.
  intros Hrows Hrag params H1 P1 H2 P2 H3 P3 H4 P4 H5 P5 H6 P6.
  pose proof (parse_body_params np content rows xs ys a b c d xc yc fa fb fc fd
                Hrows H1 P1 H2 P2 H3 P3 H4 P4 H5 P5 H6 P6) as Hbody.
  destruct (same_length_false_nonempty rows Hrag) as (r & rs & E).
  unfold np_array in Hbody. rewrite E in Hbody. rewrite <- E in Hbody.
  rewrite Hrag in Hbody.
  destruct np; cbn [bind] in Hbody.
  - apply parse_config_file_raise; [exact Hbody|apply inhomogeneous_printable].
  - split; [apply parse_config_file_ok; exact Hbody|].
    apply validate_shape. discriminate.
Qed.

(** * Further properties of the code *)

(** ** Floats read from decimal numerals

    Rounding a decimal numeral gives a zero, a finite value or an
    infinity, never a not-a-number. *)

Lemma shr_1_nonneg mrs : (0 <= shr_m mrs)%Z -> (0 <= shr_m (shr_1 mrs))%Z.
Proof.
  destruct mrs as [m r s]. cbn [shr_m shr_1].
  destruct m as [|[p|p|]|[p|p|]]; cbn [shr_m]; lia.
Qed.

Lemma iter_pos_nonneg n : forall mrs,
  (0 <= shr_m mrs)%Z -> (0 <= shr_m (SpecFloat.iter_pos shr_1 n mrs))%Z.
Proof.
  induction n as [n IH|n IH|]; intros mrs H; cbn [SpecFloat.iter_pos].
  - apply IH, IH, shr_1_nonneg, H.
  - apply IH, IH, H.
  - apply shr_1_nonneg, H.
Qed.

Lemma shr_record_of_loc_m m l : shr_m (shr_record_of_loc m l) = m.
Proof. destruct l as [|[]]; reflexivity. Qed.

Lemma shr_fexp_nonneg pr em m e l :
  (0 <= m)%Z -> (0 <= shr_m (fst (shr_fexp pr em m e l)))%Z.
Proof.
  intros H. unfold shr_fexp, shr.
  destruct (fexp pr em (Zdigits2 m + e) - e)%Z; cbn [fst];
    try (rewrite shr_record_of_loc_m; exact H).
  apply iter_pos_nonneg. rewrite shr_record_of_loc_m. exact H.
Qed.

Lemma round_nearest_even_nonneg m l : (0 <= m)%Z -> (0 <= round_nearest_even m l)%Z.
Proof.
  intros H. unfold round_nearest_even. destruct l as [|[]]; try lia.
  destruct (Z.even m); lia.
Qed.

Lemma binary_round_aux_not_nan pr em sx m e l :
  (0 <= m)%Z -> is_nan (binary_round_aux pr em sx m e l) = false.
Proof.
  intros H. unfold binary_round_aux.
  pose proof (shr_fexp_nonneg pr em m e l H) as H1.
  destruct (shr_fexp pr em m e l) as [mrs' e']. cbn [fst] in H1.
  pose proof (shr_fexp_nonneg pr em _ e' loc_Exact
                (round_nearest_even_nonneg _ (loc_of_shr_record mrs') H1)) as H2.
  destruct (shr_fexp pr em (round_nearest_even (shr_m mrs') (loc_of_shr_record mrs')) e' loc_Exact)
    as [mrs'' e'']. cbn [fst] in H2.
  destruct (shr_m mrs'') as [|p|p]; [reflexivity| |lia].
  destruct (e'' <=? em - pr)%Z; reflexivity.
Qed.

Lemma float_of_decimal_not_nan neg m e : is_nan (float_of_decimal neg m e) = false.
Proof.
  unfold float_of_decimal. destruct m as [|p|p]; try reflexivity.
  destruct e as [|k|k].
  - unfold binary_round. destruct (shl_align _ _ _) as [mz ez].
    apply binary_round_aux_not_nan. lia.
  - unfold binary_round. destruct (shl_align _ _ _) as [mz ez].
    apply binary_round_aux_not_nan. lia.
  - unfold SFdiv.
    destruct (SFdiv_core_binary prec emax (Z.pos p) 0 (Z.pos (10 ^ k)) 0) as [[mz ez] lz] eqn:E.
    apply binary_round_aux_not_nan.
    unfold SFdiv_core_binary in E.
    set (s := (0 - 0 - Z.min (fexp prec emax (Zdigits2 (Z.pos p) + 0 - (Zdigits2 (Z.pos (10 ^ k)) + 0))) (0 - 0))%Z) in E.
    set (m' := match s with Z.pos _ => Z.shiftl (Z.pos p) s | 0%Z => Z.pos p | Z.neg _ => 0%Z end) in E.
    assert (0 <= m')%Z as Hm'.
    { unfold m'. destruct s; try lia. apply Z.shiftl_nonneg. lia. }
    pose proof (Z.div_pos m' (Z.pos (10 ^ k)) Hm' eq_refl) as Hq.
    unfold Z.div in Hq.
    destruct (Z.div_eucl m' (Z.pos (10 ^ k))) as [q r]. injection E as <- _ _. exact Hq.
Qed.

(** ** The first loop *)

Lemma decimal_float_not_nan d : is_nan (decimal_float d) = false.
Proof. apply float_of_decimal_not_nan. Qed.

Lemma row_floats_not_nan r :
  Forall (fun v => is_nan v = false) (row_floats r).
Proof.
  unfold row_floats. apply Forall_map, Forall_forall.
  intros d _. apply decimal_float_not_nan.
Qed.

Lemma is_row_line_some line m : search point_regex line = Some m -> is_row_line line = true.
Proof. intros H. unfold is_row_line. rewrite H. reflexivity. Qed.

Lemma is_row_line_none line : search point_regex line = None -> is_row_line line = false.
Proof. intros H. unfold is_row_line. rewrite H. reflexivity. Qed.

Lemma scan_points_rows lines :
  exists rows,
    scan_points __init__ lines = Ok rows /\
    length rows = length (List.filter is_row_line lines) /\
    Forall (fun row => row <> [] /\ Forall (fun v => is_nan v = false) row) rows.
Proof.
  induction lines as [|line rest (rows & IH & Hlen & Hall)].
  - exists []. repeat split. constructor.
  - cbn [scan_points point_pattern __init__ List.filter].
    change (point_pattern __init__) with point_regex in IH.
    destruct (search point_regex line) as [m|] eqn:E.
    + destruct (points_of_match_ok _ _ E) as (r & _ & _ & ->).
      cbn [bind]. fold (scan_points __init__ rest). rewrite IH. cbn [bind].
      exists (map decimal_float (cells r) :: rows).
      rewrite (is_row_line_some _ _ E). cbn [length]. rewrite Hlen.
      repeat split. constructor; [|exact Hall].
      split; [discriminate|apply row_floats_not_nan].
    + fold (scan_points __init__ rest). rewrite IH.
      exists rows. rewrite (is_row_line_none _ E). repeat split; assumption.
Qed.

(** X1.  The first loop never raises: whatever the lines are, every line
    that the point pattern matches gives one row, the rows hold at least
    one value each and no not-a-number.  The [float] conversion of source
    line 49 cannot fail. *)
Theorem scan_points_never_raises lines :
  exists rows,
    scan_points __init__ lines = Ok rows /\
    length rows = length (List.filter is_row_line lines) /\
    Forall (fun row => row <> [] /\ Forall (fun v => is_nan v = false) row) rows.
Proof. apply scan_points_rows. Qed.

(** ** What the body can raise *)

Lemma has_key_all params :
  forallb (has_key params) required_params = true ->
  forall key, In key required_params -> exists v, params !! key = Some v.
Proof.
  intros H key Hin. rewrite forallb_forall in H. specialize (H key Hin).
  unfold has_key in H. apply bool_decide_eq_true_1 in H. exact H.
Qed.

Lemma has_key_some_missing params :
  forallb (has_key params) required_params = false ->
  exists key, In key required_params /\ params !! key = None.
Proof.
  intros H.
  assert (exists key, In key required_params /\ has_key params key = false) as (key & Hin & Hk).
  { induction required_params as [|k ks IH]; [discriminate|].
    cbn [forallb] in H. apply andb_false_iff in H. destruct H as [H|H].
    - exists k. split; [left; reflexivity|exact H].
    - destruct (IH H) as (key & Hin & Hk). exists key. split; [right; exact Hin|exact Hk]. }
  exists key. split; [exact Hin|].
  unfold has_key in Hk. apply bool_decide_eq_false_1 in Hk.
  destruct (params !! key) as [v|]; [|reflexivity]. elim Hk. eauto.
Qed.

(** The body, once the six keys are known to be there. *)
Lemma parse_body_keys np content rows params xs ys a b c d :
  scan_points __init__ (split "010" content) = Ok rows ->
  params = scan_params __init__ (split "010" content) ∅ ->
  params !! lit "x_count" = Some xs -> params !! lit "y_count" = Some ys ->
  params !! lit "min_x" = Some a -> params !! lit "max_x" = Some b ->
  params !! lit "min_y" = Some c -> params !! lit "max_y" = Some d ->
  parse_body np __init__ content
  = (height_matrix <- np_array np rows ;;
     xc <- py_int xs ;; yc <- py_int ys ;;
     fa <- py_float a ;; fb <- py_float b ;;
     fc <- py_float c ;; fd <- py_float d ;;
     Ok {| matrix := height_matrix; x_count := xc; y_count := yc;
           min_x := fa; max_x := fb; min_y := fc; max_y := fd |}).
Proof.
  intros Hrows -> H1 H2 H3 H4 H5 H6. unfold parse_body. rewrite Hrows. cbn [bind].
  rewrite (has_keys _ xs ys a b c d) by assumption. cbn [negb].
  unfold item. rewrite H1, H2, H3, H4, H5, H6. reflexivity.
Qed.

(** X2.  The exceptions of the body, all of them: the missing-parameters
    error when a required key has no entry; the NumPy error on rows of
    different lengths (NumPy 1.24 or later); the [int] error on the value
    of x_count or y_count; the [float] error on the value of a bound.  No
    [KeyError] and no conversion error on a number of a row. *)
Theorem parse_body_failures np content e :
  parse_body np __init__ content = Raise e ->
  let params := scan_params __init__ (split "010" content) ∅ in
  (e = missing_parameters /\
   exists key, In key required_params /\ params !! key = None) \/
  (e = ValueError_inhomogeneous /\ np = NumPy_1_24 /\
   exists rows, scan_points __init__ (split "010" content) = Ok rows /\
                same_length rows = false) \/
  (exists key v, In key [lit "x_count"; lit "y_count"] /\
                 params !! key = Some v /\ python_int v = None /\
                 e = ValueError_int v) \/
  (exists key v, In key [lit "min_x"; lit "max_x"; lit "min_y"; lit "max_y"] /\
                 params !! key = Some v /\ python_float v = None /\
                 e = ValueError_float v).
Proof.
  intros H params.
  destruct (scan_points_ok (split "010" content)) as [rows Hrows].
  destruct (forallb (has_key params) required_params) eqn:Hk.
  - pose proof (has_key_all params Hk) as Hall.
    destruct (Hall (lit "x_count")) as [xs H1]; [vm_compute; tauto|].
    destruct (Hall (lit "y_count")) as [ys H2]; [vm_compute; tauto|].
    destruct (Hall (lit "min_x")) as [a H3]; [vm_compute; tauto|].
    destruct (Hall (lit "max_x")) as [b H4]; [vm_compute; tauto|].
    destruct (Hall (lit "min_y")) as [c H5]; [vm_compute; tauto|].
    destruct (Hall (lit "max_y")) as [d H6]; [vm_compute; tauto|].
    rewrite (parse_body_keys np content rows params xs ys a b c d Hrows eq_refl
               H1 H2 H3 H4 H5 H6) in H.
    destruct (np_array np rows) as [arr|e0] eqn:Enp.
    + cbn [bind] in H. right. right. unfold py_int, py_float in H.
      destruct (python_int xs) as [xc|] eqn:P1;
        [|left; exists (lit "x_count"), xs; cbn [or_raise bind] in H;
          injection H as <-; repeat split; try assumption; left; reflexivity].
      destruct (python_int ys) as [yc|] eqn:P2;
        [|left; exists (lit "y_count"), ys; cbn [or_raise bind] in H;
          injection H as <-; repeat split; try assumption; right; left; reflexivity].
      right.
      destruct (python_float a) as [fa|] eqn:P3;
        [|exists (lit "min_x"), a; cbn [or_raise bind] in H;
          injection H as <-; repeat split; try assumption; left; reflexivity].
      destruct (python_float b) as [fb|] eqn:P4;
        [|exists (lit "max_x"), b; cbn [or_raise bind] in H;
          injection H as <-; repeat split; try assumption; right; left; reflexivity].
      destruct (python_float c) as [fc|] eqn:P5;
        [|exists (lit "min_y"), c; cbn [or_raise bind] in H;
          injection H as <-; repeat split; try assumption;
          right; right; left; reflexivity].
      destruct (python_float d) as [fd|] eqn:P6;
        [|exists (lit "max_y"), d; cbn [or_raise bind] in H;
          injection H as <-; repeat split; try assumption;
          right; right; right; left; reflexivity].
      cbn [or_raise bind] in H. discriminate.
    + cbn [bind] in H. injection H as <-. right. left.
      unfold np_array in Enp. destruct rows as [|r rs]; [discriminate|].
      destruct (same_length (r :: rs)) eqn:Es; [discriminate|].
      destruct np; [|discriminate]. injection Enp as <-.
      repeat split. exists (r :: rs). split; assumption.
  - left. unfold parse_body in H. rewrite Hrows in H. cbn [bind] in H.
    fold params in H. rewrite Hk in H. cbn [negb] in H. injection H as <-.
    split; [reflexivity|]. apply has_key_some_missing. exact Hk.
Qed.

(** ** The validator, in full *)

Lemma not_gt_ten_leb v :
  is_finite v = true -> SFltb ten (SFabs v) = false -> SFleb (SFabs v) ten = true.
Proof.
  rewrite ten_eq. destruct v as [s|s| |s m e]; try discriminate; [reflexivity|].
  intros _. unfold SFleb, SFltb, SFabs, SFcompare.
  rewrite (Z.compare_antisym e (-49)).
  pose proof (Pos.compare_cont_antisym m 5629499534213120 Eq) as Ha.
  change (CompOpp (PosDef.Pos.compare_cont Eq m 5629499534213120)
          = PosDef.Pos.compare_cont Eq 5629499534213120 m) in Ha.
  rewrite <- Ha.
  destruct (e ?= -49)%Z; cbn [CompOpp];
    try destruct (PosDef.Pos.compare_cont Eq m 5629499534213120);
    cbn [CompOpp]; congruence.
Qed.

Lemma in_bounds_iff v :
  in_bounds v = true <->
  SFltb ten (SFabs v) = false /\ is_nan v = false /\ is_inf v = false.
Proof.
  split; [apply in_bounds_checks|].
  intros (H1 & H2 & H3). unfold in_bounds.
  assert (is_finite v = true) as Hf by (destruct v; try reflexivity; discriminate).
  rewrite Hf. apply not_gt_ten_leb; assumption.
Qed.

Lemma existsb_false_Forall {A} (p : A -> bool) l :
  existsb p l = false <-> Forall (fun x => p x = false) l.
Proof.
  induction l as [|x l IH]; cbn [existsb].
  - split; [constructor|reflexivity].
  - rewrite orb_false_iff, Forall_cons_iff, IH. reflexivity.
Qed.

Lemma checks_in_bounds data :
  negb (any_abs_gt_10 data) && negb (any_isnan data || any_isinf data) = true
  <-> Forall (fun v => in_bounds v = true) data.
Proof.
  rewrite andb_true_iff, !negb_true_iff, orb_false_iff.
  unfold any_abs_gt_10, any_isnan, any_isinf. rewrite !existsb_false_Forall.
  rewrite !Forall_forall. setoid_rewrite in_bounds_iff.
  split.
  - intros (H1 & H2 & H3) v Hv. auto.
  - intros H. repeat split; intros v Hv; apply (H v Hv).
Qed.

Lemma validate_true_iff self m :
  validate_mesh_data self m = true <->
  exists data,
    matrix m = FloatArray [x_count m; y_count m] data /\
    Forall (fun v => in_bounds v = true) data.
Proof.
  split.
  - intros H.
    destruct (decide (shape (matrix m) = [x_count m; y_count m])) as [Hs|Hs];
      [|rewrite (validate_shape self m Hs) in H; discriminate].
    destruct (matrix m) as [sh data|rows] eqn:Em;
      [|exfalso; exact (object_shape_mismatch _ _ _ Hs)].
    cbn [shape] in Hs. subst sh.
    rewrite (validate_float self m _ data Em eq_refl) in H.
    exists data. split; [reflexivity|]. apply checks_in_bounds. exact H.
  - intros (data & Em & Hall).
    apply (validate_in_bounds self m _ data Em eq_refl Hall).
Qed.

(** X3.  [validate_mesh_data] returns true exactly for a [float64] matrix
    of shape (x_count, y_count) all of whose values are finite and of
    magnitude at most 10.  The four bounds of the mesh play no part. *)
Theorem validate_mesh_data_iff self m :
  validate_mesh_data self m = true <->
  exists data,
    matrix m = FloatArray [x_count m; y_count m] data /\
    Forall (fun v => in_bounds v = true) data.
Proof. apply validate_true_iff. Qed.

(** ** A parsed mesh *)

Lemma parse_body_inv np content m :
  parse_body np __init__ content = Ok m ->
  exists rows,
    scan_points __init__ (split "010" content) = Ok rows /\
    np_array np rows = Ok (matrix m).
Proof.
  intros H. destruct (scan_points_ok (split "010" content)) as [rows Hrows].
  exists rows. split; [exact Hrows|].
  unfold parse_body in H. rewrite Hrows in H. cbn [bind] in H.
  destruct (negb _); [discriminate|].
  destruct (np_array np rows) as [arr|e]; [|discriminate]. cbn [bind] in H.
  repeat match type of H with
         | context [bind ?x _] => destruct x; cbn [bind] in H; [|discriminate]
         end.
  injection H as <-. reflexivity.
Qed.

Lemma parse_config_file_some np content w w' m :
  parse_config_file np __init__ content w = (Ok (Some m), w') ->
  parse_body np __init__ content = Ok m.
Proof.
  intros H. pose proof (parse_config_file_outcomes np __init__ content w) as Ho.
  destruct (parse_body np __init__ content) as [m'|e]; [congruence|].
  destruct (forallb can_encode (echoed (Error_parsing_mesh_data e)));
    rewrite Ho in H; discriminate.
Qed.

Lemma scan_points_no_nan lines rows :
  scan_points __init__ lines = Ok rows ->
  Forall (fun row => row <> [] /\ Forall (fun v => is_nan v = false) row) rows.
Proof.
  intros H. destruct (scan_points_rows lines) as (rows' & H' & _ & Hall).
  rewrite H in H'. injection H' as <-. exact Hall.
Qed.

Lemma any_isinf_gt data : any_abs_gt_10 data = false -> any_isinf data = false.
Proof.
  unfold any_abs_gt_10, any_isinf. rewrite !existsb_false_Forall.
  intros H. eapply Forall_impl; [exact H|].
  intros v Hv. cbn beta in Hv |- *. destruct (is_inf v) eqn:E; [|reflexivity].
  pose proof (inf_abs_gt_10 v E) as Hi. congruence.
Qed.

Lemma any_isnan_concat rows :
  Forall (fun row => row <> [] /\ Forall (fun v => is_nan v = false) row) rows ->
  any_isnan (concat rows) = false.
Proof.
  intros H. unfold any_isnan. apply existsb_false_Forall.
  induction H as [|row rows [_ Hrow] _ IH]; [constructor|].
  cbn [concat]. apply Forall_app. split; assumption.
Qed.

Lemma np_array_cases np rows arr :
  np_array np rows = Ok arr ->
  (rows = [] /\ arr = FloatArray [0%Z] []) \/
  (exists r rs, rows = r :: rs /\ same_length rows = true /\
                arr = FloatArray [Z.of_nat (length rows); Z.of_nat (length r)]
                                 (concat rows)) \/
  (same_length rows = false /\ np = NumPy_legacy /\ arr = ObjectArray rows).
Proof.
  unfold np_array. destruct rows as [|r rs].
  - intros [= <-]. left. split; reflexivity.
  - destruct (same_length (r :: rs)) eqn:E.
    + intros [= <-]. right. left. exists r, rs. repeat split.
    + destruct np; [discriminate|]. intros [= <-]. right. right. repeat split.
Qed.

Lemma parsed_validate np content w w' m self :
  parse_config_file np __init__ content w = (Ok (Some m), w') ->
  validate_mesh_data self m
  = bool_decide (shape (matrix m) = [x_count m; y_count m])
    && negb (any_abs_gt_10 (elements (matrix m))).
Proof.
  intros H. apply parse_config_file_some, parse_body_inv in H.
  destruct H as (rows & Hrows & Hnp).
  pose proof (scan_points_no_nan _ _ Hrows) as Hnan.
  destruct (decide (shape (matrix m) = [x_count m; y_count m])) as [Hs|Hs].
  - rewrite bool_decide_eq_true_2 by exact Hs.
    destruct (matrix m) as [sh data|orows] eqn:Em;
      [|exfalso; revert Hs; apply object_shape_mismatch].
    cbn [shape] in Hs. subst sh.
    rewrite (validate_float self m _ data Em eq_refl).
    cbn [elements andb].
    assert (any_isnan data = false) as Hn.
    { destruct (np_array_cases np rows _ Hnp)
        as [[_ E]|[(r & rs & -> & _ & E)|(_ & _ & E)]]; try discriminate.
      assert (data = concat (r :: rs)) as -> by congruence.
      apply any_isnan_concat. exact Hnan. }
    rewrite Hn. cbn [orb].
    destruct (any_abs_gt_10 data) eqn:Eg; [reflexivity|].
    rewrite (any_isinf_gt _ Eg). reflexivity.
  - rewrite (validate_shape self m Hs), bool_decide_eq_false_2 by exact Hs.
    reflexivity.
Qed.

(** X4.  On a mesh that [parse_config_file] returned, the finiteness check
    of source line 101 never decides: the mesh is valid exactly when its
    shape is the declared one and no value has a magnitude above 10.  Its
    values come from decimal literals, so none is a not-a-number, and an
    infinity already fails the range check. *)
Theorem parsed_mesh_finiteness_check_idle np content w w' m self :
  parse_config_file np __init__ content w = (Ok (Some m), w') ->
  validate_mesh_data self m
  = bool_decide (shape (matrix m) = [x_count m; y_count m])
    && negb (any_abs_gt_10 (elements (matrix m))).
Proof. apply parsed_validate. Qed.

Lemma Forall_concat_iff {A} (P : A -> Prop) (ls : list (list A)) :
  Forall P (concat ls) <-> Forall (Forall P) ls.
Proof.
  induction ls as [|l ls IH]; cbn [concat].
  - split; constructor.
  - rewrite Forall_app, Forall_cons_iff, IH. reflexivity.
Qed.

Lemma same_length_cols (r : list float) rs (y : Z) :
  same_length (r :: rs) = true ->
  (Forall (fun row => Z.of_nat (length row) = y) (r :: rs)
   <-> Z.of_nat (length r) = y).
Proof.
  cbn [same_length]. rewrite forallb_forall. intros H.
  rewrite Forall_cons_iff. split; [tauto|].
  intros Hr. split; [exact Hr|]. apply Forall_forall. intros x Hx.
  apply list_elem_of_In in Hx. specialize (H x Hx).
  apply Nat.eqb_eq in H. rewrite H. exact Hr.
Qed.

Lemma cols_same_length (rows : list (list float)) (y : Z) :
  Forall (fun row => Z.of_nat (length row) = y) rows -> same_length rows = true.
Proof.
  intros H. apply (same_length_all rows (Z.to_nat y)).
  eapply Forall_impl; [exact H|]. intros r Hr. cbn beta in Hr. lia.
Qed.

Lemma parsed_valid_iff np content w w' m rows :
  parse_config_file np __init__ content w = (Ok (Some m), w') ->
  scan_points __init__ (split "010" content) = Ok rows ->
  (validate_mesh_data __init__ m = true <->
   rows <> [] /\
   x_count m = Z.of_nat (length rows) /\
   Forall (fun row => Z.of_nat (length row) = y_count m) rows /\
   Forall (Forall (fun v => in_bounds v = true)) rows).
Proof.
  intros H Hrows. apply parse_config_file_some, parse_body_inv in H.
  destruct H as (rows' & Hrows' & Hnp). rewrite Hrows in Hrows'.
  injection Hrows' as <-. rewrite validate_true_iff.
  destruct (np_array_cases np rows _ Hnp)
    as [[-> Em]|[(r & rs & -> & Hs & Em)|(Hs & _ & Em)]]; rewrite Em.
  - split; [intros (data & E & _); discriminate|intros (Hne & _); congruence].
  - rewrite <- Forall_concat_iff, (same_length_cols r rs _ Hs). split.
    + intros (data & E & Hall). injection E as Hx Hy <-.
      split; [discriminate|]. split; [symmetry; exact Hx|].
      split; [exact Hy|exact Hall].
    + intros (_ & Hx & Hy & Hall). exists (concat (r :: rs)).
      split; [rewrite Hx, Hy; reflexivity|exact Hall].
  - split; [intros (data & E & _); discriminate|].
    intros (_ & _ & Hy & _). apply cols_same_length in Hy. congruence.
Qed.

(** X5.  Parsing and then validating: the mesh that [parse_config_file]
    returned is valid exactly when the text has at least one row, x_count is
    the number of rows, every row has y_count numbers, and every number
    reads as a finite float of magnitude at most 10. *)
Theorem parsed_mesh_valid_iff np content w w' m rows :
  parse_config_file np __init__ content w = (Ok (Some m), w') ->
  scan_points __init__ (split "010" content) = Ok rows ->
  (validate_mesh_data __init__ m = true <->
   rows <> [] /\
   x_count m = Z.of_nat (length rows) /\
   Forall (fun row => Z.of_nat (length row) = y_count m) rows /\
   Forall (Forall (fun v => in_bounds v = true)) rows).
Proof. apply parsed_valid_iff. Qed.

(** ** No rows *)

Lemma scan_points_no_row_line lines :
  (forall line, In line lines -> is_row_line line = false) ->
  scan_points __init__ lines = Ok [].
Proof.
  induction lines as [|line rest IH]; intros H; [reflexivity|].
  cbn [scan_points point_pattern __init__].
  pose proof (H line (or_introl eq_refl)) as Hl. unfold is_row_line in Hl.
  destruct (search point_regex line); [discriminate|].
  apply IH. intros l Hin. apply H. right. exact Hin.
Qed.

(** X6.  A text with the six parameters and no row line still parses: the
    mesh has the empty matrix of shape (0,), and it is never valid, whatever
    x_count and y_count declare (zero included). *)
Theorem parse_without_rows np content w xs ys a b c d xc yc fa fb fc fd :
  (forall line, In line (split "010" content) -> is_row_line line = false) ->
  let params := scan_params __init__ (split "010" content) ∅ in
  params !! lit "x_count" = Some xs -> python_int xs = Some xc ->
  params !! lit "y_count" = Some ys -> python_int ys = Some yc ->
  params !! lit "min_x" = Some a -> python_float a = Some fa ->
  params !! lit "max_x" = Some b -> python_float b = Some fb ->
  params !! lit "min_y" = Some c -> python_float c = Some fc ->
  params !! lit "max_y" = Some d -> python_float d = Some fd ->
  let mesh := {| matrix := FloatArray [0%Z] []; x_count := xc; y_count := yc;
                 min_x := fa; max_x := fb; min_y := fc; max_y := fd |} in
  parse_config_file np __init__ content w = (Ok (Some mesh), w) /\
  validate_mesh_data __init__ mesh = false.
Proof.
  intros Hno params H1 P1 H2 P2 H3 P3 H4 P4 H5 P5 H6 P6 mesh.
  split.
  - apply parse_config_file_ok.
    rewrite (parse_body_params np content [] xs ys a b c d xc yc fa fb fc fd
               (scan_points_no_row_line _ Hno) H1 P1 H2 P2 H3 P3 H4 P4 H5 P5 H6 P6).
    reflexivity.
  - apply validate_shape. discriminate.
Qed.

(** ** The dictionary *)

Lemma scan_params_app l1 : forall l2 params,
  scan_params __init__ (l1 ++ l2) params
  = scan_params __init__ l2 (scan_params __init__ l1 params).
Proof.
  induction l1 as [|line rest IH]; intros l2 params; [reflexivity|].
  cbn [app scan_params].
  destruct (search (param_pattern __init__) line) as [m|]; [|apply IH].
  destruct (group 1 (captures m)); [|apply IH].
  destruct (group 2 (captures m)); apply IH.
Qed.

(** X7.  The last declaration wins: the dictionary gives to a key the value
    of the last line that declares it, whatever the lines before it are and
    whatever they declare. *)
Theorem last_declaration_wins before p after params :
  wf_param p = true ->
  (forall line, In line after -> declared_key line <> Some (p_key p)) ->
  scan_params __init__ (before ++ render_param p :: after) params !! p_key p
  = Some (p_value p).
Proof.
  intros Hp Hafter. rewrite scan_params_app.
  cbn [scan_params param_pattern __init__].
  rewrite (search_param_render p Hp). cbn [captures group Nat.eqb].
  fold (scan_params __init__ after).
  rewrite scan_params_undeclared by exact Hafter. apply lookup_insert_eq.
Qed.

(** ** Lines that look like rows or parameters and are not *)

Lemma num_end_integer (neg : bool) ds t :
  digits ds = true -> not_fraction_next t = true ->
  num_end ((if neg then ["-"%char] else []) ++ ds ++ t) = None.
Proof.
  intros Hd Ht. destruct (digits_inv _ Hd) as (c & a & -> & Hc & Ha).
  assert (strip_minus ((if neg then ["-"%char] else []) ++ (c :: a) ++ t)
          = c :: a ++ t) as E.
  { destruct neg; [reflexivity|]. apply strip_minus_digit. exact Hc. }
  unfold num_end, num_tail. rewrite E. unfold unsigned_tail. rewrite Hc.
  rewrite drop_while_app by exact Ha.
  rewrite drop_while_stop.
  - destruct t as [|d [|e v]]; try reflexivity;
      cbn [not_fraction_next] in Ht; apply andb_true_iff in Ht;
      destruct Ht as [_ Ht]; apply negb_true_iff in Ht; rewrite Ht; reflexivity.
  - destruct t as [|d v]; [exact I|]. cbn [not_fraction_next] in Ht.
    apply andb_true_iff in Ht. destruct Ht as [Ht _].
    apply negb_true_iff in Ht. exact Ht.
Qed.

Lemma rests_numbers_nil s : num_end s = None -> rests numbers s = [].
Proof.
  intros H. rewrite rests_numbers, H. cbn [app].
  apply rests_number_nil. exact H.
Qed.

Lemma digit_not_hash c : is_digit c = true -> c <> "#"%char.
Proof. all_chars c. Qed.

Lemma integer_row_none lead neg ds t :
  forallb is_space lead = true -> digits ds = true ->
  not_fraction_next t = true -> no_hash t = true ->
  search point_regex (integer_line lead neg ds t) = None.
Proof.
  intros Hl Hd Ht Hh. unfold integer_line. rewrite point_regex_eq.
  apply search_marker_line.
  - intros Hin. apply in_app_or in Hin. destruct Hin as [Hin|Hin].
    { revert Hin. apply (forallb_not_In is_space); [apply space_not_hash|exact Hl]. }
    apply in_app_or in Hin. destruct Hin as [Hin|Hin].
    { destruct neg; [|destruct Hin]. destruct Hin as [Hin|[]]. discriminate. }
    apply in_app_or in Hin. destruct Hin as [Hin|Hin].
    { revert Hin. apply (forallb_not_In is_digit); [apply digit_not_hash|].
      apply digits_forallb. exact Hd. }
    revert Hin. apply no_hash_not_In. exact Hh.
  - rewrite <- point_regex_eq, rests_point_regex, starts_with_app, skipn_length_app.
    pose proof (num_end_integer neg ds t Hd Ht) as Hn.
    destruct (digits_inv _ Hd) as (c & a & Eds & Hc & Ha).
    assert (exists x y, (if neg then ["-"%char] else []) ++ ds ++ t = x :: y
                        /\ is_space x = false) as (x & y & Ex & Hx).
    { destruct neg.
      - exists "-"%char, (ds ++ t). split; reflexivity.
      - exists c, (a ++ t). rewrite Eds. split; [reflexivity|].
        apply digit_not_space. exact Hc. }
    destruct lead as [|l0 l].
    + cbn [app]. rewrite Ex, Hx. reflexivity.
    + cbn [forallb] in Hl. apply andb_true_iff in Hl. destruct Hl as [Hl0 Hl].
      cbn [app]. rewrite Hl0, drop_while_app by exact Hl.
      rewrite drop_while_stop by (rewrite Ex; exact Hx).
      apply rests_numbers_nil. exact Hn.
Qed.

(** X8.  A line whose first number after the marker is a whole number (no
    decimal point) gives no row at all, whatever follows it on the line,
    well-written numbers included, as long as no second marker does. *)
Theorem integer_first_number_gives_no_row lead neg ds t rest :
  forallb is_space lead = true -> digits ds = true ->
  not_fraction_next t = true -> no_hash t = true ->
  search point_regex (integer_line lead neg ds t) = None /\
  scan_points __init__ (integer_line lead neg ds t :: rest)
  = scan_points __init__ rest.
Proof.
  intros Hl Hd Ht Hh.
  pose proof (integer_row_none lead neg ds t Hl Hd Ht Hh) as H.
  split; [exact H|].
  cbn [scan_points point_pattern __init__]. rewrite H. reflexivity.
Qed.

(** *** The parameter pattern, scanned *)

Lemma rests_param_rest s :
  rests param_rest s =
  match after_equals s with
  | Some v => rests param_tail v
  | None => []
  end.
Proof.
  unfold param_rest, after_equals.
  change (rests (Seq (Group 1 (Plus (Chr is_word)))
                     (Seq (Plus (Chr is_space)) (Seq (Chr (is_char "=")) param_tail))) s)
    with (rests (Seq (Plus (Chr is_word))
                     (Seq (Plus (Chr is_space)) (Seq (Chr (is_char "=")) param_tail))) s).
  rewrite rests_plus_chr_then.
  - destruct s as [|c t]; [reflexivity|]. destruct (is_word c); [|reflexivity].
    rewrite rests_plus_chr_then.
    + destruct (drop_while is_word t) as [|w u]; [reflexivity|].
      destruct (is_space w); [|reflexivity].
      rewrite rests_seq, rests_chr.
      destruct (drop_while is_space u) as [|e v]; [reflexivity|].
      destruct (is_char "=" e); [|reflexivity].
      cbn [flat_map]. apply app_nil_r.
    + intros c' t' Hc'. rewrite rests_seq, rests_chr.
      destruct (is_char "=" c') eqn:Ec; [|reflexivity].
      apply eq_not_space in Ec. congruence.
  - intros c t Hc. rewrite rests_seq, rests_plus_chr.
    rewrite (word_not_space c Hc). reflexivity.
Qed.

Lemma rests_param_tail_stop v :
  not_space_next v = true -> rests param_tail v = [].
Proof.
  intros H. unfold param_tail. rewrite rests_seq, rests_plus_chr.
  destruct v as [|c t]; [reflexivity|]. cbn [not_space_next] in H.
  apply negb_true_iff in H. rewrite H. reflexivity.
Qed.

Lemma rests_param_regex s :
  rests param_regex s =
  if starts_with marker s
  then match skipn (length marker) s with
       | c :: t => if is_space c then rests param_rest (drop_while is_space t) else []
       | [] => []
       end
  else [].
Proof.
  rewrite param_regex_eq, rests_seq, rests_lit.
  destruct (starts_with marker s); [|reflexivity].
  cbn [flat_map]. rewrite app_nil_r.
  apply rests_plus_chr_then. apply rests_param_rest_space.
Qed.

Lemma eq_not_word c : is_char "=" c = true -> is_word c = false.
Proof. all_chars c. Qed.

Lemma after_equals_key key mid rest :
  word key = true -> forallb is_space mid = true ->
  after_equals (key ++ mid ++ "="%char :: rest)
  = match mid with [] => None | _ => Some rest end.
Proof.
  intros Hk Hm. destruct (word_inv _ Hk) as (k0 & k & -> & Hk0 & Hks).
  unfold after_equals. cbn [app]. rewrite Hk0.
  rewrite drop_while_app by exact Hks.
  destruct mid as [|m0 m].
  - cbn [app]. rewrite drop_while_stop by (apply eq_not_word; reflexivity).
    reflexivity.
  - cbn [forallb] in Hm. apply andb_true_iff in Hm. destruct Hm as [Hm0 Hm].
    cbn [app]. rewrite drop_while_stop by (apply space_not_word; exact Hm0).
    rewrite Hm0. rewrite drop_while_app by exact Hm.
    rewrite drop_while_stop by (apply eq_not_space; reflexivity).
    reflexivity.
Qed.

Lemma param_tight_none p :
  forallb is_space (p_lead p) = true -> word (p_key p) = true ->
  forallb is_space (p_mid p) = true -> forallb is_space (p_gap p) = true ->
  not_space_next (p_value p) = true -> no_hash (p_value p) = true ->
  p_mid p = [] \/ p_gap p = [] ->
  search param_regex (render_param p) = None.
Proof.
  intros Hl Hk Hm Hg Hv Hh Htight. unfold render_param. rewrite param_regex_eq.
  apply search_marker_line.
  - intros Hin. apply in_app_or in Hin. destruct Hin as [Hin|Hin].
    { revert Hin. apply (forallb_not_In is_space); [apply space_not_hash|exact Hl]. }
    apply in_app_or in Hin. destruct Hin as [Hin|Hin].
    { revert Hin. apply (forallb_not_In is_word); [apply word_not_hash|].
      apply word_forallb. exact Hk. }
    apply in_app_or in Hin. destruct Hin as [Hin|Hin].
    { revert Hin. apply (forallb_not_In is_space); [apply space_not_hash|exact Hm]. }
    destruct Hin as [Hin|Hin]; [discriminate|].
    apply in_app_or in Hin. destruct Hin as [Hin|Hin].
    { revert Hin. apply (forallb_not_In is_space); [apply space_not_hash|exact Hg]. }
    revert Hin. apply no_hash_not_In. exact Hh.
  - rewrite <- param_regex_eq, rests_param_regex, starts_with_app, skipn_length_app.
    destruct (word_inv _ Hk) as (k0 & k & Ek & Hk0 & Hks).
    assert (rests param_rest
              (p_key p ++ p_mid p ++ "="%char :: p_gap p ++ p_value p) = []) as Hr.
    { rewrite rests_param_rest, after_equals_key by assumption.
      destruct (p_mid p) as [|m0 m]; [reflexivity|].
      destruct Htight as [Hmid|Hgap]; [discriminate|].
      rewrite Hgap. cbn [app]. apply rests_param_tail_stop. exact Hv. }
    destruct (p_lead p) as [|l0 l].
    + cbn [app]. rewrite Ek. cbn [app].
      rewrite (word_not_space k0 Hk0). reflexivity.
    + cbn [forallb] in Hl. apply andb_true_iff in Hl. destruct Hl as [Hl0 Hl].
      cbn [app]. rewrite Hl0, drop_while_app by exact Hl.
      rewrite drop_while_stop
        by (rewrite Ek; cbn [app]; apply word_not_space; exact Hk0).
      exact Hr.
Qed.

(** X9.  The parameter pattern asks for whitespace on both sides of the
    equals sign: a line written [key=value], [key =value] or [key= value]
    declares nothing, and the dictionary stays as it was. *)
Theorem param_needs_whitespace_around_equals p rest params :
  forallb is_space (p_lead p) = true -> word (p_key p) = true ->
  forallb is_space (p_mid p) = true -> forallb is_space (p_gap p) = true ->
  not_space_next (p_value p) = true -> no_hash (p_value p) = true ->
  p_mid p = [] \/ p_gap p = [] ->
  search param_regex (render_param p) = None /\
  scan_params __init__ (render_param p :: rest) params
  = scan_params __init__ rest params.
Proof.
  intros Hl Hk Hm Hg Hv Hh Htight.
  pose proof (param_tight_none p Hl Hk Hm Hg Hv Hh Htight) as H.
  split; [exact H|].
  cbn [scan_params param_pattern __init__]. rewrite H. reflexivity.
Qed.

(** *** One marker, one kind of line *)

Lemma after_equals_decimal d rest :
  wf_decimal d = true -> after_equals (render_decimal d ++ rest) = None.
Proof.
  intros Hd. unfold wf_decimal in Hd. apply andb_true_iff in Hd.
  destruct Hd as [Hi _]. destruct (digits_inv _ Hi) as (c & a & Ei & Hc & Ha).
  unfold render_decimal, after_equals. destruct (d_neg d).
  - cbn [app]. change (is_word "-") with false. reflexivity.
  - rewrite Ei. cbn [app]. rewrite (digit_is_word c Hc).
    rewrite <- app_assoc.
    rewrite drop_while_app
      by (eapply forallb_impl; [apply digit_is_word|exact Ha]).
    cbn [app]. rewrite drop_while_stop by reflexivity. reflexivity.
Qed.

Lemma row_not_param_here r e :
  wf_row r = true -> rests param_regex (render_row r ++ e) = [].
Proof.
  intros Hr. destruct (wf_row_inv r Hr) as (c & w & El & Hc & Hw & Hf & _).
  unfold render_row, render_numbers. rewrite El.
  rewrite rests_param_regex, <- !app_assoc, starts_with_app, skipn_length_app.
  cbn [app]. rewrite Hc. rewrite <- ?app_assoc.
  rewrite drop_while_space_render by assumption.
  rewrite rests_param_rest, after_equals_decimal by exact Hf. reflexivity.
Qed.

Lemma matches_true r s :
  matches r s = true -> exists e, hd_error (rests r s) = Some e.
Proof.
  intros H. destruct (rests r s) as [|e tl] eqn:E.
  - apply matches_false in E. congruence.
  - exists e. reflexivity.
Qed.

(** X10.  At one marker the two patterns never both match: a text that the
    point pattern matches from its start is not matched by the parameter
    pattern from its start, and the other way round. *)
Theorem patterns_exclusive_at_marker s :
  matches point_regex s && matches param_regex s = false.
Proof.
  destruct (matches point_regex s) eqn:Hp; [|reflexivity]. cbn [andb].
  apply matches_true in Hp. destruct Hp as [e He].
  apply point_end_inv in He. destruct He as (r & Hr & -> & _).
  apply matches_false. apply row_not_param_here. exact Hr.
Qed.

(** *** A line for both loops *)

Lemma contains_no_hash s : ~ In "#"%char s -> contains marker s = false.
Proof.
  induction s as [|c t IH]; intros H; [reflexivity|].
  cbn [contains]. rewrite IH by (intros Hin; apply H; right; exact Hin).
  rewrite orb_false_r.
  destruct (starts_with marker (c :: t)) eqn:E; [|reflexivity].
  apply starts_with_marker_hash in E. subst c. elim H. left. reflexivity.
Qed.

Lemma contains_marker_tail body :
  ~ In "#"%char body ->
  contains marker ("*"%char :: "#"%char :: body) = false.
Proof.
  intros H. cbn [contains]. rewrite (contains_no_hash body H).
  change marker with ["#"%char; "*"%char; "#"%char].
  destruct body as [|b0 [|b1 t]]; cbn [starts_with].
  - reflexivity.
  - rewrite !andb_false_r. reflexivity.
  - destruct (Ascii.eqb "#" b1) eqn:E; [|rewrite !andb_false_r; reflexivity].
    apply Ascii.eqb_eq in E. subst b1. elim H. right. left. reflexivity.
Qed.

Lemma rests_point_param p rest :
  wf_param p = true -> rests point_regex (render_param p ++ rest) = [].
Proof.
  intros Hp. unfold render_param.
  rewrite rests_point_regex, <- !app_assoc, starts_with_app, skipn_length_app.
  destruct (wf_param_inv p Hp) as (Hl & Hk & Hm & _ & _).
  destruct (some_spaces_inv _ Hl) as (l0 & l & -> & Hl0 & Hls).
  cbn [app]. rewrite Hl0. rewrite <- !app_assoc.
  rewrite drop_while_app by exact Hls.
  destruct (word_inv _ Hk) as (k0 & k & Ek & Hk0 & Hks).
  rewrite drop_while_stop
    by (rewrite Ek; cbn [app]; apply word_not_space; exact Hk0).
  apply rests_numbers_nil. apply (num_end_word_run _ _ _ Hk Hm).
Qed.

Lemma wf_value_app v t :
  wf_value v = true -> forallb is_any t = true -> wf_value (v ++ t) = true.
Proof.
  intros Hv Ht. destruct (wf_value_inv _ Hv) as (c & u & -> & Hc & Ha & Hu).
  cbn [app wf_value forallb]. rewrite Hc, Ha. cbn [negb andb].
  rewrite forallb_app, Hu, Ht. reflexivity.
Qed.

Lemma wf_param_value_app p t :
  wf_param p = true -> forallb is_any t = true -> wf_param (value_app p t) = true.
Proof.
  intros Hp Ht. destruct (wf_param_inv p Hp) as (Hl & Hk & Hm & Hg & Hv).
  unfold wf_param, value_app. cbn [p_lead p_key p_mid p_gap p_value].
  rewrite Hl, Hk, Hm, Hg. apply wf_value_app; assumption.
Qed.

Lemma render_value_app p t : render_param (value_app p t) = render_param p ++ t.
Proof.
  unfold render_param, value_app. cbn [p_lead p_key p_mid p_gap p_value].
  rewrite <- !app_assoc. cbn [app]. rewrite <- !app_assoc. reflexivity.
Qed.

(** X11.  One line can feed both loops: a parameter line whose value ends
    in a written row gives the parameter, with the row in its value, and
    the row as well. *)
Theorem line_feeds_both_loops p r params :
  wf_line (ParamLine p) = true -> wf_line (RowLine r) = true ->
  let line := render_param p ++ render_row r in
  scan_points __init__ [line] = Ok [row_floats r] /\
  scan_params __init__ [line] params
  = <[p_key p := p_value p ++ render_row r]> params.
Proof.
  intros Hp Hr line. unfold wf_line in Hp, Hr.
  apply andb_true_iff in Hp. destruct Hp as [Hp _].
  apply andb_true_iff in Hp. destruct Hp as [Hp Hh].
  apply andb_true_iff in Hr. destruct Hr as [Hr Hone].
  cbn [render_line] in Hone. split.
  - destruct (search_point_row r Hr) as [caps Hs].
    apply (scan_points_one line {| group0 := render_row r; captures := caps |});
      [|apply points_of_row; exact Hr].
    rewrite <- Hs. unfold line.
    set (body := p_lead p ++ p_key p ++ p_mid p ++ "="%char :: p_gap p ++ p_value p).
    transitivity (search point_regex (("*"%char :: "#"%char :: body) ++ render_row r)).
    + exact (search_skip point_regex "#"%char
               (("*"%char :: "#"%char :: body) ++ render_row r)
               (rests_point_param p (render_row r) Hp)).
    + apply (search_after_lead numbers ("*"%char :: "#"%char :: body)
               (r_lead r ++ render_numbers (r_first r) (r_more r))).
      apply contains_marker_tail. apply param_body_no_hash; assumption.
  - unfold line. rewrite <- render_value_app.
    apply (scan_params_one _ _ _ [(2, p_value (value_app p (render_row r)));
                                  (1, p_key p)]
                           (render_param (value_app p (render_row r))));
      [|reflexivity|reflexivity].
    apply (search_param_render (value_app p (render_row r))).
    apply wf_param_value_app; assumption.
Qed.

(** ** The lines that count *)

Lemma scan_points_has_hash lines :
  scan_points __init__ (List.filter has_hash lines) = scan_points __init__ lines.
Proof.
  induction lines as [|line rest IH]; [reflexivity|].
  cbn [List.filter]. unfold has_hash at 1.
  destruct (no_hash line) eqn:E; cbn [negb].
  - rewrite IH. cbn [scan_points point_pattern __init__].
    rewrite point_regex_eq, (search_no_hash _ line (no_hash_not_In _ E)).
    reflexivity.
  - cbn [scan_points]. rewrite IH. reflexivity.
Qed.

Lemma scan_params_has_hash lines : forall params,
  scan_params __init__ (List.filter has_hash lines) params
  = scan_params __init__ lines params.
Proof.
  induction lines as [|line rest IH]; intros params; [reflexivity|].
  cbn [List.filter]. unfold has_hash at 1.
  destruct (no_hash line) eqn:E; cbn [negb].
  - rewrite IH. cbn [scan_params param_pattern __init__].
    rewrite param_regex_eq, (search_no_hash _ line (no_hash_not_In _ E)).
    reflexivity.
  - cbn [scan_params]. destruct (search (param_pattern __init__) line) as [m|];
      [|apply IH].
    destruct (group 1 (captures m)); [|apply IH].
    destruct (group 2 (captures m)); apply IH.
Qed.

Lemma parse_body_lines np c1 c2 :
  scan_points __init__ (split "010" c1) = scan_points __init__ (split "010" c2) ->
  scan_params __init__ (split "010" c1) ∅ = scan_params __init__ (split "010" c2) ∅ ->
  parse_body np __init__ c1 = parse_body np __init__ c2.
Proof. intros H1 H2. unfold parse_body. rewrite H1, H2. reflexivity. Qed.

Lemma parse_config_file_body np c1 c2 w :
  parse_body np __init__ c1 = parse_body np __init__ c2 ->
  parse_config_file np __init__ c1 w = parse_config_file np __init__ c2 w.
Proof. intros H. unfold parse_config_file. rewrite H. reflexivity. Qed.

(** X12.  Only the lines that hold a [#] count: two texts with the same
    such lines, in the same order, give the same result and the same
    output.  Sections, settings and blank lines of the configuration may
    be added, removed or changed. *)
Theorem lines_without_hash_ignored np c1 c2 w :
  List.filter has_hash (split "010" c1) = List.filter has_hash (split "010" c2) ->
  parse_config_file np __init__ c1 w = parse_config_file np __init__ c2 w.
Proof.
  intros H. apply parse_config_file_body, parse_body_lines.
  - rewrite <- (scan_points_has_hash (split "010" c1)), H.
    apply scan_points_has_hash.
  - rewrite <- (scan_params_has_hash (split "010" c1)), H.
    apply scan_params_has_hash.
Qed.

(** ** Whitespace at the end of a line *)

Lemma drop_while_all (p : ascii -> bool) s : forallb p s = true -> drop_while p s = [].
Proof.
  intros H. rewrite <- (app_nil_r s), drop_while_app by exact H. reflexivity.
Qed.

Lemma drop_while_app_cons (p : ascii -> bool) s t x y :
  drop_while p s = x :: y -> drop_while p (s ++ t) = (x :: y) ++ t.
Proof.
  induction s as [|c s IH]; cbn [drop_while app]; [discriminate|].
  destruct (p c); [exact IH|]. intros [= <- <-]. reflexivity.
Qed.

Lemma drop_while_nil_all (p : ascii -> bool) s : drop_while p s = [] -> forallb p s = true.
Proof.
  induction s as [|c s IH]; cbn [drop_while forallb]; [reflexivity|].
  destruct (p c); [exact IH|discriminate].
Qed.

Lemma forallb_rev (p : ascii -> bool) s : forallb p s = true -> forallb p (rev s) = true.
Proof.
  rewrite !forallb_forall. intros H x Hx. apply H. apply in_rev. exact Hx.
Qed.

Lemma number_strip_app s t :
  forallb is_number_space t = true -> number_strip (s ++ t) = number_strip s.
Proof.
  intros H. unfold number_strip.
  destruct (drop_while is_number_space s) as [|x y] eqn:E.
  - apply drop_while_nil_all in E.
    rewrite (drop_while_app _ s t E), (drop_while_all _ t H). reflexivity.
  - rewrite (drop_while_app_cons _ _ t _ _ E), rev_app_distr.
    rewrite drop_while_app by (apply forallb_rev; exact H). reflexivity.
Qed.

Lemma python_int_trail v t :
  forallb is_number_space t = true -> python_int (v ++ t) = python_int v.
Proof. intros H. unfold python_int. rewrite number_strip_app by exact H. reflexivity. Qed.

Lemma python_float_trail v t :
  forallb is_number_space t = true -> python_float (v ++ t) = python_float v.
Proof. intros H. unfold python_float. rewrite number_strip_app by exact H. reflexivity. Qed.

Lemma blank_char_space c : blank_char c = true -> is_space c = true.
Proof. clear stdout_encodes.
  unfold blank_char. intros H. apply andb_true_iff in H. destruct H as [H _].
  apply andb_true_iff in H. tauto.
Qed.

Lemma blank_char_any c : blank_char c = true -> is_any c = true.
Proof. clear stdout_encodes.
  unfold blank_char. intros H. apply andb_true_iff in H. destruct H as [H _].
  apply andb_true_iff in H. tauto.
Qed.

Lemma blank_space t : blank t = true -> forallb is_space t = true.
Proof. apply forallb_impl. apply blank_char_space. Qed.

Lemma blank_char_number_space c : blank_char c = true -> is_number_space c = true.
Proof. all_chars c. Qed.

Lemma blank_number_space t : blank t = true -> forallb is_number_space t = true.
Proof. apply forallb_impl. apply blank_char_number_space. Qed.

Lemma blank_any t : blank t = true -> forallb is_any t = true.
Proof. apply forallb_impl. apply blank_char_any. Qed.

Lemma space_not_eq c : is_space c = true -> c <> "="%char.
Proof. all_chars c. Qed.

Lemma ends_run_blank t : blank t = true -> ends_run t = true.
Proof.
  intros H. apply blank_space in H. apply ends_run_spec.
  destruct t as [|c u]; [split; exact I|].
  cbn [forallb] in H. apply andb_true_iff in H. destruct H as [Hc _].
  split; [apply space_not_digit; exact Hc|].
  intros Hcomma. apply is_char_eq in Hcomma. subst c.
  exfalso. revert Hc. vm_compute. discriminate.
Qed.

Lemma search_param_row_trail r t :
  wf_row r = true -> forallb is_space t = true ->
  search param_regex (render_row r ++ t) = None.
Proof.
  intros Hr Ht. apply search_param_no_eq. unfold render_row.
  intros Hin. apply in_app_or in Hin. destruct Hin as [Hin|Hin].
  - apply in_app_or in Hin. destruct Hin as [Hin|Hin].
    + revert Hin. vm_compute. intuition discriminate.
    + revert Hin. apply (forallb_not_In row_char); [apply row_char_not_eq|].
      apply row_chars. exact Hr.
  - revert Hin. apply (forallb_not_In is_space); [apply space_not_eq|exact Ht].
Qed.

Lemma no_hash_app a b : no_hash a = true -> no_hash b = true -> no_hash (a ++ b) = true.
Proof. unfold no_hash. intros Ha Hb. rewrite forallb_app, Ha, Hb. reflexivity. Qed.

Lemma blank_no_hash t : blank t = true -> no_hash t = true.
Proof.
  apply forallb_impl. intros c H. apply blank_char_space in H.
  apply negb_true_iff. apply is_char_neq. intros E. subst c.
  revert H. vm_compute. discriminate.
Qed.

Lemma scan_points_trail lts :
  Forall (fun lt => wf_line (fst lt) = true /\ blank (snd lt) = true) lts ->
  scan_points __init__ (map with_trail lts)
  = Ok (map row_floats (rows_of (map fst lts))).
Proof.
  induction lts as [|[l t] rest IH]; intros Hall; [reflexivity|].
  apply Forall_cons_iff in Hall. destruct Hall as [[Hl Ht] Hall].
  specialize (IH Hall). cbn [fst snd] in Hl, Ht.
  cbn [map scan_points point_pattern __init__ fst].
  change (point_pattern __init__) with point_regex in IH.
  unfold with_trail at 1. cbn [fst snd].
  destruct l as [r|p]; cbn [render_line rows_of map].
  - apply wf_line_row in Hl.
    destruct (search_point_render r t Hl (ends_run_blank t Ht)) as [caps ->].
    rewrite (points_of_row r caps Hl). cbn [bind].
    fold (scan_points __init__ (map with_trail rest)). rewrite IH. reflexivity.
  - apply wf_line_param in Hl. destruct Hl as [Hp Hv].
    rewrite <- render_value_app.
    rewrite (search_point_param (value_app p t)).
    + exact IH.
    + apply wf_param_value_app; [exact Hp|apply blank_any; exact Ht].
    + cbn [value_app p_value]. apply no_hash_app; [exact Hv|apply blank_no_hash, Ht].
Qed.

Lemma scan_params_trail key lts : forall params params',
  Forall (fun lt => wf_line (fst lt) = true /\ blank (snd lt) = true) lts ->
  same_but_trail (params !! key) (params' !! key) ->
  same_but_trail
    (scan_params __init__ (map render_line (map fst lts)) params !! key)
    (scan_params __init__ (map with_trail lts) params' !! key).
Proof.
  induction lts as [|[l t] rest IH]; intros params params' Hall H; [exact H|].
  apply Forall_cons_iff in Hall. destruct Hall as [[Hl Ht] Hall].
  cbn [fst snd] in Hl, Ht.
  cbn [map scan_params param_pattern __init__ fst].
  unfold with_trail at 1. cbn [fst snd].
  destruct l as [r|p]; cbn [render_line].
  - apply wf_line_row in Hl.
    rewrite (search_param_row r Hl).
    rewrite (search_param_row_trail r t Hl (blank_space t Ht)).
    apply IH; assumption.
  - apply wf_line_param in Hl. destruct Hl as [Hp _].
    rewrite (search_param_render p Hp).
    rewrite <- render_value_app.
    rewrite (search_param_render (value_app p t))
      by (apply wf_param_value_app; [exact Hp|apply blank_any; exact Ht]).
    cbn [captures group Nat.eqb value_app p_key p_value].
    apply IH; [exact Hall|].
    destruct (decide (p_key p = key)) as [E|E].
    + subst key. rewrite !lookup_insert_eq. exists t. split; [exact Ht|reflexivity].
    + rewrite !lookup_insert_ne by exact E. exact H.
Qed.

Lemma field_int_trail p0 p1 key z :
  same_but_trail (p0 !! key) (p1 !! key) ->
  field_int p0 key z <-> field_int p1 key z.
Proof.
  unfold same_but_trail, field_int. intros H.
  destruct (p0 !! key) as [v|], (p1 !! key) as [v'|]; try contradiction.
  - destruct H as (t & Ht & ->). apply blank_number_space in Ht.
    split; intros (u & [= <-] & Hu); eexists; (split; [reflexivity|]).
    + rewrite python_int_trail by exact Ht. exact Hu.
    + rewrite python_int_trail in Hu by exact Ht. exact Hu.
  - split; intros (u & Hu & _); discriminate.
Qed.

Lemma field_float_trail p0 p1 key f :
  same_but_trail (p0 !! key) (p1 !! key) ->
  field_float p0 key f <-> field_float p1 key f.
Proof.
  unfold same_but_trail, field_float. intros H.
  destruct (p0 !! key) as [v|], (p1 !! key) as [v'|]; try contradiction.
  - destruct H as (t & Ht & ->). apply blank_number_space in Ht.
    split; intros (u & [= <-] & Hu); eexists; (split; [reflexivity|]).
    + rewrite python_float_trail by exact Ht. exact Hu.
    + rewrite python_float_trail in Hu by exact Ht. exact Hu.
  - split; intros (u & Hu & _); discriminate.
Qed.

Lemma reads_trail p0 p1 m :
  (forall key, same_but_trail (p0 !! key) (p1 !! key)) ->
  reads p0 m <-> reads p1 m.
Proof.
  intros H. unfold reads.
  rewrite (field_int_trail p0 p1 _ _ (H (lit "x_count"))).
  rewrite (field_int_trail p0 p1 _ _ (H (lit "y_count"))).
  rewrite (field_float_trail p0 p1 _ _ (H (lit "min_x"))).
  rewrite (field_float_trail p0 p1 _ _ (H (lit "max_x"))).
  rewrite (field_float_trail p0 p1 _ _ (H (lit "min_y"))).
  rewrite (field_float_trail p0 p1 _ _ (H (lit "max_y"))).
  reflexivity.
Qed.

(** When the body returns a mesh. *)
Lemma parse_body_ok_iff np content m :
  parse_body np __init__ content = Ok m <->
  exists rows,
    scan_points __init__ (split "010" content) = Ok rows /\
    np_array np rows = Ok (matrix m) /\
    reads (scan_params __init__ (split "010" content) ∅) m.
Proof.
  split.
  - intros H. destruct (scan_points_ok (split "010" content)) as [rows Hrows].
    exists rows. split; [exact Hrows|].
    set (params := scan_params __init__ (split "010" content) ∅) in *.
    destruct (forallb (has_key params) required_params) eqn:Hk.
    + pose proof (has_key_all params Hk) as Hall.
      destruct (Hall (lit "x_count")) as [xs H1]; [vm_compute; tauto|].
      destruct (Hall (lit "y_count")) as [ys H2]; [vm_compute; tauto|].
      destruct (Hall (lit "min_x")) as [a H3]; [vm_compute; tauto|].
      destruct (Hall (lit "max_x")) as [b H4]; [vm_compute; tauto|].
      destruct (Hall (lit "min_y")) as [c H5]; [vm_compute; tauto|].
      destruct (Hall (lit "max_y")) as [d H6]; [vm_compute; tauto|].
      rewrite (parse_body_keys np content rows params xs ys a b c d Hrows eq_refl
                 H1 H2 H3 H4 H5 H6) in H.
      destruct (np_array np rows) as [arr|e0]; [|discriminate].
      cbn [bind] in H. unfold py_int, py_float in H.
      destruct (python_int xs) as [xc|] eqn:P1; [|discriminate].
      destruct (python_int ys) as [yc|] eqn:P2; [|discriminate].
      destruct (python_float a) as [fa|] eqn:P3; [|discriminate].
      destruct (python_float b) as [fb|] eqn:P4; [|discriminate].
      destruct (python_float c) as [fc|] eqn:P5; [|discriminate].
      destruct (python_float d) as [fd|] eqn:P6; [|discriminate].
      cbn [or_raise bind] in H. injection H as <-.
      cbn [matrix]. split; [reflexivity|].
      unfold reads, field_int, field_float.
      cbn [x_count y_count min_x max_x min_y max_y].
      repeat split; eexists; (split; [eassumption|assumption]).
    + unfold parse_body in H. rewrite Hrows in H. cbn [bind] in H.
      fold params in H. rewrite Hk in H. discriminate.
  - intros (rows & Hrows & Hnp & (xs & H1 & P1) & (ys & H2 & P2) & (a & H3 & P3)
            & (b & H4 & P4) & (c & H5 & P5) & (d & H6 & P6)).
    rewrite (parse_body_params np content rows xs ys a b c d _ _ _ _ _ _
               Hrows H1 P1 H2 P2 H3 P3 H4 P4 H5 P5 H6 P6).
    rewrite Hnp. cbn [bind]. destruct m; reflexivity.
Qed.

Lemma parse_config_file_some_iff np content w w' m :
  parse_config_file np __init__ content w = (Ok (Some m), w') <->
  parse_body np __init__ content = Ok m /\ w' = w.
Proof.
  pose proof (parse_config_file_outcomes np __init__ content w) as Ho.
  destruct (parse_body np __init__ content) as [m'|e].
  - rewrite Ho.
    split; [intros [= <- <-]; split; reflexivity|intros [[= <-] ->]; reflexivity].
  - split; [|intros [H _]; discriminate].
    destruct (forallb can_encode (echoed (Error_parsing_mesh_data e)));
      rewrite Ho; discriminate.
Qed.

Lemma trail_one_line lts :
  Forall (fun lt => wf_line (fst lt) = true /\ blank (snd lt) = true) lts ->
  Forall (fun l => forallb is_any l = true) (map with_trail lts).
Proof.
  intros H. apply Forall_map. eapply Forall_impl; [exact H|].
  intros [l t] [Hl Ht]. cbn [fst snd] in *. unfold with_trail. cbn [fst snd].
  rewrite forallb_app. apply andb_true_iff. split; [|apply blank_any; exact Ht].
  unfold wf_line in Hl. apply andb_true_iff in Hl. tauto.
Qed.

Lemma trail_body_iff np lts m :
  Forall (fun lt => wf_line (fst lt) = true /\ blank (snd lt) = true) lts ->
  parse_body np __init__ (file_text (map fst lts)) = Ok m <->
  parse_body np __init__ (trailed_text lts) = Ok m.
Proof.
  intros Hall. destruct lts as [|lt lts']; [reflexivity|].
  set (lts := lt :: lts') in *.
  assert (Forall (fun l => wf_line l = true) (map fst lts)) as Hwf.
  { apply Forall_map. eapply Forall_impl; [exact Hall|]. intros x [Hx _]. exact Hx. }
  rewrite !parse_body_ok_iff. unfold file_text, trailed_text.
  rewrite split_join by (try discriminate; apply wf_lines_one_line; exact Hwf).
  rewrite split_join by (try discriminate; apply trail_one_line; exact Hall).
  rewrite scan_points_written by exact Hwf.
  rewrite scan_points_trail by exact Hall.
  assert (forall key,
            same_but_trail
              (scan_params __init__ (map render_line (map fst lts)) ∅ !! key)
              (scan_params __init__ (map with_trail lts) ∅ !! key)) as Hp.
  { intros key. apply scan_params_trail; [exact Hall|].
    rewrite !lookup_empty. exact I. }
  split; intros (rows & Hrows & Hnp & Hr); exists rows;
    (split; [exact Hrows|]); (split; [exact Hnp|]);
    apply (reads_trail _ _ m Hp); exact Hr.
Qed.

(** X13.  Blanks at the end of the lines change nothing: a written file
    gives a mesh exactly when the same file with spaces, tabs or a
    carriage return after some of its lines does, and the mesh is the
    same.  A file with CRLF line ends reads like the one with LF. *)
Theorem trailing_whitespace_ignored np lts w w' m :
  Forall (fun lt => wf_line (fst lt) = true /\ blank (snd lt) = true) lts ->
  parse_config_file np __init__ (file_text (map fst lts)) w = (Ok (Some m), w') <->
  parse_config_file np __init__ (trailed_text lts) w = (Ok (Some m), w').
Proof.
  intros Hall. rewrite !parse_config_file_some_iff.
  rewrite (trail_body_iff np lts m Hall). reflexivity.
Qed.

(** ** The shape of a returned matrix *)

Lemma concat_length_all (rs : list (list float)) n :
  forallb (fun r' => (length r' =? n)%nat) rs = true ->
  length (concat rs) = (length rs * n)%nat.
Proof.
  induction rs as [|r rs IH]; [reflexivity|].
  cbn [forallb concat]. intros H. apply andb_true_iff in H. destruct H as [Hr H].
  apply Nat.eqb_eq in Hr. rewrite length_app, (IH H), Hr. cbn [length]. lia.
Qed.

(** X14.  With NumPy 1.24 or later the matrix of a returned mesh is a
    [float64] array that is empty of shape (0,), or has shape (N, M) with
    N and M at least 1 and N * M values, none of them a not-a-number. *)
Theorem parsed_matrix_rectangular content w w' m :
  parse_config_file NumPy_1_24 __init__ content w = (Ok (Some m), w') ->
  matrix m = FloatArray [0%Z] [] \/
  exists (N M : nat) data,
    matrix m = FloatArray [Z.of_nat N; Z.of_nat M] data /\
    (0 < N)%nat /\ (0 < M)%nat /\ length data = (N * M)%nat /\
    Forall (fun v => is_nan v = false) data.
Proof.
  intros H. apply parse_config_file_some, parse_body_inv in H.
  destruct H as (rows & Hrows & Hnp).
  pose proof (scan_points_no_nan _ _ Hrows) as Hnan.
  destruct (np_array_cases _ rows _ Hnp)
    as [[_ Em]|[(r & rs & -> & Hs & Em)|(_ & Hlegacy & _)]];
    [left; exact Em| |discriminate].
  right. exists (length (r :: rs)), (length r), (concat (r :: rs)).
  split; [exact Em|]. split; [cbn [length]; lia|]. split.
  - apply Forall_cons_iff in Hnan. destruct Hnan as [[Hne _] _].
    destruct r; [congruence|cbn [length]; lia].
  - split.
    + cbn [same_length] in Hs. cbn [concat length].
      rewrite length_app, (concat_length_all rs _ Hs). lia.
    + apply Forall_concat_iff. eapply Forall_impl; [exact Hnan|].
      intros row [_ Hrow]. exact Hrow.
Qed.

(** ** Parameters that are not asked for *)

Lemma parse_body_agree np c1 c2 :
  scan_points __init__ (split "010" c1) = scan_points __init__ (split "010" c2) ->
  (forall key, In key required_params ->
     scan_params __init__ (split "010" c1) ∅ !! key
     = scan_params __init__ (split "010" c2) ∅ !! key) ->
  parse_body np __init__ c1 = parse_body np __init__ c2.
Proof.
  intros H1 H2.
  pose proof (H2 (lit "x_count")) as E1. pose proof (H2 (lit "y_count")) as E2.
  pose proof (H2 (lit "min_x")) as E3. pose proof (H2 (lit "max_x")) as E4.
  pose proof (H2 (lit "min_y")) as E5. pose proof (H2 (lit "max_y")) as E6.
  unfold parse_body, item, has_key, required_params. cbn [forallb].
  rewrite H1, E1, E2, E3, E4, E5, E6 by (vm_compute; tauto).
  reflexivity.
Qed.

Lemma scan_points_skip line before : forall after,
  search point_regex line = None ->
  scan_points __init__ (before ++ line :: after)
  = scan_points __init__ (before ++ after).
Proof.
  induction before as [|l rest IH]; intros after H.
  - cbn [app scan_points point_pattern __init__]. rewrite H. reflexivity.
  - cbn [app scan_points]. rewrite (IH after H). reflexivity.
Qed.

Lemma scan_params_agree key lines : forall p1 p2,
  p1 !! key = p2 !! key ->
  scan_params __init__ lines p1 !! key = scan_params __init__ lines p2 !! key.
Proof.
  induction lines as [|line rest IH]; intros p1 p2 H; [exact H|].
  cbn [scan_params].
  destruct (search (param_pattern __init__) line) as [m|]; [|apply IH, H].
  destruct (group 1 (captures m)) as [k|]; [|apply IH, H].
  destruct (group 2 (captures m)) as [v|]; [|apply IH, H].
  apply IH. destruct (decide (k = key)) as [->|E].
  - rewrite !lookup_insert_eq. reflexivity.
  - rewrite !lookup_insert_ne by exact E. exact H.
Qed.

Lemma scan_lines lines :
  Forall (fun l => forallb is_any l = true) lines ->
  scan_points __init__ (split "010" (join ["010"%char] lines))
  = scan_points __init__ lines /\
  forall params,
    scan_params __init__ (split "010" (join ["010"%char] lines)) params
    = scan_params __init__ lines params.
Proof.
  intros H. destruct lines as [|l ls].
  - split; [reflexivity|intros params; reflexivity].
  - rewrite split_join by (try discriminate; exact H).
    split; [reflexivity|intros params; reflexivity].
Qed.

(** X15.  A parameter whose key is none of the six required ones plays no
    part: with or without its line the result and the output are the
    same. *)
Theorem other_parameters_ignored np before p after w :
  Forall (fun l => forallb is_any l = true) (before ++ after) ->
  wf_line (ParamLine p) = true ->
  ~ In (p_key p) required_params ->
  parse_config_file np __init__
    (join ["010"%char] (before ++ render_param p :: after)) w
  = parse_config_file np __init__ (join ["010"%char] (before ++ after)) w.
Proof.
  intros Hone Hp Hkey.
  assert (forallb is_any (render_param p) = true) as Hline.
  { unfold wf_line in Hp. apply andb_true_iff in Hp. tauto. }
  apply wf_line_param in Hp. destruct Hp as [Hp Hv].
  assert (Forall (fun l => forallb is_any l = true)
                 (before ++ render_param p :: after)) as Hone'.
  { apply Forall_app in Hone. destruct Hone as [Hb Ha].
    apply Forall_app. split; [exact Hb|]. constructor; assumption. }
  destruct (scan_lines _ Hone) as [S1 S2].
  destruct (scan_lines _ Hone') as [S1' S2'].
  apply parse_config_file_body, parse_body_agree.
  - rewrite S1, S1'. apply scan_points_skip. apply search_point_param; assumption.
  - intros key Hin. rewrite S2, S2', !scan_params_app.
    cbn [scan_params param_pattern __init__].
    rewrite (search_param_render p Hp). cbn [captures group Nat.eqb].
    apply scan_params_agree. apply lookup_insert_ne.
    intros E. apply Hkey. rewrite E. exact Hin.
Qed.

(** ** A text without the marker *)

Lemma split_In sep s : forall line c,
  In line (split sep s) -> In c line -> In c s.
Proof.
  induction s as [|x s IH]; intros line c Hl Hc.
  - cbn [split] in Hl. destruct Hl as [<-|[]]. exact Hc.
  - cbn [split] in Hl. destruct (Ascii.eqb sep x).
    + destruct Hl as [<-|Hl]; [destruct Hc|]. right. apply (IH line c Hl Hc).
    + destruct (split sep s) as [|q qs] eqn:E.
      * destruct Hl as [<-|[]]. destruct Hc as [<-|[]]. left. reflexivity.
      * destruct Hl as [<-|Hl].
        -- destruct Hc as [<-|Hc]; [left; reflexivity|].
           right. apply (IH q c); [left; reflexivity|exact Hc].
        -- right. apply (IH line c); [right; exact Hl|exact Hc].
Qed.

Lemma filter_has_hash_none lines :
  (forall line, In line lines -> no_hash line = true) ->
  List.filter has_hash lines = [].
Proof.
  induction lines as [|l ls IH]; intros H; [reflexivity|].
  cbn [List.filter]. unfold has_hash at 1.
  rewrite (H l (or_introl eq_refl)). cbn [negb].
  apply IH. intros line Hin. apply H. right. exact Hin.
Qed.

(** X16.  A text that holds no [#], the empty text included, gives no
    mesh, and the message printed is the one of the missing parameters. *)
Theorem text_without_hash np content w :
  no_hash content = true ->
  parse_config_file np __init__ content w
  = (Ok None,
     {| stdout := stdout w ++ [Error_parsing_mesh_data missing_parameters] |}).
Proof.
  intros H. apply parse_config_file_raise; [|apply missing_parameters_printable].
  assert (List.filter has_hash (split "010" content) = []) as E.
  { apply filter_has_hash_none. intros line Hin.
    unfold no_hash in *. rewrite forallb_forall in *.
    intros c Hc. apply H. apply (split_In _ _ line c Hin Hc). }
  unfold parse_body.
  rewrite <- (scan_points_has_hash (split "010" content)).
  rewrite <- (scan_params_has_hash (split "010" content)).
  rewrite E. reflexivity.
Qed.

(** ** Text after the numbers, in a file *)

Lemma search_param_row_then r t :
  wf_row r = true -> no_hash t = true ->
  search param_regex (render_row r ++ t) = None.
Proof.
  intros Hr Ht. pose proof (row_not_param_here r t Hr) as H0.
  unfold render_row in *. rewrite <- !app_assoc in *.
  rewrite param_regex_eq in *. apply search_marker_line; [|exact H0].
  intros Hin. rewrite app_assoc in Hin. apply in_app_or in Hin.
  destruct Hin as [Hin|Hin].
  - revert Hin. apply (forallb_not_In row_char); [apply row_char_not_hash|].
    apply row_chars. exact Hr.
  - revert Hin. apply no_hash_not_In. exact Ht.
Qed.

Lemma scan_points_same l1 l2 m1 m2 before : forall after,
  search point_regex l1 = Some m1 -> search point_regex l2 = Some m2 ->
  points_of_match m1 = points_of_match m2 ->
  scan_points __init__ (before ++ l1 :: after)
  = scan_points __init__ (before ++ l2 :: after).
Proof.
  induction before as [|l rest IH]; intros after H1 H2 H3.
  - cbn [app scan_points point_pattern __init__]. rewrite H1, H2, H3. reflexivity.
  - cbn [app scan_points]. rewrite (IH after H1 H2 H3). reflexivity.
Qed.

Lemma scan_params_skip line before after params :
  search param_regex line = None ->
  scan_params __init__ (before ++ line :: after) params
  = scan_params __init__ (before ++ after) params.
Proof.
  intros H. rewrite !scan_params_app.
  cbn [scan_params param_pattern __init__]. rewrite H. reflexivity.
Qed.

(** With NumPy 1.24 or later, rows of different lengths give none: the
    missing-parameters error comes first, the one of [np.array] next. *)
Lemma ragged_rows_none content w rows :
  scan_points __init__ (split "010" content) = Ok rows ->
  same_length rows = false ->
  exists e,
    parse_config_file NumPy_1_24 __init__ content w
    = (Ok None, {| stdout := stdout w ++ [Error_parsing_mesh_data e] |}).
Proof.
  intros Hrows Hrag.
  set (params := scan_params __init__ (split "010" content) ∅).
  destruct (forallb (has_key params) required_params) eqn:Hk.
  - pose proof (has_key_all params Hk) as Hall.
    destruct (Hall (lit "x_count")) as [xs H1]; [vm_compute; tauto|].
    destruct (Hall (lit "y_count")) as [ys H2]; [vm_compute; tauto|].
    destruct (Hall (lit "min_x")) as [a H3]; [vm_compute; tauto|].
    destruct (Hall (lit "max_x")) as [b H4]; [vm_compute; tauto|].
    destruct (Hall (lit "min_y")) as [c H5]; [vm_compute; tauto|].
    destruct (Hall (lit "max_y")) as [d H6]; [vm_compute; tauto|].
    exists ValueError_inhomogeneous.
    apply parse_config_file_raise; [|apply inhomogeneous_printable].
    rewrite (parse_body_keys NumPy_1_24 content rows params xs ys a b c d Hrows
               eq_refl H1 H2 H3 H4 H5 H6).
    destruct (same_length_false_nonempty rows Hrag) as (r & rs & E).
    unfold np_array. rewrite E. rewrite <- E. rewrite Hrag. reflexivity.
  - exists missing_parameters.
    apply parse_config_file_raise; [|apply missing_parameters_printable].
    unfold parse_body. rewrite Hrows. cbn [bind]. fold params. rewrite Hk.
    reflexivity.
Qed.

(** C10, as the code has it.  On a line that holds a written row followed
    by text that does not go on with the run of numbers, the pattern
    matches the row alone, and the line gives the row of the run: it is
    not rejected.  In a file the call returns what it returns for the
    text with that line cut back to its row, which can be none: with
    NumPy 1.24 or later it is none whenever the rows, the shortened one
    among them, have different lengths. *)
Theorem point_match_drops_trailing r t :
  wf_row r = true -> ends_run t = true ->
  (exists caps,
     search point_regex (render_row r ++ t)
     = Some {| group0 := render_row r; captures := caps |}) /\
  scan_points __init__ [render_row r ++ t] = Ok [map decimal_float (cells r)] /\
  (no_hash t = true -> forallb is_any (render_row r ++ t) = true ->
   forall before after,
     Forall (fun l => forallb is_any l = true) (before ++ after) ->
     (forall np w,
        parse_config_file np __init__
          (join ["010"%char] (before ++ (render_row r ++ t) :: after)) w
        = parse_config_file np __init__
            (join ["010"%char] (before ++ render_row r :: after)) w) /\
     (forall w rows,
        scan_points __init__ (before ++ render_row r :: after) = Ok rows ->
        same_length rows = false ->
        exists e,
          parse_config_file NumPy_1_24 __init__
            (join ["010"%char] (before ++ (render_row r ++ t) :: after)) w
          = (Ok None, {| stdout := stdout w ++ [Error_parsing_mesh_data e] |}))).
Proof.
  intros Hr Ht. destruct (point_run_row r t Hr Ht) as [[caps Hs] Hscan].
  split; [eauto|]. split; [exact Hscan|].
  intros Hh Hline before after Hone.
  assert (forallb is_any (render_row r) = true) as Hrow.
  { rewrite forallb_app in Hline. apply andb_true_iff in Hline. tauto. }
  assert (Forall (fun l => forallb is_any l = true)
                 (before ++ (render_row r ++ t) :: after)) as Hone1.
  { apply Forall_app in Hone. destruct Hone as [Hb Ha].
    apply Forall_app. split; [exact Hb|]. constructor; assumption. }
  assert (Forall (fun l => forallb is_any l = true)
                 (before ++ render_row r :: after)) as Hone2.
  { apply Forall_app in Hone. destruct Hone as [Hb Ha].
    apply Forall_app. split; [exact Hb|]. constructor; assumption. }
  destruct (scan_lines _ Hone1) as [S1 P1].
  destruct (scan_lines _ Hone2) as [S2 P2].
  destruct (search_point_row r Hr) as [caps' Hs'].
  assert (scan_points __init__ (before ++ (render_row r ++ t) :: after)
          = scan_points __init__ (before ++ render_row r :: after)) as Hpoints.
  { apply (scan_points_same _ _ _ _ before after Hs Hs').
    rewrite !points_of_row by exact Hr. reflexivity. }
  split.
  - intros np w. apply parse_config_file_body, parse_body_agree.
    + rewrite S1, S2. exact Hpoints.
    + intros key _. rewrite P1, P2.
      rewrite (scan_params_skip _ before after ∅ (search_param_row_then r t Hr Hh)).
      rewrite (scan_params_skip _ before after ∅ (search_param_row r Hr)).
      reflexivity.
  - intros w rows Hrows Hrag. apply (ragged_rows_none _ w rows); [|exact Hrag].
    rewrite S1, Hpoints. exact Hrows.
Qed.

End Stdout.

(** * The theorems at work *)

Example example_text :
  file_text example_lines
  = join ["010"%char]
         [lit "#*# 0.012, -0.034"; lit "#*# 1.001, 0.998";
          lit "#*# x_count = 2"; lit "#*# y_count = 2";
          lit "#*# min_x = 0"; lit "#*# max_x = 200";
          lit "#*# min_y = 0"; lit "#*# max_y = 200"].
Proof. reflexivity. Qed.

Lemma parse_well_formed_file_witness :
  parse_config_file utf8_stdout NumPy_1_24 __init__ (file_text example_lines) {| stdout := [] |}
  = (Ok (Some example_mesh), {| stdout := [] |}) /\
  validate_mesh_data __init__ example_mesh = true.
Proof.
  destruct (parse_well_formed_file utf8_stdout NumPy_1_24 example_lines {| stdout := [] |} 2 2
              (lit "2") (lit "2") (lit "0") (lit "200") (lit "0") (lit "200")
              (S754_zero false) two_hundred (S754_zero false) two_hundred)
    as (Hparse & _ & _ & Hvalid);
    try (vm_compute; reflexivity).
  - repeat (constructor; [vm_compute; reflexivity|]). constructor.
  - lia.
  - repeat (constructor; [vm_compute; reflexivity|]). constructor.
  - split; [exact Hparse|]. apply Hvalid.
    repeat (constructor; [repeat (constructor; [vm_compute; reflexivity|]); constructor|]).
    constructor.
Defined.

Lemma parse_ragged_rows_witness :
  parse_config_file utf8_stdout NumPy_legacy __init__ ragged_text {| stdout := [] |}
  = (Ok (Some {| matrix := ObjectArray ragged_rows; x_count := 2; y_count := 2;
                 min_x := S754_zero false; max_x := two_hundred;
                 min_y := S754_zero false; max_y := two_hundred |}),
     {| stdout := [] |}) /\
  validate_mesh_data __init__
    {| matrix := ObjectArray ragged_rows; x_count := 2; y_count := 2;
       min_x := S754_zero false; max_x := two_hundred;
       min_y := S754_zero false; max_y := two_hundred |} = false.
Proof.
  apply (parse_ragged_rows utf8_stdout NumPy_legacy ragged_text {| stdout := [] |} ragged_rows
           (lit "2") (lit "2") (lit "0") (lit "200") (lit "0") (lit "200")
           2%Z 2%Z (S754_zero false) two_hundred (S754_zero false) two_hundred);
    vm_compute; reflexivity.
Defined.

Lemma validate_rejects_shape_mismatch_witness :
  validate_mesh_data __init__
    {| matrix := FloatArray [2%Z; 2%Z] [ten; ten; ten; ten];
       x_count := 2; y_count := 3;
       min_x := S754_zero false; max_x := two_hundred;
       min_y := S754_zero false; max_y := two_hundred |} = false.
Proof.
  apply validate_rejects_shape_mismatch. cbn. discriminate.
Defined.

Lemma validate_rejects_nan_inf_witness :
  validate_mesh_data __init__
    {| matrix := FloatArray [1%Z; 2%Z] [S754_zero false; S754_nan];
       x_count := 1; y_count := 2;
       min_x := S754_zero false; max_x := two_hundred;
       min_y := S754_zero false; max_y := two_hundred |} = false.
Proof.
  apply (validate_rejects_nan_inf __init__ _ S754_nan).
  - cbn. right. left. reflexivity.
  - left. reflexivity.
Defined.

Lemma validate_range_inclusive_witness :
  validate_mesh_data __init__ boundary_mesh = true.
Proof.
  destruct (validate_range_inclusive __init__ boundary_mesh [1%Z; 3%Z]
              [ten; SFopp ten; S754_zero false] eq_refl eq_refl)
    as (_ & _ & H & _).
  apply H.
  constructor; [left; reflexivity|].
  constructor; [right; left; reflexivity|].
  constructor; [right; right; reflexivity|].
  constructor.
Defined.

Lemma parse_config_file_missing_parameter_witness :
  parse_config_file utf8_stdout NumPy_1_24 __init__ missing_text {| stdout := [] |}
  = (Ok None, {| stdout := [Error_parsing_mesh_data missing_parameters] |}).
Proof.
  apply (parse_config_file_missing_parameter utf8_stdout NumPy_1_24 missing_text
           {| stdout := [] |} (lit "max_y")).
  - vm_compute. tauto.
  - intros line Hin. vm_compute in Hin.
    repeat (destruct Hin as [<-|Hin]; [vm_compute; discriminate|]).
    destruct Hin.
Defined.

Lemma search_not_anchored_witness :
  scan_points __init__ [lit "junk # * " ++ lit "#*# 1.0, 2.0"]
  = Ok [[S754_finite false 4503599627370496 (-52);
         S754_finite false 4503599627370496 (-51)]].
Proof.
  destruct (search_not_anchored (lit "junk # * ")) as (_ & _ & H & _);
    [vm_compute; reflexivity|].
  exact (H {| r_lead := lit " "; r_first := dec false "1" "0";
              r_more := [(lit " ", dec false "2" "0")] |} eq_refl).
Defined.

(** The two lines of the claim: [#*# 1.5, 2, 3.5] gives the row [1.5],
    [#*# 1.0, 2.0 junk] the row [1.0, 2.0]. *)
Lemma point_match_drops_trailing_witness :
  scan_points __init__ [lit "#*# 1.5" ++ lit ", 2, 3.5"]
  = Ok [[S754_finite false 6755399441055744 (-52)]] /\
  scan_points __init__ [lit "#*# 1.0, 2.0" ++ lit " junk"]
  = Ok [[S754_finite false 4503599627370496 (-52);
         S754_finite false 4503599627370496 (-51)]].
Proof.
  split.
  - destruct (point_match_drops_trailing utf8_stdout
                {| r_lead := lit " "; r_first := dec false "1" "5"; r_more := [] |}
                (lit ", 2, 3.5")) as (_ & H & _);
      [vm_compute; reflexivity|vm_compute; reflexivity|exact H].
  - destruct (point_match_drops_trailing utf8_stdout
                {| r_lead := lit " "; r_first := dec false "1" "0";
                   r_more := [(lit " ", dec false "2" "0")] |}
                (lit " junk")) as (_ & H & _);
      [vm_compute; reflexivity|vm_compute; reflexivity|exact H].
Defined.

(** C10, as stated, fails in a file: the line [#*# 1.5, 2, 3.5] gives the
    row [1.5] beside a row of three numbers, and with NumPy 1.24 or later
    the call returns none; with [2.0] in the place of [2] it returns a
    mesh. *)
Lemma point_match_drops_trailing_counterexample :
  scan_points __init__ (split "010" truncated_text)
  = Ok [[S754_finite false 6755399441055744 (-52)];
        [S754_finite false 4503599627370496 (-52);
         S754_finite false 4503599627370496 (-51);
         S754_finite false 6755399441055744 (-51)]] /\
  parse_config_file utf8_stdout NumPy_1_24 __init__ truncated_text {| stdout := [] |}
  = (Ok None, {| stdout := [Error_parsing_mesh_data ValueError_inhomogeneous] |}) /\
  exists m,
    parse_config_file utf8_stdout NumPy_1_24 __init__ untruncated_text
                      {| stdout := [] |}
    = (Ok (Some m), {| stdout := [] |}).
Proof.
  split; [vm_compute; reflexivity|]. split; [vm_compute; reflexivity|].
  eexists. vm_compute. reflexivity.
Qed.

(** C4 at work.  The value of x_count is no number, so [int] raises inside
    the [try]; the handler prints the line that shows the value, and on an
    output that cannot encode it the [print] of line 79 raises past
    [parse_config_file].  On an output that can, the call returns none. *)
Theorem parse_config_file_print_raises :
  parse_body NumPy_1_24 __init__ unprintable_text
  = Raise (ValueError_int ["233"%char]) /\
  parse_config_file ascii_stdout NumPy_1_24 __init__ unprintable_text
                    {| stdout := [] |}
  = (Raise UnicodeEncodeError, {| stdout := [] |}) /\
  parse_config_file utf8_stdout NumPy_1_24 __init__ unprintable_text
                    {| stdout := [] |}
  = (Ok None, {| stdout := [Error_parsing_mesh_data (ValueError_int ["233"%char])] |}).
Proof. repeat split; vm_compute; reflexivity. Qed.

(** C1, as stated, fails with the NumPy of today: the rows of [ragged_text]
    have two numbers and one number, its six parameters are there and
    convert, and the call returns none. *)
Lemma parse_ragged_rows_counterexample :
  scan_points __init__ (split "010" ragged_text) = Ok ragged_rows /\
  map (@length float) ragged_rows = [2%nat; 1%nat] /\
  map (fun key => option_map python_float
                    (scan_params __init__ (split "010" ragged_text) ∅ !! key))
      [lit "min_x"; lit "max_x"; lit "min_y"; lit "max_y"]
  = [Some (Some (S754_zero false)); Some (Some two_hundred);
     Some (Some (S754_zero false)); Some (Some two_hundred)] /\
  map (fun key => option_map python_int
                    (scan_params __init__ (split "010" ragged_text) ∅ !! key))
      [lit "x_count"; lit "y_count"]
  = [Some (Some 2%Z); Some (Some 2%Z)] /\
  parse_config_file utf8_stdout NumPy_1_24 __init__ ragged_text {| stdout := [] |}
  = (Ok None, {| stdout := [Error_parsing_mesh_data ValueError_inhomogeneous] |}).
Proof. repeat split; vm_compute; reflexivity. Qed.

Lemma parse_body_failures_witness :
  let params := scan_params __init__ (split "010" missing_text) ∅ in
  (missing_parameters = missing_parameters /\
   exists key, In key required_params /\ params !! key = None) \/
  (missing_parameters = ValueError_inhomogeneous /\ NumPy_1_24 = NumPy_1_24 /\
   exists rows, scan_points __init__ (split "010" missing_text) = Ok rows /\
                same_length rows = false) \/
  (exists key v, In key [lit "x_count"; lit "y_count"] /\
                 params !! key = Some v /\ python_int v = None /\
                 missing_parameters = ValueError_int v) \/
  (exists key v, In key [lit "min_x"; lit "max_x"; lit "min_y"; lit "max_y"] /\
                 params !! key = Some v /\ python_float v = None /\
                 missing_parameters = ValueError_float v).
Proof.
  apply (parse_body_failures NumPy_1_24 missing_text missing_parameters).
  vm_compute. reflexivity.
Defined.

Lemma parsed_mesh_finiteness_check_idle_witness :
  validate_mesh_data __init__ example_mesh
  = bool_decide (shape (matrix example_mesh)
                 = [x_count example_mesh; y_count example_mesh])
    && negb (any_abs_gt_10 (elements (matrix example_mesh))).
Proof.
  apply (parsed_mesh_finiteness_check_idle utf8_stdout NumPy_1_24 (file_text example_lines)
           {| stdout := [] |} {| stdout := [] |} example_mesh __init__).
  vm_compute. reflexivity.
Defined.

Lemma parsed_mesh_valid_iff_witness :
  validate_mesh_data __init__ example_mesh = true <->
  map row_floats (rows_of example_lines) <> [] /\
  x_count example_mesh = Z.of_nat (length (map row_floats (rows_of example_lines))) /\
  Forall (fun row => Z.of_nat (length row) = y_count example_mesh)
         (map row_floats (rows_of example_lines)) /\
  Forall (Forall (fun v => in_bounds v = true))
         (map row_floats (rows_of example_lines)).
Proof.
  apply (parsed_mesh_valid_iff utf8_stdout NumPy_1_24 (file_text example_lines)
           {| stdout := [] |} {| stdout := [] |} example_mesh).
  - vm_compute. reflexivity.
  - vm_compute. reflexivity.
Defined.

Lemma parse_without_rows_witness :
  parse_config_file utf8_stdout NumPy_1_24 __init__ no_rows_text {| stdout := [] |}
  = (Ok (Some {| matrix := FloatArray [0%Z] []; x_count := 2; y_count := 2;
                 min_x := S754_zero false; max_x := two_hundred;
                 min_y := S754_zero false; max_y := two_hundred |}),
     {| stdout := [] |}) /\
  validate_mesh_data __init__
    {| matrix := FloatArray [0%Z] []; x_count := 2; y_count := 2;
       min_x := S754_zero false; max_x := two_hundred;
       min_y := S754_zero false; max_y := two_hundred |} = false.
Proof.
  apply (parse_without_rows utf8_stdout NumPy_1_24 no_rows_text {| stdout := [] |}
           (lit "2") (lit "2") (lit "0") (lit "200") (lit "0") (lit "200"));
    try (vm_compute; reflexivity).
  intros line Hin. vm_compute in Hin.
  repeat (destruct Hin as [<-|Hin]; [vm_compute; reflexivity|]).
  destruct Hin.
Defined.

Lemma last_declaration_wins_witness :
  scan_params __init__
    ([lit "#*# x_count = 3"] ++ render_param (param "x_count" "5")
       :: [lit "#*# y_count = 7"]) ∅ !! lit "x_count"
  = Some (lit "5").
Proof.
  apply (last_declaration_wins [lit "#*# x_count = 3"] (param "x_count" "5")
           [lit "#*# y_count = 7"] ∅).
  - vm_compute. reflexivity.
  - intros line Hin. vm_compute in Hin.
    destruct Hin as [<-|[]]. vm_compute. discriminate.
Defined.

Lemma integer_first_number_gives_no_row_witness :
  search point_regex (integer_line (lit " ") false (lit "1") (lit ", 2.0")) = None /\
  scan_points __init__ [integer_line (lit " ") false (lit "1") (lit ", 2.0")]
  = scan_points __init__ [].
Proof.
  apply (integer_first_number_gives_no_row (lit " ") false (lit "1") (lit ", 2.0") []);
    vm_compute; reflexivity.
Defined.

Lemma param_needs_whitespace_around_equals_witness :
  search param_regex
    (render_param {| p_lead := lit " "; p_key := lit "x_count"; p_mid := [];
                     p_gap := []; p_value := lit "5" |}) = None /\
  scan_params __init__
    [render_param {| p_lead := lit " "; p_key := lit "x_count"; p_mid := [];
                     p_gap := []; p_value := lit "5" |}] ∅
  = scan_params __init__ [] ∅.
Proof.
  apply (param_needs_whitespace_around_equals
           {| p_lead := lit " "; p_key := lit "x_count"; p_mid := [];
              p_gap := []; p_value := lit "5" |} [] ∅);
    try (vm_compute; reflexivity).
  left. reflexivity.
Defined.

Lemma line_feeds_both_loops_witness :
  scan_points __init__
    [render_param (param "note" "see ")
       ++ render_row {| r_lead := lit " "; r_first := dec false "1" "5";
                        r_more := [] |}]
  = Ok [[S754_finite false 6755399441055744 (-52)]] /\
  scan_params __init__
    [render_param (param "note" "see ")
       ++ render_row {| r_lead := lit " "; r_first := dec false "1" "5";
                        r_more := [] |}] ∅
  = <[lit "note" := lit "see #*# 1.5"]> ∅.
Proof.
  apply (line_feeds_both_loops (param "note" "see ")
           {| r_lead := lit " "; r_first := dec false "1" "5"; r_more := [] |} ∅);
    vm_compute; reflexivity.
Defined.

Lemma lines_without_hash_ignored_witness :
  parse_config_file utf8_stdout NumPy_1_24 __init__ example_config {| stdout := [] |}
  = parse_config_file utf8_stdout NumPy_1_24 __init__ (file_text example_lines) {| stdout := [] |}.
Proof.
  apply (lines_without_hash_ignored utf8_stdout NumPy_1_24 example_config
           (file_text example_lines) {| stdout := [] |}).
  vm_compute. reflexivity.
Defined.

Lemma trailing_whitespace_ignored_witness :
  parse_config_file utf8_stdout NumPy_1_24 __init__ (file_text (map fst example_crlf))
                    {| stdout := [] |}
  = (Ok (Some example_mesh), {| stdout := [] |}) <->
  parse_config_file utf8_stdout NumPy_1_24 __init__ (trailed_text example_crlf)
                    {| stdout := [] |}
  = (Ok (Some example_mesh), {| stdout := [] |}).
Proof.
  apply (trailing_whitespace_ignored utf8_stdout NumPy_1_24 example_crlf
           {| stdout := [] |} {| stdout := [] |} example_mesh).
  repeat (constructor; [split; vm_compute; reflexivity|]). constructor.
Defined.

Lemma parsed_matrix_rectangular_witness :
  matrix example_mesh = FloatArray [0%Z] [] \/
  exists (N M : nat) data,
    matrix example_mesh = FloatArray [Z.of_nat N; Z.of_nat M] data /\
    (0 < N)%nat /\ (0 < M)%nat /\ length data = (N * M)%nat /\
    Forall (fun v => is_nan v = false) data.
Proof.
  apply (parsed_matrix_rectangular utf8_stdout (file_text example_lines)
           {| stdout := [] |} {| stdout := [] |} example_mesh).
  vm_compute. reflexivity.
Defined.

Lemma other_parameters_ignored_witness :
  parse_config_file utf8_stdout NumPy_1_24 __init__
    (join ["010"%char]
          (map render_line example_lines ++ render_param (param "version" "1") :: []))
    {| stdout := [] |}
  = parse_config_file utf8_stdout NumPy_1_24 __init__
      (join ["010"%char] (map render_line example_lines ++ [])) {| stdout := [] |}.
Proof.
  apply (other_parameters_ignored utf8_stdout NumPy_1_24 (map render_line example_lines)
           (param "version" "1") [] {| stdout := [] |}).
  - rewrite app_nil_r.
    repeat (constructor; [vm_compute; reflexivity|]). constructor.
  - vm_compute. reflexivity.
  - vm_compute. intuition discriminate.
Defined.

Lemma text_without_hash_witness :
  parse_config_file utf8_stdout NumPy_1_24 __init__ (lit "max_velocity = 300") {| stdout := [] |}
  = (Ok None, {| stdout := [Error_parsing_mesh_data missing_parameters] |}).
Proof.
  apply (text_without_hash utf8_stdout NumPy_1_24 (lit "max_velocity = 300") {| stdout := [] |}).
  vm_compute. reflexivity.
Defined.
